(** * Hydra Tracker: the front-end state logic, embedded in Rocq

    The React component [App] of the tracker is embedded as state-passing
    functions over an explicit [World]: the component's state and refs, the
    browser's timer table, the record store behind the [invoke] commands,
    the OS autostart registration, and a trace of every observable effect.
    Asynchronous handlers run in a small state-and-exception monad; the
    reminder effect, whose [async] body interleaves with everything else,
    is a labelled transition system. *)

From Stdlib Require Import ZArith QArith Qminmax List Bool String DecimalString Lia Lqa.
Import ListNotations.

Local Open Scope string_scope.
Local Open Scope list_scope.
Local Open Scope Z_scope.

(** ** Data model (the interfaces at the head of the source) *)

(** A calendar day.  The source carries it as an ISO string; only equality
    and the (year, month, day) components are ever used. *)
Record Date := mkDate { d_year : Z; d_month : Z; d_day : Z }.

Definition date_eqb (a b : Date) : bool :=
  (d_year a =? d_year b) && (d_month a =? d_month b) && (d_day a =? d_day b).

Record WaterEntry := mkEntry {
  id : Z;
  amount_ml : Z;
  timestamp : string;
  date : Date
}.

Record DailyStats := mkDaily {
  ds_date : Date;
  total_ml : Z;
  goal_ml : Z;
  entries_count : Z;
  percentage : Q
}.

Record MonthlyStats := mkMonthly {
  ms_month : string;
  ms_year : Z;
  days : list DailyStats;
  ms_total_ml : Z;
  average_ml : Q;
  days_goal_met : Z;
  current_streak : Z;
  best_streak : Z
}.

Record Settings := mkSettings {
  daily_goal_ml : Z;
  reminder_interval_minutes : Z;
  reminder_enabled : bool;
  sound_enabled : bool;
  start_with_system : bool;
  theme : string
}.

(** [Partial<Settings>]: every key may be absent. *)
Record PartialSettings := mkPartial {
  p_daily_goal_ml : option Z;
  p_reminder_interval_minutes : option Z;
  p_reminder_enabled : option bool;
  p_sound_enabled : option bool;
  p_start_with_system : option bool;
  p_theme : option string
}.

Definition or_else {A} (o : option A) (d : A) : A :=
  match o with Some a => a | None => d end.

(** [{ ...settings, ...newSettings }] *)
Definition spread (s : Settings) (p : PartialSettings) : Settings :=
  {| daily_goal_ml := or_else (p_daily_goal_ml p) (daily_goal_ml s);
     reminder_interval_minutes :=
       or_else (p_reminder_interval_minutes p) (reminder_interval_minutes s);
     reminder_enabled := or_else (p_reminder_enabled p) (reminder_enabled s);
     sound_enabled := or_else (p_sound_enabled p) (sound_enabled s);
     start_with_system := or_else (p_start_with_system p) (start_with_system s);
     theme := or_else (p_theme p) (theme s) |}.

Definition set_start_with_system (b : bool) (s : Settings) : Settings :=
  {| daily_goal_ml := daily_goal_ml s;
     reminder_interval_minutes := reminder_interval_minutes s;
     reminder_enabled := reminder_enabled s;
     sound_enabled := sound_enabled s;
     start_with_system := b;
     theme := theme s |}.

Definition defaultSettings : Settings :=
  {| daily_goal_ml := 4000;
     reminder_interval_minutes := 60;
     reminder_enabled := true;
     sound_enabled := true;
     start_with_system := false;
     theme := "dark" |}.

(** ** Month navigation *)

Record SelectedMonth := mkSel { year : Z; month : Z }.

(** The updater passed to [setSelectedMonth] by [navigateMonth]. *)
Definition navigateMonth (direction : Z) (prev : SelectedMonth) : SelectedMonth :=
  let newMonth := month prev + direction in
  let newYear := year prev in
  if 12 <? newMonth then {| year := newYear + 1; month := 1 |}
  else if newMonth <? 1 then {| year := newYear - 1; month := 12 |}
  else {| year := newYear; month := newMonth |}.

(** ** Statistics engine *)

Module StatsEngine.

Definition sum_amounts (es : list WaterEntry) : Z :=
  fold_right (fun e acc => amount_ml e + acc) 0 es.

Definition entries_on (d : Date) (es : list WaterEntry) : list WaterEntry :=
  filter (fun e => date_eqb (date e) d) es.

(** Modelled from the spec: the store's [get_today_stats] /
    [get_daily_stats] command, whose implementation is not among the
    sources.  total_ml is the sum of that day's amounts, entries_count
    their number, percentage is total_ml / goal_ml * 100 (unclamped). *)
Definition get_daily_stats (es : list WaterEntry) (goal : Z) (d : Date) : DailyStats :=
  let todays := entries_on d es in
  let total := sum_amounts todays in
  {| ds_date := d;
     total_ml := total;
     goal_ml := goal;
     entries_count := Z.of_nat (List.length todays);
     percentage := (inject_Z total / inject_Z goal * 100)%Q |}.

Definition is_leap (y : Z) : bool :=
  ((y mod 4 =? 0) && negb (y mod 100 =? 0)) || (y mod 400 =? 0).

Definition days_in_month (y m : Z) : nat :=
  if m =? 2 then (if is_leap y then 29 else 28)%nat
  else if (m =? 4) || (m =? 6) || (m =? 9) || (m =? 11) then 30%nat
  else 31%nat.

Definition has_entry (d : Date) (es : list WaterEntry) : bool :=
  existsb (fun e => date_eqb (date e) d) es.

(** Modelled from the spec: DailyStats for every day of the month that has
    at least one entry, in ascending date order. *)
Definition month_days (es : list WaterEntry) (goal y m : Z) : list DailyStats :=
  flat_map
    (fun n => let d := mkDate y m (Z.of_nat n) in
              if has_entry d es then [get_daily_stats es goal d] else [])
    (seq 1 (days_in_month y m)).

Definition meets_goal (s : DailyStats) : bool := goal_ml s <=? total_ml s.

Definition day_of (s : DailyStats) : Z := d_day (ds_date s).

(** Modelled from the spec: walking in descending date order, the number
    of consecutive goal-meeting days; the walk stops at the first day that
    misses the goal or at a calendar gap. *)
Fixpoint walk_streak (later : Z) (desc : list DailyStats) : Z :=
  match desc with
  | [] => 0
  | s :: rest =>
      if meets_goal s && (day_of s =? later - 1)
      then 1 + walk_streak (day_of s) rest
      else 0
  end.

(** Modelled from the spec: the walk starts from the most recent day with
    data, which counts only if it meets the goal itself. *)
Definition compute_current_streak (ds : list DailyStats) : Z :=
  match rev ds with
  | [] => 0
  | s :: rest => if meets_goal s then 1 + walk_streak (day_of s) rest else 0
  end.

(** Modelled from the spec: the longest run of consecutive goal-meeting
    days; a run also breaks at a calendar gap between stored days. *)
Fixpoint best_run (prev : option Z) (run best : Z) (asc : list DailyStats) : Z :=
  match asc with
  | [] => best
  | s :: rest =>
      let contiguous :=
        match prev with Some p => day_of s =? p + 1 | None => false end in
      let run' :=
        if meets_goal s then (if contiguous then run + 1 else 1) else 0 in
      best_run (Some (day_of s)) run' (Z.max best run') rest
  end.

Definition compute_best_streak (ds : list DailyStats) : Z := best_run None 0 0 ds.

Section MonthLabel.

(** The label the store prints for a month (its format is the store's). *)
Variable month_label : Z -> Z -> string.

(** Modelled from the spec: the store's [get_monthly_stats] command, whose
    implementation is not among the sources.  average_ml divides by the
    number of days with data and is 0 when there is none. *)
Definition get_monthly_stats (es : list WaterEntry) (goal y m : Z) : MonthlyStats :=
  let ds := month_days es goal y m in
  let total := fold_right (fun s acc => total_ml s + acc) 0 ds in
  let n := Z.of_nat (List.length ds) in
  {| ms_month := month_label y m;
     ms_year := y;
     days := ds;
     ms_total_ml := total;
     average_ml := if n =? 0 then 0%Q else (inject_Z total / inject_Z n)%Q;
     days_goal_met := Z.of_nat (List.length (filter meets_goal ds));
     current_streak := compute_current_streak ds;
     best_streak := compute_best_streak ds |}.

End MonthLabel.

Definition in_month (y m : Z) (d : Date) : bool :=
  (d_year d =? y) && (d_month d =? m).

End StatsEngine.

(** ** The world the component runs in *)

(** The shape shared by the [toast] and [achievement] state cells. *)
Record Banner := mkBanner { message : string; show : bool }.

(** Work a browser timer performs when it fires: the four callbacks the
    component ever hands to [setTimeout] / [setInterval]. *)
Inductive Callback :=
| CbTestNotification (minutes : Z) (sound : bool)
| CbReminder (sound : bool)
| CbHideToast
| CbHideAchievement.

(** An entry of the browser's timer table.  [setTimeout] and [setInterval]
    draw their handles from one pool; [t_repeat] tells them apart. *)
Record Timer := mkTimer {
  t_id : nat;
  t_repeat : bool;
  t_ms : Z;
  t_cb : Callback
}.

Inductive Await := AwaitIsGranted | AwaitRequest.

(** A [setupReminder] call suspended at one of its two [await]s, together
    with the [settings] its closure captured. *)
Record Task := mkTask { k_at : Await; k_settings : Settings }.

Inductive Command :=
| get_today_stats
| get_today_entries
| get_settings
| save_settings (s : Settings)
| add_water (amountMl : Z)
| remove_entry (entry : Z).

Inductive OsCall :=
| isAutostartEnabled
| enableAutostart
| disableAutostart
| isPermissionGranted
| requestPermission
| sendNotification (title body : string).

(** Everything an observer outside the component can see happen. *)
Inductive Event :=
| EvInvoke (c : Command)
| EvOs (c : OsCall)
| EvConsoleError (msg : string)
| EvConsoleWarn (msg : string)
| EvAudio (file : string).

(** [useState] cells. *)
Record AppState := mkApp {
  stats : option DailyStats;
  entries : list WaterEntry;
  settings : Settings;
  customAmount : string;
  toast : Banner;
  selectedMonth : SelectedMonth;
  achievement : Banner
}.

(** [useRef] cells, the document attribute, the timer table, the suspended
    [setupReminder] calls, and the dependency values the reminder effect
    last ran with ([None] while the component is not mounted). *)
Record Runtime := mkRt {
  reminderInterval : option nat;
  achievementTimeout : option nat;
  data_theme : option string;
  timers : list Timer;
  next_timer : nat;
  pending : list Task;
  effect_deps : option (bool * Z)
}.

(** The record store and the OS autostart registration. *)
Record Backend := mkEnv {
  db_entries : list WaterEntry;
  db_settings : Settings;
  db_next_id : Z;
  db_today : Date;
  db_now : string;
  os_autostart : bool
}.

(** [faults] decides the outcome of the external calls still to come, one
    bit per call in issue order: [true] rejects the call, [false] (and an
    exhausted list) lets it through. *)
Record World := mkWorld {
  app : AppState;
  rt : Runtime;
  env : Backend;
  trace : list Event;
  faults : list bool
}.

(** *** Field updates *)

Definition with_app (f : AppState -> AppState) (w : World) : World :=
  mkWorld (f (app w)) (rt w) (env w) (trace w) (faults w).
Definition with_rt (f : Runtime -> Runtime) (w : World) : World :=
  mkWorld (app w) (f (rt w)) (env w) (trace w) (faults w).
Definition with_env (f : Backend -> Backend) (w : World) : World :=
  mkWorld (app w) (rt w) (f (env w)) (trace w) (faults w).
Definition emit (e : Event) (w : World) : World :=
  mkWorld (app w) (rt w) (env w) (trace w ++ [e]) (faults w).
Definition with_faults (fs : list bool) (w : World) : World :=
  mkWorld (app w) (rt w) (env w) (trace w) fs.

Definition put_stats v (a : AppState) : AppState :=
  mkApp v (entries a) (settings a) (customAmount a) (toast a) (selectedMonth a) (achievement a).
Definition put_entries v (a : AppState) : AppState :=
  mkApp (stats a) v (settings a) (customAmount a) (toast a) (selectedMonth a) (achievement a).
Definition put_settings v (a : AppState) : AppState :=
  mkApp (stats a) (entries a) v (customAmount a) (toast a) (selectedMonth a) (achievement a).
Definition put_customAmount v (a : AppState) : AppState :=
  mkApp (stats a) (entries a) (settings a) v (toast a) (selectedMonth a) (achievement a).
Definition put_toast v (a : AppState) : AppState :=
  mkApp (stats a) (entries a) (settings a) (customAmount a) v (selectedMonth a) (achievement a).
Definition put_selectedMonth v (a : AppState) : AppState :=
  mkApp (stats a) (entries a) (settings a) (customAmount a) (toast a) v (achievement a).
Definition put_achievement v (a : AppState) : AppState :=
  mkApp (stats a) (entries a) (settings a) (customAmount a) (toast a) (selectedMonth a) v.

Definition put_reminderInterval v (r : Runtime) : Runtime :=
  mkRt v (achievementTimeout r) (data_theme r) (timers r) (next_timer r) (pending r) (effect_deps r).
Definition put_achievementTimeout v (r : Runtime) : Runtime :=
  mkRt (reminderInterval r) v (data_theme r) (timers r) (next_timer r) (pending r) (effect_deps r).
Definition put_data_theme v (r : Runtime) : Runtime :=
  mkRt (reminderInterval r) (achievementTimeout r) v (timers r) (next_timer r) (pending r) (effect_deps r).
Definition put_timers v (r : Runtime) : Runtime :=
  mkRt (reminderInterval r) (achievementTimeout r) (data_theme r) v (next_timer r) (pending r) (effect_deps r).
Definition put_next_timer v (r : Runtime) : Runtime :=
  mkRt (reminderInterval r) (achievementTimeout r) (data_theme r) (timers r) v (pending r) (effect_deps r).
Definition put_pending v (r : Runtime) : Runtime :=
  mkRt (reminderInterval r) (achievementTimeout r) (data_theme r) (timers r) (next_timer r) v (effect_deps r).
Definition put_effect_deps v (r : Runtime) : Runtime :=
  mkRt (reminderInterval r) (achievementTimeout r) (data_theme r) (timers r) (next_timer r) (pending r) v.

Definition put_db_entries v (b : Backend) : Backend :=
  mkEnv v (db_settings b) (db_next_id b) (db_today b) (db_now b) (os_autostart b).
Definition put_db_settings v (b : Backend) : Backend :=
  mkEnv (db_entries b) v (db_next_id b) (db_today b) (db_now b) (os_autostart b).
Definition put_db_next_id v (b : Backend) : Backend :=
  mkEnv (db_entries b) (db_settings b) v (db_today b) (db_now b) (os_autostart b).
Definition put_os_autostart v (b : Backend) : Backend :=
  mkEnv (db_entries b) (db_settings b) (db_next_id b) (db_today b) (db_now b) v.

(** ** Browser timers *)

(** [clearInterval] / [clearTimeout]: drop the handle from the table; an
    unknown handle is ignored. *)
Definition clearTimer (h : nat) (r : Runtime) : Runtime :=
  put_timers (filter (fun t => negb (Nat.eqb (t_id t) h)) (timers r)) r.

(** [setTimeout] / [setInterval]: a fresh handle, returned to the caller. *)
Definition setTimer (repeat : bool) (cb : Callback) (ms : Z) (r : Runtime) : nat * Runtime :=
  let h := next_timer r in
  (h, put_next_timer (S h) (put_timers (timers r ++ [mkTimer h repeat ms cb]) r)).

(** A [setTimeout] whose handle is not kept. *)
Definition setTimeout_ (cb : Callback) (ms : Z) (w : World) : World :=
  with_rt (fun r => snd (setTimer false cb ms r)) w.

(** Truthiness of a timer ref: [null] and the number 0 are falsy. *)
Definition truthy (h : option nat) : option nat :=
  match h with Some (S n) => Some (S n) | _ => None end.

Definition live_recurring (r : Runtime) : list Timer := filter t_repeat (timers r).

(** ** Sound effects *)

Inductive SoundType :=
| SndTypewriter | SndAdd | SndDelete | SndAchievement | SndError | SndMove.

Definition soundFile (t : SoundType) : string :=
  match t with
  | SndTypewriter | SndAdd => "/sounds/Select.wav"
  | SndMove => "/sounds/Move.wav"
  | SndDelete | SndError => "/sounds/Back.wav"
  | SndAchievement => "/sounds/Select.wav"
  end.

Definition playSound (t : SoundType) (enabled : bool) (w : World) : World :=
  if enabled then emit (EvAudio (soundFile t)) w else w.


(** A number in a template literal or a string concatenation. Up to
    [MAX_SAFE_INTEGER] in absolute value an integer is printed with all its
    decimal digits, which is what [show_Z] gives; beyond it JavaScript prints
    the shortest digits that read back as the same double, and from 1e21 on
    exponent notation, which [show_Z] does not follow. *)
Definition show_Z (z : Z) : string := NilZero.string_of_int (Z.to_int z).

(** ** The reminder effect *)

Inductive Permission := granted | denied | default.

(** What the OS hands back when a suspended [setupReminder] resumes. *)
Inductive Answer :=
| IsGranted (b : bool)
| Requested (p : Permission)
| Rejected.

(** [if (reminderInterval.current) { clearInterval(...); ... = null; }] *)
Definition clear_reminder_ref (w : World) : World :=
  match truthy (reminderInterval (rt w)) with
  | Some h => with_rt (fun r => put_reminderInterval None (clearTimer h r)) w
  | None => w
  end.

(** The function the effect returns. It clears both handles and leaves the
    refs as they are. *)
Definition cleanup (w : World) : World :=
  let w1 := match truthy (reminderInterval (rt w)) with
            | Some h => with_rt (clearTimer h) w
            | None => w
            end in
  match truthy (achievementTimeout (rt w1)) with
  | Some h => with_rt (clearTimer h) w1
  | None => w1
  end.

Definition enqueue (k : Task) (w : World) : World :=
  with_rt (fun r => put_pending (pending r ++ [k]) r) w.

(** The tail of [setupReminder] once permission is known to be granted:
    synchronous from "Clear existing interval" to the [setInterval]. The
    handle of the confirmation one-shot is dropped on the floor. *)
Definition arm (s : Settings) (w : World) : World :=
  let w1 := clear_reminder_ref w in
  let intervalMs := reminder_interval_minutes s * 60 * 1000 in
  let w2 := setTimeout_
              (CbTestNotification (reminder_interval_minutes s) (sound_enabled s))
              2000 w1 in
  with_rt (fun r =>
    let (h, r') := setTimer true (CbReminder (sound_enabled s)) intervalMs r in
    put_reminderInterval (Some h) r') w2.

(** The branch taken when permission is still missing after the request. *)
Definition report_denied (w : World) : World :=
  let w1 := emit (EvConsoleWarn "Notification permission not granted. Reminders will not work.") w in
  let w2 := with_app (put_toast
              (mkBanner "Notification permission required for reminders! Check system settings." true)) w1 in
  setTimeout_ CbHideToast 5000 w2.

(** [setupReminder] up to its first [await]. *)
Definition setupReminder (s : Settings) (w : World) : World :=
  if negb (reminder_enabled s) then clear_reminder_ref w
  else enqueue (mkTask AwaitIsGranted s) (emit (EvOs isPermissionGranted) w).

(** [setupReminder] from one [await] to the next, or to its end. A
    rejected call ends the function: nothing in it catches. *)
Definition resume (k : Task) (a : Answer) (w : World) : option World :=
  match k_at k, a with
  | _, Rejected => Some w
  | AwaitIsGranted, IsGranted true => Some (arm (k_settings k) w)
  | AwaitIsGranted, IsGranted false =>
      Some (enqueue (mkTask AwaitRequest (k_settings k)) (emit (EvOs requestPermission) w))
  | AwaitRequest, Requested granted => Some (arm (k_settings k) w)
  | AwaitRequest, Requested _ => Some (report_denied w)
  | _, _ => None
  end.

Fixpoint remove_nth {A} (i : nat) (l : list A) : list A :=
  match i, l with
  | _, [] => []
  | O, _ :: r => r
  | S j, x :: r => x :: remove_nth j r
  end.

Definition resume_nth (i : nat) (a : Answer) (w : World) : option World :=
  match nth_error (pending (rt w)) i with
  | Some k => resume k a (with_rt (fun r => put_pending (remove_nth i (pending r)) r) w)
  | None => None
  end.

(** The characters in front of the notification title and of the failure
    messages, as the bytes (UTF-8) the source file holds them. *)
Definition utf8 (bytes : list nat) : string :=
  fold_right (fun b s => String (Ascii.ascii_of_nat b) s) EmptyString bytes.

Definition notification_title : string :=
  (utf8 [195; 176; 197; 184; 226; 128; 153; 194; 167]%nat ++ " Hydration Reminder")%string.

Definition failure_mark : string := utf8 [195; 162; 197; 146]%nat.

(** The two notification callbacks share their shape: send, then either
    play the sound or log the failure twice. *)
Definition notify (body : string) (sound delivered : bool) (failure : string) (w : World) : World :=
  let w1 := emit (EvOs (sendNotification notification_title body)) w in
  if delivered then playSound SndAdd sound w1
  else emit (EvConsoleError "Error details:") (emit (EvConsoleError failure) w1).

Definition run_callback (cb : Callback) (delivered : bool) (w : World) : World :=
  match cb with
  | CbTestNotification minutes sound =>
      notify ("Reminder system active! You will be notified every "
                ++ show_Z minutes ++ " minutes.")%string
             sound delivered (failure_mark ++ " Failed to send test notification:")%string w
  | CbReminder sound =>
      notify "Time to drink some water! Stay hydrated."
             sound delivered (failure_mark ++ " Failed to send reminder notification:")%string w
  | CbHideToast => with_app (put_toast (mkBanner "" false)) w
  | CbHideAchievement => with_app (put_achievement (mkBanner "" false)) w
  end.

(** A live timer fires; a one-shot leaves the table as it does. *)
Definition fire (h : nat) (delivered : bool) (w : World) : option World :=
  match find (fun t => Nat.eqb (t_id t) h) (timers (rt w)) with
  | Some t =>
      let w1 := if t_repeat t then w else with_rt (clearTimer h) w in
      Some (run_callback (t_cb t) delivered w1)
  | None => None
  end.

(** *** React's side of the effect: dependency comparison and commit *)

Definition deps_of (s : Settings) : bool * Z :=
  (reminder_enabled s, reminder_interval_minutes s).

Definition deps_eqb (a b : bool * Z) : bool :=
  Bool.eqb (fst a) (fst b) && (snd a =? snd b).

Definition run_effect (w : World) : World :=
  let s := settings (app w) in
  setupReminder s (with_rt (put_effect_deps (Some (deps_of s))) w).

(** After a render: when a dependency changed, the previous run's cleanup,
    then the effect again. *)
Definition commit (w : World) : World :=
  match effect_deps (rt w) with
  | Some d =>
      if deps_eqb d (deps_of (settings (app w))) then w
      else run_effect (cleanup w)
  | None => w
  end.

Definition setSettings (s : Settings) (w : World) : World :=
  commit (with_app (put_settings s) w).

Definition mount (w : World) : World :=
  match effect_deps (rt w) with
  | None => run_effect w
  | Some _ => w
  end.

Definition unmount (w : World) : World :=
  match effect_deps (rt w) with
  | Some _ => with_rt (put_effect_deps None) (cleanup w)
  | None => w
  end.

(** ** Asynchronous handlers: state threaded through, exceptions caught *)

Inductive Result (A : Type) :=
| Ok (a : A)
| Throw (e : string).
Arguments Ok {A} a.
Arguments Throw {A} e.

Definition M (A : Type) : Type := World -> Result A * World.

Definition ret {A} (a : A) : M A := fun w => (Ok a, w).

Definition bind {A B} (m : M A) (k : A -> M B) : M B :=
  fun w => match m w with
           | (Ok a, w1) => k a w1
           | (Throw e, w1) => (Throw e, w1)
           end.

Definition try_catch {A} (m : M A) (handler : string -> M A) : M A :=
  fun w => match m w with
           | (Ok a, w1) => (Ok a, w1)
           | (Throw e, w1) => handler e w1
           end.

(** Run a promise to settlement without awaiting it. *)
Definition settle {A} (m : M A) : M (Result A) :=
  fun w => let (r, w1) := m w in (Ok r, w1).

Definition await {A} (r : Result A) : M A :=
  fun w => (r, w).

Definition act (f : World -> World) : M unit := fun w => (Ok tt, f w).

Declare Scope handler_scope.
Delimit Scope handler_scope with handler.
Notation "x <- m ;; k" := (bind m (fun x => k))
  (at level 100, m at next level, right associativity) : handler_scope.
Notation "m ;; k" := (bind m (fun _ => k))
  (at level 100, right associativity) : handler_scope.
Local Open Scope handler_scope.

(** An external call: it is issued (and traced), then the next fault bit
    decides whether it rejects before having any effect. *)
Definition external {A} (ev : Event) (body : M A) : M A :=
  fun w =>
    let w1 := emit ev w in
    match faults w1 with
    | true :: fs => (Throw "rejected", with_faults fs w1)
    | false :: fs => body (with_faults fs w1)
    | [] => body w1
    end.

(** [Promise.all]: every promise is started; the first rejection wins. *)
Definition promise_all2 {A B} (a : M A) (b : M B) : M (A * B) :=
  ra <- settle a ;; rb <- settle b ;;
  x <- await ra ;; y <- await rb ;;
  ret (x, y).

Definition promise_all3 {A B C} (a : M A) (b : M B) (c : M C) : M (A * B * C) :=
  ra <- settle a ;; rb <- settle b ;; rc <- settle c ;;
  x <- await ra ;; y <- await rb ;; z <- await rc ;;
  ret (x, y, z).

(** *** The store's commands and the OS plugin calls *)

(** Modelled from the spec: the store's read commands, whose
    implementation is not among the sources. Today's stats are the daily
    stats of the store's current day against the persisted goal. *)
Definition invoke_get_today_stats : M DailyStats :=
  external (EvInvoke get_today_stats)
    (fun w => (Ok (StatsEngine.get_daily_stats (db_entries (env w))
                     (daily_goal_ml (db_settings (env w))) (db_today (env w))), w)).

Definition invoke_get_today_entries : M (list WaterEntry) :=
  external (EvInvoke get_today_entries)
    (fun w => (Ok (StatsEngine.entries_on (db_today (env w)) (db_entries (env w))), w)).

Definition invoke_get_settings : M Settings :=
  external (EvInvoke get_settings) (fun w => (Ok (db_settings (env w)), w)).

(** Modelled from the spec: [save_settings] replaces the persisted
    singleton. *)
Definition invoke_save_settings (s : Settings) : M unit :=
  external (EvInvoke (save_settings s)) (act (with_env (put_db_settings s))).

(** Modelled from the spec: [add_entry] fails if amount_ml <= 0, and
    otherwise stores a new entry under a fresh id, stamped by the store. *)
Definition store_entry (amountMl : Z) (w : World) : World :=
  let e := mkEntry (db_next_id (env w)) amountMl (db_now (env w)) (db_today (env w)) in
  with_env (fun b => put_db_next_id (db_next_id b + 1)
                       (put_db_entries (db_entries b ++ [e]) b)) w.

Definition invoke_add_water (amountMl : Z) : M unit :=
  external (EvInvoke (add_water amountMl))
    (fun w =>
       if amountMl <=? 0 then (Throw "Amount must be positive", w)
       else (Ok tt, store_entry amountMl w)).

(** Modelled from the spec: [remove_entry] deletes the entry with that id;
    an unknown id is reported as not found without an exception. *)
Definition delete_entry (entry : Z) (w : World) : World :=
  with_env (fun b =>
    put_db_entries (filter (fun e => negb (id e =? entry)) (db_entries b)) b) w.

Definition invoke_remove_entry (entry : Z) : M unit :=
  external (EvInvoke (remove_entry entry)) (act (delete_entry entry)).

(** The autostart plugin: a query, and two switches that change the
    registration only when they succeed. *)
Definition os_isAutostartEnabled : M bool :=
  external (EvOs isAutostartEnabled) (fun w => (Ok (os_autostart (env w)), w)).

Definition os_enableAutostart : M unit :=
  external (EvOs enableAutostart) (act (with_env (put_os_autostart true))).

Definition os_disableAutostart : M unit :=
  external (EvOs disableAutostart) (act (with_env (put_os_autostart false))).

(** *** Handlers *)

Definition console_error (msg : string) : M unit := act (emit (EvConsoleError msg)).

Definition showToast (msg : string) : M unit :=
  act (with_app (put_toast (mkBanner msg true))) ;;
  act (setTimeout_ CbHideToast 2000).

(** [loadData]. The object [get_settings] returned is patched in place
    before the corrective save is awaited, so the patched object is what
    [setSettings] receives even when that save rejects. *)
Definition loadData : M unit :=
  try_catch
    (r <- promise_all3 invoke_get_today_stats invoke_get_today_entries invoke_get_settings ;;
     let '(todayStats, todayEntries, savedSettings) := r in
     act (with_app (put_stats (Some todayStats))) ;;
     act (with_app (put_entries todayEntries)) ;;
     probe <- settle os_isAutostartEnabled ;;
     savedSettings <-
       match probe with
       | Ok autostartEnabled =>
           if negb (Bool.eqb (start_with_system savedSettings) autostartEnabled) then
             let patched := set_start_with_system autostartEnabled savedSettings in
             try_catch (invoke_save_settings patched)
               (fun _ => console_error "Failed to check autostart status:") ;;
             ret patched
           else ret savedSettings
       | Throw _ =>
           console_error "Failed to check autostart status:" ;;
           ret savedSettings
       end ;;
     act (setSettings savedSettings) ;;
     act (with_rt (put_data_theme (Some (theme savedSettings)))))
    (fun _ => console_error "Failed to load data:").

(** What a handler closes over: the state of the render that created it. *)
Record Render := mkRender {
  r_stats : option DailyStats;
  r_settings : Settings;
  r_achievement : Banner
}.

Definition current_render (w : World) : Render :=
  mkRender (stats (app w)) (settings (app w)) (achievement (app w)).

Definition below_100 (s : option DailyStats) : bool :=
  match s with
  | Some s => negb (Qle_bool 100 (percentage s))
  | None => false
  end.

Definition start_achievement_timeout (w : World) : World :=
  let w1 := match truthy (achievementTimeout (rt w)) with
            | Some h => with_rt (clearTimer h) w
            | None => w
            end in
  with_rt (fun r =>
    let (h, r') := setTimer false CbHideAchievement 5000 r in
    put_achievementTimeout (Some h) r') w1.

(** ['FIRST AID SPRAY\nACHIEVEMENT UNLOCKED'] *)
Definition achievement_message : string :=
  ("FIRST AID SPRAY" ++ String (Ascii.ascii_of_nat 10) "ACHIEVEMENT UNLOCKED")%string.

(** [handleAddWater]. The amount is an integer at every call site: a
    quick-add constant, [parseInt(customAmount) || 0], or the tray's
    payload. [stats], [settings] and [achievement] are the closure's. *)
Definition handleAddWater (r : Render) (amount : Z) : M unit :=
  if amount <=? 0 then act (playSound SndError (sound_enabled (r_settings r)))
  else
    try_catch
      (act (playSound SndAdd (sound_enabled (r_settings r))) ;;
       invoke_add_water amount ;;
       updated <- promise_all2 invoke_get_today_stats invoke_get_today_entries ;;
       let updatedStats := fst updated in
       (if negb (show (r_achievement r))
           && Qle_bool 100 (percentage updatedStats)
           && below_100 (r_stats r)
        then
          act (with_app (put_achievement
                 (mkBanner achievement_message true))) ;;
          act (playSound SndAchievement (sound_enabled (r_settings r))) ;;
          act start_achievement_timeout
        else ret tt) ;;
       loadData ;;
       showToast ("Added " ++ show_Z amount ++ "ml")%string ;;
       act (with_app (put_customAmount "")))
      (fun _ =>
         console_error "Failed to add water:" ;;
         act (playSound SndError (sound_enabled (r_settings r)))).

Definition handleRemoveEntry (r : Render) (entry : Z) : M unit :=
  try_catch
    (act (playSound SndDelete (sound_enabled (r_settings r))) ;;
     invoke_remove_entry entry ;;
     loadData)
    (fun _ =>
       console_error "Failed to remove entry:" ;;
       act (playSound SndError (sound_enabled (r_settings r)))).

Definition nonempty (s : string) : bool :=
  match s with EmptyString => false | _ => true end.

(** [handleSaveSettings]. Neither [catch] returns: after a failed
    autostart switch the handler goes on to save and reload. *)
Definition handleSaveSettings (r : Render) (newSettings : PartialSettings) : M unit :=
  let updated := spread (r_settings r) newSettings in
  act (setSettings updated) ;;
  match p_theme newSettings with
  | Some t => if nonempty t then act (with_rt (put_data_theme (Some t))) else ret tt
  | None => ret tt
  end ;;
  match p_start_with_system newSettings with
  | Some b =>
      try_catch (if b then os_enableAutostart else os_disableAutostart)
        (fun _ =>
           console_error "Failed to update autostart:" ;;
           showToast "Failed to update autostart setting")
  | None => ret tt
  end ;;
  try_catch (invoke_save_settings updated ;; loadData)
    (fun _ => console_error "Failed to save settings:").

(** Run a handler under a given fault schedule and keep the world. *)
Definition exec {A} (m : M A) (fs : list bool) (w : World) : World :=
  snd (m (with_faults fs w)).

(** ** The component as a transition system *)

Inductive Action :=
| ActMount
| ActUnmount
| ActLoad (fs : list bool)
| ActAddWater (r : Render) (amount : Z) (fs : list bool)
| ActRemoveEntry (r : Render) (entry : Z) (fs : list bool)
| ActSaveSettings (r : Render) (p : PartialSettings) (fs : list bool)
| ActNavigate (direction : Z)
| ActResume (i : nat) (a : Answer)
| ActFire (h : nat) (delivered : bool).

Definition step (a : Action) (w : World) : option World :=
  match a with
  | ActMount => Some (mount w)
  | ActUnmount => Some (unmount w)
  | ActLoad fs => Some (exec loadData fs w)
  | ActAddWater r amount fs => Some (exec (handleAddWater r amount) fs w)
  | ActRemoveEntry r entry fs => Some (exec (handleRemoveEntry r entry) fs w)
  | ActSaveSettings r p fs => Some (exec (handleSaveSettings r p) fs w)
  | ActNavigate d =>
      Some (with_app (fun a => put_selectedMonth (navigateMonth d (selectedMonth a)) a)
              (playSound SndMove (sound_enabled (settings (app w))) w))
  | ActResume i a => resume_nth i a w
  | ActFire h delivered => fire h delivered w
  end.

Fixpoint run (acts : list Action) (w : World) : option World :=
  match acts with
  | [] => Some w
  | a :: rest =>
      match step a w with
      | Some w1 => run rest w1
      | None => None
      end
  end.

(** The component before its first render, over a given store and OS. *)
Definition initial (b : Backend) (sel : SelectedMonth) : World :=
  {| app := {| stats := None;
               entries := [];
               settings := defaultSettings;
               customAmount := "";
               toast := mkBanner "" false;
               selectedMonth := sel;
               achievement := mkBanner "" false |};
     rt := {| reminderInterval := None;
              achievementTimeout := None;
              data_theme := None;
              timers := [];
              next_timer := 1;
              pending := [];
              effect_deps := None |};
     env := b;
     trace := [];
     faults := [] |}.

Definition reachable (w : World) : Prop :=
  exists b sel acts, run acts (initial b sel) = Some w.

(** The reminder-related part of the runtime: the handle the component
    tracks, the reminder and confirmation timers in the table, the
    suspended arming attempts and the effect's last dependencies. *)
Definition is_reminder_timer (t : Timer) : bool :=
  match t_cb t with
  | CbReminder _ | CbTestNotification _ _ => true
  | _ => false
  end.

Definition scheduler_view (w : World)
  : option nat * list Timer * list Task * option (bool * Z) :=
  (reminderInterval (rt w),
   filter is_reminder_timer (timers (rt w)),
   pending (rt w),
   effect_deps (rt w)).

(** In-memory state that a failed load must not touch. *)
Definition memory_view (w : World)
  : option DailyStats * list WaterEntry * Settings * option string :=
  (stats (app w), entries (app w), settings (app w), data_theme (rt w)).

Definition count_event (p : Event -> bool) (w : World) : nat :=
  List.length (filter p (trace w)).

Definition is_add_water (e : Event) : bool :=
  match e with EvInvoke (add_water _) => true | _ => false end.

Definition is_save_settings (e : Event) : bool :=
  match e with EvInvoke (save_settings _) => true | _ => false end.



(** ** Reasoning about handlers *)

(** [hoare I m V]: from a world satisfying [I], the handler [m] ends in a
    world satisfying [I] again, whether it returns or throws, and any
    value it returns satisfies [V]. *)
Definition hoare {A} (I : World -> Prop) (m : M A) (V : A -> Prop) : Prop :=
  forall w, I w -> I (snd (m w)) /\ forall a, fst (m w) = Ok a -> V a.

Definition settled {A} (V : A -> Prop) (r : Result A) : Prop :=
  match r with Ok a => V a | Throw _ => True end.

Definition anything {A} (_ : A) : Prop := True.

(** The world of a load once its three reads and its autostart query have
    been answered, and the last two steps of a load. *)
Definition probed (w : World) : World :=
  emit (EvOs isAutostartEnabled)
    (with_app (put_entries (StatsEngine.entries_on (db_today (env w)) (db_entries (env w))))
       (with_app (put_stats (Some (StatsEngine.get_daily_stats (db_entries (env w))
                                     (daily_goal_ml (db_settings (env w)))
                                     (db_today (env w)))))
          (emit (EvInvoke get_settings)
             (emit (EvInvoke get_today_entries)
                (emit (EvInvoke get_today_stats) w))))).

Definition finish_load (s : Settings) (w : World) : World :=
  with_rt (put_data_theme (Some (theme s))) (setSettings s w).

Definition reconciled (w : World) : Settings :=
  set_start_with_system (os_autostart (env w)) (db_settings (env w)).

(** The steps of [handleSaveSettings] after its [setSettings], as world
    transformers: the theme attribute, the autostart switch with its
    failure handler, and the save with its failure handler. *)
Definition apply_theme (p : PartialSettings) (w : World) : World :=
  match p_theme p with
  | Some t => if nonempty t then with_rt (put_data_theme (Some t)) w else w
  | None => w
  end.

Definition toggle_call (b : bool) : OsCall :=
  if b then enableAutostart else disableAutostart.

Definition toggle_step (change : option bool) (w : World) : World :=
  match change with
  | Some b =>
      let w1 := with_faults (tl (faults w)) (emit (EvOs (toggle_call b)) w) in
      if hd false (faults w)
      then setTimeout_ CbHideToast 2000
             (with_app (put_toast (mkBanner "Failed to update autostart setting" true))
                (emit (EvConsoleError "Failed to update autostart:") w1))
      else with_env (put_os_autostart b) w1
  | None => w
  end.

Definition save_step (updated : Settings) (w : World) : World :=
  let w1 := with_faults (tl (faults w)) (emit (EvInvoke (save_settings updated)) w) in
  if hd false (faults w)
  then emit (EvConsoleError "Failed to save settings:") w1
  else with_env (put_db_settings updated) w1.

(** Every stored entry, and every amount ever sent to [add_water], is
    positive. *)
Definition positive_store (w : World) : Prop :=
  (forall e, In e (db_entries (env w)) -> 0 < amount_ml e) /\
  (forall a, In (EvInvoke (add_water a)) (trace w) -> 0 < a).

(** The timer discipline of the reminder effect: every recurring timer in
    the table is the one [reminderInterval] points at (and is not the one
    [achievementTimeout] points at), there is at most one of them, and
    handles are positive and below the next handle to be issued. *)
Definition timers_ok (r : Runtime) : Prop :=
  (forall t, In t (timers r) -> t_repeat t = true ->
     reminderInterval r = Some (t_id t) /\
     achievementTimeout r <> Some (t_id t) /\
     (0 < t_id t)%nat) /\
  (List.length (live_recurring r) <= 1)%nat /\
  (forall h, reminderInterval r = Some h -> (h < next_timer r)%nat) /\
  (forall h, achievementTimeout r = Some h -> (h < next_timer r)%nat) /\
  (0 < next_timer r)%nat.

Definition world_ok (w : World) : Prop := timers_ok (rt w).

(** The reminder effect has run for the settings now in state (or the
    component is not mounted): no commit is outstanding. *)
Definition effect_in_sync (w : World) : Prop :=
  match effect_deps (rt w) with
  | Some d => d = deps_of (settings (app w))
  | None => True
  end.


(** *** Runs of [setupReminder] *)










(** ** Sample worlds *)

Module Sample.

Definition persisted : Settings := mkSettings 2000 30 true true true "light".

Definition store : Backend :=
  mkEnv [mkEntry 1 500 "2024-05-10T08:00:00" (mkDate 2024 5 10)]
        persisted 2 (mkDate 2024 5 10) "2024-05-10T09:30:00" false.

Definition fresh : World := initial store (mkSel 2024 5).

(** Three days in a row at the goal of 2000 ml, then a day below it; and a
    day with two entries of 2000 ml, then a third of 500 ml. *)
Definition four_days : list WaterEntry :=
  [mkEntry 1 2000 "2024-03-04T09:00:00" (mkDate 2024 3 4);
   mkEntry 2 1200 "2024-03-05T09:00:00" (mkDate 2024 3 5);
   mkEntry 3 900 "2024-03-05T15:00:00" (mkDate 2024 3 5);
   mkEntry 4 2500 "2024-03-06T09:00:00" (mkDate 2024 3 6);
   mkEntry 5 700 "2024-03-07T09:00:00" (mkDate 2024 3 7)].

Definition two_glasses : list WaterEntry :=
  [mkEntry 1 2000 "2024-03-04T09:00:00" (mkDate 2024 3 4);
   mkEntry 2 2000 "2024-03-04T13:00:00" (mkDate 2024 3 4)].

Definition three_glasses : list WaterEntry :=
  two_glasses ++ [mkEntry 3 500 "2024-03-04T18:00:00" (mkDate 2024 3 4)].

Definition march (_ _ : Z) : string := "March".

Definition world_after (acts : list Action) : World :=
  match run acts fresh with Some w => w | None => fresh end.

(** Mounted, permission answered, data loaded, and the re-armed effect
    answered again: one reminder every 30 minutes. *)
Definition armed_script : list Action :=
  [ActMount; ActResume 0 (IsGranted true); ActLoad [];
   ActResume 0 (IsGranted true)].

Definition armed : World := world_after armed_script.

Definition faster : PartialSettings :=
  mkPartial None (Some 45) None None None None.

Definition reminders_off : PartialSettings :=
  mkPartial None None (Some false) None None None.

(** Both confirmations delivered; then the interval is changed to 45
    minutes and the re-arming goes through; then, before the new
    confirmation is due, reminders are switched off, or the component is
    torn down instead. *)
Definition calm : World :=
  world_after (armed_script ++ [ActFire 1 true; ActFire 3 true]).

Definition rearmed : World :=
  match run [ActSaveSettings (current_render calm) faster [];
             ActResume 0 (IsGranted true)] calm with
  | Some w => w
  | None => calm
  end.

Definition disarmed : World :=
  exec (handleSaveSettings (current_render rearmed) reminders_off) [] rearmed.

Definition torn_down : World := unmount rearmed.

Definition rearm_script : list Action :=
  armed_script
  ++ [ActFire 1 true; ActFire 3 true;
      ActSaveSettings (current_render calm) faster [];
      ActResume 0 (IsGranted true)].

Definition disarm_script : list Action :=
  rearm_script ++ [ActSaveSettings (current_render rearmed) reminders_off []].

(** The interval is changed and, while the permission query of the new
    attempt is still unanswered, reminders are switched off; the answer
    arrives afterwards. *)
Definition interrupted : World :=
  exec (handleSaveSettings (current_render calm) faster) [] calm.

Definition late_answer_script : list Action :=
  armed_script
  ++ [ActFire 1 true; ActFire 3 true;
      ActSaveSettings (current_render calm) faster [];
      ActSaveSettings (current_render interrupted) reminders_off [];
      ActResume 0 (IsGranted true)].

Definition late_answer : World := world_after late_answer_script.

(** What an observer sees when timer [h] fires in [w]. *)
Definition firing (h : nat) (w : World) : option (list Event) :=
  option_map (fun w' => skipn (List.length (trace w)) (trace w')) (fire h true w).

Definition louder : PartialSettings :=
  mkPartial (Some 2500) None None (Some false) None (Some "dark").

Definition toggle_on : PartialSettings :=
  mkPartial None None None None (Some true) None.

(** The user switches start-with-system on and the OS refuses; in the
    second run the reload's first read is refused as well. *)
Definition refused_toggle : World :=
  exec (handleSaveSettings (current_render armed) toggle_on) [true] armed.

Definition refused_toggle_failed_reload : World :=
  exec (handleSaveSettings (current_render armed) toggle_on)
       [true; false; true] armed.

Definition december : SelectedMonth := mkSel 2024 12.

End Sample.

(** ** What the Today tab derives from the stats *)

Inductive HealthStatus := fine | caution | danger.

Definition getHealthStatus (percentage : Q) : HealthStatus :=
  if Qle_bool 75 percentage then fine
  else if Qle_bool 40 percentage then caution
  else danger.

(** [stats ? getHealthStatus(stats.percentage) : 'danger'] *)
Definition healthStatus (s : option DailyStats) : HealthStatus :=
  match s with
  | Some s => getHealthStatus (percentage s)
  | None => danger
  end.

(** How good a status is, for comparing two of them. *)
Definition wellness (h : HealthStatus) : nat :=
  match h with
  | danger => 0
  | caution => 1
  | fine => 2
  end.

(** [stats ? Math.min(stats.percentage / 100, 1) : 0], and the dash offset
    of the ring for a given circumference ([2 * Math.PI * 88] in the
    source). Numbers are rationals here. *)
Definition progress (s : option DailyStats) : Q :=
  match s with
  | Some s => Qmin (percentage s / 100) 1
  | None => 0
  end.

Definition strokeDashoffset (circumference : Q) (s : option DailyStats) : Q :=
  circumference * (1 - progress s).

(** ** Vocabulary for the further properties *)

Definition is_reminder_notification (e : Event) : bool :=
  match e with
  | EvOs (sendNotification _ body) =>
      String.eqb body "Time to drink some water! Stay hydrated."
  | _ => false
  end.

Definition is_audio (e : Event) : bool :=
  match e with EvAudio _ => true | _ => false end.

Definition is_console_error (e : Event) : bool :=
  match e with EvConsoleError _ => true | _ => false end.

Definition is_reminder_cb (t : Timer) : bool :=
  match t_cb t with CbReminder _ => true | _ => false end.

Definition is_hide_achievement (t : Timer) : bool :=
  match t_cb t with CbHideAchievement => true | _ => false end.

(** The timer table is well formed: handles are positive, below the next
    one to be issued and pairwise distinct; exactly the reminder callbacks
    are recurring; and every pending achievement timeout is the one
    [achievementTimeout] points at. *)
Definition table_ok (r : Runtime) : Prop :=
  (forall t, In t (timers r) -> (0 < t_id t < next_timer r)%nat) /\
  NoDup (map t_id (timers r)) /\
  (forall t, In t (timers r) -> t_repeat t = is_reminder_cb t) /\
  (forall t, In t (timers r) -> is_hide_achievement t = true ->
     achievementTimeout r = Some (t_id t)) /\
  (0 < next_timer r)%nat.

Definition world_table_ok (w : World) : Prop := table_ok (rt w).

(** No timeout is pending that would hide the achievement banner. *)
Definition hide_free (w : World) : Prop :=
  forall t, In t (timers (rt w)) -> is_hide_achievement t = false.

(** The achievement test of [handleAddWater], and what it does when the
    test passes. *)
Definition crossed_goal (r : Render) (updatedStats : DailyStats) : bool :=
  negb (show (r_achievement r))
  && Qle_bool 100 (percentage updatedStats)
  && below_100 (r_stats r).

Definition celebrate (r : Render) (w : World) : World :=
  start_achievement_timeout
    (playSound SndAchievement (sound_enabled (r_settings r))
       (with_app (put_achievement (mkBanner achievement_message true)) w)).

(** The store as [get_today_stats] sees it. *)
Definition today_stats (w : World) : DailyStats :=
  StatsEngine.get_daily_stats (db_entries (env w))
    (daily_goal_ml (db_settings (env w))) (db_today (env w)).

Definition today_entries (w : World) : list WaterEntry :=
  StatsEngine.entries_on (db_today (env w)) (db_entries (env w)).

(** The stages of [handleAddWater] and [handleRemoveEntry] as world
    transformers: the store call issued, the [catch] block, the two reads
    of the add answered, and the steps after the reload. *)
Definition add_sent (r : Render) (amount : Z) (w : World) : World :=
  with_faults (tl (faults w))
    (emit (EvInvoke (add_water amount))
       (playSound SndAdd (sound_enabled (r_settings r)) w)).

Definition add_failed (r : Render) (w : World) : World :=
  playSound SndError (sound_enabled (r_settings r))
    (emit (EvConsoleError "Failed to add water:") w).

Definition reads_done (w : World) : World :=
  with_faults (tl (tl (faults w)))
    (emit (EvInvoke get_today_entries) (emit (EvInvoke get_today_stats) w)).

Definition add_finish (amount : Z) (w : World) : World :=
  with_app (put_customAmount "")
    (setTimeout_ CbHideToast 2000
       (with_app (put_toast (mkBanner ("Added " ++ show_Z amount ++ "ml")%string true)) w)).

Definition remove_sent (r : Render) (entry : Z) (w : World) : World :=
  with_faults (tl (faults w))
    (emit (EvInvoke (remove_entry entry))
       (playSound SndDelete (sound_enabled (r_settings r)) w)).

Definition remove_failed (r : Render) (w : World) : World :=
  playSound SndError (sound_enabled (r_settings r))
    (emit (EvConsoleError "Failed to remove entry:") w).

Definition audio_if (enabled : bool) (t : SoundType) : list Event :=
  if enabled then [EvAudio (soundFile t)] else [].

(** A handler that cannot throw. *)
Definition never_throws {A} (m : M A) : Prop :=
  forall w, exists a, fst (m w) = Ok a.

Fixpoint iterate {A} (n : nat) (f : A -> A) (a : A) : A :=
  match n with
  | O => a
  | S k => iterate k f (f a)
  end.

(** ** More sample values *)

Module More.

Definition over_goal : DailyStats :=
  mkDaily (mkDate 2024 3 4) 4500 4000 3 (225 # 2).

Definition january : SelectedMonth := mkSel 2025 1.

(** From [Sample.armed] (500 ml of 2000 on display), 1500 ml more: the goal
    is crossed and the banner goes up. *)
Definition celebrating_script : list Action :=
  Sample.armed_script ++ [ActAddWater (current_render Sample.armed) 1500 []].

Definition celebrating : World := Sample.world_after celebrating_script.

Definition dark : PartialSettings :=
  mkPartial None None None None None (Some "dark").







End More.

(** * Properties *)

(** ** Month navigation *)

(** C9. From a month in 1..12, [navigateMonth] lands on a month in 1..12
    for any direction; +1 from December gives January of the next year,
    -1 from January gives December of the previous year, any other step
    changes the month alone; forward then back is the identity. *)
Theorem navigateMonth_wraps : forall prev : SelectedMonth,
  1 <= month prev <= 12 ->
  (forall d, 1 <= month (navigateMonth d prev) <= 12) /\
  (month prev = 12 -> navigateMonth 1 prev = mkSel (year prev + 1) 1) /\
  (month prev = 1 -> navigateMonth (-1) prev = mkSel (year prev - 1) 12) /\
  (forall d, 1 <= month prev + d <= 12 ->
     navigateMonth d prev = mkSel (year prev) (month prev + d)) /\
  navigateMonth (-1) (navigateMonth 1 prev) = prev.
Proof.
  intros [y m] Hm; cbn [month year] in *.
  repeat split.
  - unfold navigateMonth; cbn [month year].
    destruct (12 <? m + d) eqn:Hhi; cbn [month]; [lia|].
    destruct (m + d <? 1) eqn:Hlo; cbn [month]; lia.
  - unfold navigateMonth; cbn [month year].
    destruct (12 <? m + d) eqn:Hhi; cbn [month]; [lia|].
    destruct (m + d <? 1) eqn:Hlo; cbn [month]; lia.
  - intros ->; reflexivity.
  - intros ->; reflexivity.
  - intros d Hd. unfold navigateMonth; cbn [month year].
    destruct (12 <? m + d) eqn:Hhi; [lia|].
    destruct (m + d <? 1) eqn:Hlo; [lia|]. reflexivity.
  - unfold navigateMonth at 2; cbn [month year].
    destruct (12 <? m + 1) eqn:Hhi.
    + assert (m = 12) by lia; subst. cbn. f_equal; lia.
    + destruct (m + 1 <? 1) eqn:Hlo; [lia|].
      unfold navigateMonth; cbn [month year].
      destruct (12 <? m + 1 + -1) eqn:H1; [lia|].
      destruct (m + 1 + -1 <? 1) eqn:H2; [lia|].
      f_equal; lia.
Qed.

Lemma navigateMonth_wraps_witness :
  1 <= month Sample.december <= 12 /\
  navigateMonth (-1) (navigateMonth 1 Sample.december) = Sample.december.
Proof.
  split.
  - cbn; lia.
  - apply (navigateMonth_wraps Sample.december). cbn; lia.
Defined.

(** ** Statistics engine *)

Module StatsFacts.
Import StatsEngine.

Lemma date_eqb_in_month : forall y m n d,
  date_eqb d (mkDate y m n) = true -> in_month y m d = true.
Proof.
  intros y m n d H. unfold date_eqb in H; cbn in H.
  apply andb_true_iff in H as [H _].
  exact H.
Qed.

Lemma has_entry_outside_month : forall es y m n,
  (forall e, In e es -> in_month y m (date e) = false) ->
  has_entry (mkDate y m n) es = false.
Proof.
  intros es y m n Hout. unfold has_entry.
  destruct (existsb _ es) eqn:E; [|reflexivity].
  apply existsb_exists in E as [e [Hin Heq]].
  apply date_eqb_in_month in Heq.
  rewrite (Hout e Hin) in Heq. discriminate.
Qed.

Lemma flat_map_all_nil : forall {A B} (f : A -> list B) (l : list A),
  (forall a, In a l -> f a = []) -> flat_map f l = [].
Proof.
  induction l as [|a l IH]; intros H; cbn; [reflexivity|].
  rewrite (H a (or_introl eq_refl)), IH; [reflexivity|].
  intros b Hb; apply H; right; exact Hb.
Qed.

Lemma month_days_empty : forall es goal y m,
  (forall e, In e es -> in_month y m (date e) = false) ->
  month_days es goal y m = [].
Proof.
  intros es goal y m Hout. unfold month_days.
  apply flat_map_all_nil. intros n _. cbn.
  rewrite (has_entry_outside_month es y m (Z.of_nat n) Hout). reflexivity.
Qed.

(** The engine on the spec's own examples. *)
Example streaks_of_four_days :
  let ms := get_monthly_stats Sample.march Sample.four_days 2000 2024 3 in
  List.length (days ms) = 4%nat /\ ms_total_ml ms = 7300 /\
  days_goal_met ms = 3 /\ current_streak ms = 0 /\ best_streak ms = 3 /\
  (average_ml ms == 1825)%Q.
Proof. vm_compute. repeat split; reflexivity. Qed.

Example stats_of_two_then_three_glasses :
  let d := mkDate 2024 3 4 in
  let two := get_daily_stats Sample.two_glasses 4000 d in
  let three := get_daily_stats Sample.three_glasses 4000 d in
  total_ml two = 4000 /\ entries_count two = 2 /\ (percentage two == 100)%Q /\
  total_ml three = 4500 /\ entries_count three = 3 /\
  (percentage three == 225 # 2)%Q.
Proof. vm_compute. repeat split; reflexivity. Qed.

End StatsFacts.

(** C8. For a month in which the store holds no entry, the monthly stats
    have no days, total 0, average 0 (the division is never reached),
    no day meeting the goal, and both streaks 0. *)
Theorem get_monthly_stats_empty_month :
  forall (month_label : Z -> Z -> string) (es : list WaterEntry) (goal y m : Z),
  (forall e, In e es -> StatsEngine.in_month y m (date e) = false) ->
  StatsEngine.get_monthly_stats month_label es goal y m =
    {| ms_month := month_label y m;
       ms_year := y;
       days := [];
       ms_total_ml := 0;
       average_ml := 0%Q;
       days_goal_met := 0;
       current_streak := 0;
       best_streak := 0 |}.
Proof.
  intros label es goal y m Hout.
  unfold StatsEngine.get_monthly_stats.
  rewrite (StatsFacts.month_days_empty es goal y m Hout).
  reflexivity.
Qed.

Lemma get_monthly_stats_empty_month_witness :
  (forall e, In e (db_entries Sample.store) ->
     StatsEngine.in_month 2024 6 (date e) = false) /\
  days (StatsEngine.get_monthly_stats (fun _ _ => "June")
          (db_entries Sample.store) 2000 2024 6) = [].
Proof.
  assert (H : forall e, In e (db_entries Sample.store) ->
                StatsEngine.in_month 2024 6 (date e) = false).
  { intros e [<-|[]]. reflexivity. }
  split; [exact H|].
  rewrite (get_monthly_stats_empty_month (fun _ _ => "June") _ 2000 2024 6 H).
  reflexivity.
Defined.

(** ** What a commit can and cannot touch *)

Ltac break_match :=
  match goal with
  | |- context [match ?x with _ => _ end] => destruct x eqn:?
  | |- context [if ?x then _ else _] => destruct x eqn:?
  end.

Ltac unfold_effect :=
  unfold setSettings, commit, run_effect, cleanup, setupReminder,
         clear_reminder_ref, enqueue.

Ltac unfold_handler :=
  unfold exec, loadData, handleSaveSettings, handleAddWater, handleRemoveEntry,
    showToast, console_error, promise_all3, promise_all2,
    invoke_get_today_stats, invoke_get_today_entries, invoke_get_settings,
    invoke_save_settings, invoke_add_water, invoke_remove_entry,
    os_isAutostartEnabled, os_enableAutostart, os_disableAutostart,
    external, try_catch, bind, settle, await, act, ret.

Lemma commit_app : forall w, app (commit w) = app w.
Proof. intros w. unfold_effect. repeat break_match; reflexivity. Qed.

Lemma commit_env : forall w, env (commit w) = env w.
Proof. intros w. unfold_effect. repeat break_match; reflexivity. Qed.

Lemma commit_faults : forall w, faults (commit w) = faults w.
Proof. intros w. unfold_effect. repeat break_match; reflexivity. Qed.

(** The only event a commit can add is the effect's permission query. *)
Lemma commit_trace : forall w,
  trace (commit w) = trace w \/
  trace (commit w) = trace w ++ [EvOs isPermissionGranted].
Proof.
  intros w. unfold_effect.
  repeat break_match; cbn; auto.
Qed.

Lemma setSettings_app : forall s w,
  app (setSettings s w) = put_settings s (app w).
Proof. intros s w. unfold setSettings. rewrite commit_app. reflexivity. Qed.

Lemma setSettings_env : forall s w, env (setSettings s w) = env w.
Proof. intros s w. unfold setSettings. rewrite commit_env. reflexivity. Qed.

Lemma setSettings_faults : forall s w, faults (setSettings s w) = faults w.
Proof. intros s w. unfold setSettings. rewrite commit_faults. reflexivity. Qed.

Lemma setSettings_trace : forall s w,
  trace (setSettings s w) = trace w \/
  trace (setSettings s w) = trace w ++ [EvOs isPermissionGranted].
Proof. intros s w. unfold setSettings. apply (commit_trace (with_app (put_settings s) w)). Qed.

Lemma set_start_with_system_same : forall s,
  set_start_with_system (start_with_system s) s = s.
Proof. intros []; reflexivity. Qed.

(** ** Loading *)

(** C7. When any of the three store reads of a load is rejected, the load
    returns normally after logging the failure: the component state, the
    refs, timers and document attribute, and the store are all exactly as
    before, and nothing but the three reads was attempted. *)
Theorem loadData_read_failure : forall (fs : list bool) (w : World),
  existsb (fun rejected => rejected) (firstn 3 fs) = true ->
  fst (loadData (with_faults fs w)) = Ok tt /\
  memory_view (exec loadData fs w) = memory_view w /\
  app (exec loadData fs w) = app w /\
  rt (exec loadData fs w) = rt w /\
  env (exec loadData fs w) = env w /\
  trace (exec loadData fs w) =
    trace w ++ [EvInvoke get_today_stats; EvInvoke get_today_entries;
                EvInvoke get_settings; EvConsoleError "Failed to load data:"].
Proof.
  intros fs w H. unfold exec, memory_view.
  destruct fs as [|[|] [|[|] [|[|] fs]]]; cbn in H; try discriminate H;
    cbn; rewrite <- ?app_assoc; cbn; repeat split; reflexivity.
Qed.

Lemma loadData_read_failure_witness :
  existsb (fun rejected => rejected) (firstn 3 [false; true]) = true /\
  memory_view (exec loadData [false; true] Sample.armed) = memory_view Sample.armed.
Proof.
  split; [reflexivity|].
  apply (loadData_read_failure [false; true] Sample.armed). reflexivity.
Defined.

(** *** Projections through the field updates *)

Lemma app_with_app f w : app (with_app f w) = f (app w). Proof. reflexivity. Qed.
Lemma app_with_rt f w : app (with_rt f w) = app w. Proof. reflexivity. Qed.
Lemma app_with_env f w : app (with_env f w) = app w. Proof. reflexivity. Qed.
Lemma app_emit e w : app (emit e w) = app w. Proof. reflexivity. Qed.
Lemma app_with_faults fs w : app (with_faults fs w) = app w. Proof. reflexivity. Qed.
Lemma rt_with_app f w : rt (with_app f w) = rt w. Proof. reflexivity. Qed.
Lemma rt_with_rt f w : rt (with_rt f w) = f (rt w). Proof. reflexivity. Qed.
Lemma rt_with_env f w : rt (with_env f w) = rt w. Proof. reflexivity. Qed.
Lemma rt_emit e w : rt (emit e w) = rt w. Proof. reflexivity. Qed.
Lemma rt_with_faults fs w : rt (with_faults fs w) = rt w. Proof. reflexivity. Qed.
Lemma env_with_app f w : env (with_app f w) = env w. Proof. reflexivity. Qed.
Lemma env_with_rt f w : env (with_rt f w) = env w. Proof. reflexivity. Qed.
Lemma env_with_env f w : env (with_env f w) = f (env w). Proof. reflexivity. Qed.
Lemma env_emit e w : env (emit e w) = env w. Proof. reflexivity. Qed.
Lemma env_with_faults fs w : env (with_faults fs w) = env w. Proof. reflexivity. Qed.
Lemma trace_with_app f w : trace (with_app f w) = trace w. Proof. reflexivity. Qed.
Lemma trace_with_rt f w : trace (with_rt f w) = trace w. Proof. reflexivity. Qed.
Lemma trace_with_env f w : trace (with_env f w) = trace w. Proof. reflexivity. Qed.
Lemma trace_emit e w : trace (emit e w) = trace w ++ [e]. Proof. reflexivity. Qed.
Lemma trace_with_faults fs w : trace (with_faults fs w) = trace w. Proof. reflexivity. Qed.
Lemma faults_with_app f w : faults (with_app f w) = faults w. Proof. reflexivity. Qed.
Lemma faults_with_rt f w : faults (with_rt f w) = faults w. Proof. reflexivity. Qed.
Lemma faults_with_env f w : faults (with_env f w) = faults w. Proof. reflexivity. Qed.
Lemma faults_emit e w : faults (emit e w) = faults w. Proof. reflexivity. Qed.
Lemma faults_with_faults fs w : faults (with_faults fs w) = fs. Proof. reflexivity. Qed.

Lemma playSound_app t b w : app (playSound t b w) = app w.
Proof. destruct b; reflexivity. Qed.
Lemma playSound_rt t b w : rt (playSound t b w) = rt w.
Proof. destruct b; reflexivity. Qed.
Lemma playSound_env t b w : env (playSound t b w) = env w.
Proof. destruct b; reflexivity. Qed.
Lemma playSound_faults t b w : faults (playSound t b w) = faults w.
Proof. destruct b; reflexivity. Qed.

Create Rewrite HintDb world.

#[local] Hint Rewrite
  app_with_app app_with_rt app_with_env app_emit app_with_faults
  rt_with_app rt_with_rt rt_with_env rt_emit rt_with_faults
  env_with_app env_with_rt env_with_env env_emit env_with_faults
  trace_with_app trace_with_rt trace_with_env trace_emit trace_with_faults
  faults_with_app faults_with_rt faults_with_env faults_emit faults_with_faults
  setSettings_app setSettings_env setSettings_faults
  playSound_app playSound_rt playSound_env playSound_faults : world.

Opaque setSettings StatsEngine.get_daily_stats StatsEngine.entries_on.

(** *** The runs of a load whose reads and query succeed *)

Lemma loadData_agree : forall fs w,
  forallb negb (firstn 4 fs) = true ->
  Bool.eqb (start_with_system (db_settings (env w))) (os_autostart (env w)) = true ->
  loadData (with_faults fs w) =
    (Ok tt, finish_load (db_settings (env w)) (with_faults (skipn 4 fs) (probed w))).
Proof.
  intros fs w H E.
  destruct fs as [|[|] [|[|] [|[|] [|[|] fs]]]]; cbn in H;
    try discriminate H; clear H.
  all: unfold_handler; cbn; rewrite E; reflexivity.
Qed.

Lemma loadData_patch_saved : forall fs w,
  forallb negb (firstn 4 fs) = true ->
  nth 4 fs false = false ->
  Bool.eqb (start_with_system (db_settings (env w))) (os_autostart (env w)) = false ->
  loadData (with_faults fs w) =
    (Ok tt,
     finish_load (reconciled w)
       (with_env (put_db_settings (reconciled w))
          (with_faults (skipn 5 fs)
             (emit (EvInvoke (save_settings (reconciled w))) (probed w))))).
Proof.
  intros fs w H F E.
  destruct fs as [|[|] [|[|] [|[|] [|[|] [|[|] fs]]]]]; cbn in H, F;
    try discriminate H; try discriminate F; clear H F.
  all: unfold_handler; cbn; rewrite E; reflexivity.
Qed.

Lemma loadData_patch_rejected : forall fs w,
  forallb negb (firstn 4 fs) = true ->
  nth 4 fs false = true ->
  Bool.eqb (start_with_system (db_settings (env w))) (os_autostart (env w)) = false ->
  loadData (with_faults fs w) =
    (Ok tt,
     finish_load (reconciled w)
       (emit (EvConsoleError "Failed to check autostart status:")
          (with_faults (skipn 5 fs)
             (emit (EvInvoke (save_settings (reconciled w))) (probed w))))).
Proof.
  intros fs w H F E.
  destruct fs as [|[|] [|[|] [|[|] [|[|] [|[|] fs]]]]]; cbn in H, F;
    try discriminate H; try discriminate F; clear H F.
  unfold_handler; cbn; rewrite E; reflexivity.
Qed.

Lemma finish_load_env s w : env (finish_load s w) = env w.
Proof. unfold finish_load. autorewrite with world. reflexivity. Qed.

Lemma finish_load_app s w : app (finish_load s w) = put_settings s (app w).
Proof. unfold finish_load. autorewrite with world. reflexivity. Qed.

Lemma finish_load_faults s w : faults (finish_load s w) = faults w.
Proof. unfold finish_load. autorewrite with world. reflexivity. Qed.

Lemma finish_load_trace s w :
  trace (finish_load s w) = trace w \/
  trace (finish_load s w) = trace w ++ [EvOs isPermissionGranted].
Proof. unfold finish_load. rewrite trace_with_rt. apply setSettings_trace. Qed.

Lemma probed_env w : env (probed w) = env w.
Proof. reflexivity. Qed.

Lemma probed_trace w :
  trace (probed w) =
    trace w ++ [EvInvoke get_today_stats; EvInvoke get_today_entries;
                EvInvoke get_settings; EvOs isAutostartEnabled].
Proof. unfold probed. autorewrite with world. rewrite <- !app_assoc. reflexivity. Qed.

#[local] Hint Rewrite finish_load_env finish_load_app finish_load_faults
  probed_env probed_trace : world.

Ltac split_goal :=
  repeat match goal with
  | |- _ /\ _ => split
  | |- _ -> _ => intro
  end.

Ltac split_load_trace :=
  match goal with
  | |- context [trace (finish_load ?s ?W)] =>
      let Ht := fresh "Ht" in
      destruct (finish_load_trace s W) as [Ht|Ht]; rewrite Ht; clear Ht
  end.

Ltac flatten_trace :=
  autorewrite with world; rewrite <- ?app_assoc; cbn [List.app].

Lemma eqb_false_neq : forall a b : bool, Bool.eqb a b = false -> a <> b.
Proof. intros [] []; cbn; congruence. Qed.

(** C2. A load whose three reads and autostart query succeed never changes
    the OS registration and leaves the in-memory flag equal to it. When
    the persisted flag already agrees, the store is not written. When it
    differs, the corrected record is sent to [save_settings] right after
    the query, exactly once, and is what the store holds once that write
    is accepted. In particular persisted true against OS disabled ends
    with both false. *)
Theorem loadData_reconciles_autostart : forall (fs : list bool) (w : World),
  forallb negb (firstn 4 fs) = true ->
  let w' := exec loadData fs w in
  let persisted := db_settings (env w) in
  let actual := os_autostart (env w) in
  os_autostart (env w') = actual /\
  settings (app w') = set_start_with_system actual persisted /\
  (start_with_system persisted = actual ->
     env w' = env w /\
     count_event is_save_settings w' = count_event is_save_settings w) /\
  (start_with_system persisted <> actual ->
     (exists rest,
        trace w' =
          trace w ++ [EvInvoke get_today_stats; EvInvoke get_today_entries;
                      EvInvoke get_settings; EvOs isAutostartEnabled;
                      EvInvoke (save_settings (set_start_with_system actual persisted))]
                  ++ rest /\
        filter is_save_settings rest = []) /\
     (nth 4 fs false = false ->
        db_settings (env w') = set_start_with_system actual persisted)) /\
  (start_with_system persisted = true -> actual = false ->
   nth 4 fs false = false ->
     start_with_system (db_settings (env w')) = false /\
     os_autostart (env w') = false).
Proof.
  intros fs w H. cbv zeta. unfold exec.
  destruct (Bool.eqb (start_with_system (db_settings (env w)))
                     (os_autostart (env w))) eqn:E.
  - rewrite (loadData_agree fs w H E); cbn [snd].
    apply eqb_prop in E. unfold count_event.
    split_load_trace; flatten_trace; rewrite ?filter_app; cbn [filter is_save_settings];
      rewrite ?app_nil_r.
    all: split_goal; try reflexivity; try congruence; try contradiction.
    all: rewrite <- E; symmetry; apply set_start_with_system_same.
  - pose proof (eqb_false_neq _ _ E) as NE.
    destruct (nth 4 fs false) eqn:F.
    + rewrite (loadData_patch_rejected fs w H F E); cbn [snd]. unfold reconciled.
      split_load_trace; flatten_trace.
      all: split_goal; try reflexivity; try congruence; try contradiction.
      all: try (cbn; congruence).
      all: eexists; split; reflexivity.
    + rewrite (loadData_patch_saved fs w H F E); cbn [snd]. unfold reconciled.
      split_load_trace; flatten_trace.
      all: split_goal; try reflexivity; try congruence; try contradiction.
      all: try (cbn; congruence).
      all: eexists; split; reflexivity.
Qed.

Lemma loadData_reconciles_autostart_witness :
  forallb negb (firstn 4 []) = true /\
  start_with_system (db_settings (env (exec loadData [] Sample.fresh))) = false /\
  os_autostart (env (exec loadData [] Sample.fresh)) = false.
Proof.
  split; [reflexivity|].
  pose proof (loadData_reconciles_autostart [] Sample.fresh eq_refl) as H.
  cbv zeta in H. destruct H as (_ & _ & _ & _ & H).
  apply H; reflexivity.
Defined.

(** ** Rules for handler invariants *)

Section HoareRules.

Variable I : World -> Prop.

Lemma hoare_ret : forall {A} (a : A) (V : A -> Prop),
  V a -> hoare I (ret a) V.
Proof.
  intros A a V Ha w Hw. cbn. split; [exact Hw|].
  intros a' [= <-]. exact Ha.
Qed.

Lemma hoare_bind : forall {A B} (m : M A) (k : A -> M B) (V1 : A -> Prop) (V2 : B -> Prop),
  hoare I m V1 ->
  (forall a, V1 a -> hoare I (k a) V2) ->
  hoare I (bind m k) V2.
Proof.
  intros A B m k V1 V2 Hm Hk w Hw. unfold bind.
  destruct (Hm w Hw) as [Hw1 Hv].
  destruct (m w) as [[a|e] w1]; cbn in *.
  - apply Hk; [apply Hv; reflexivity | exact Hw1].
  - split; [exact Hw1 | discriminate].
Qed.

Lemma hoare_try_catch : forall {A} (m : M A) (h : string -> M A) (V : A -> Prop),
  hoare I m V ->
  (forall e, hoare I (h e) V) ->
  hoare I (try_catch m h) V.
Proof.
  intros A m h V Hm Hh w Hw. unfold try_catch.
  destruct (Hm w Hw) as [Hw1 Hv].
  destruct (m w) as [[a|e] w1]; cbn in *.
  - split; [exact Hw1 | exact Hv].
  - apply Hh. exact Hw1.
Qed.

Lemma hoare_settle : forall {A} (m : M A) (V : A -> Prop),
  hoare I m V -> hoare I (settle m) (settled V).
Proof.
  intros A m V Hm w Hw. unfold settle.
  destruct (Hm w Hw) as [Hw1 Hv].
  destruct (m w) as [r w1]; cbn in *.
  split; [exact Hw1|].
  intros r' [= <-]. destruct r; cbn; [apply Hv; reflexivity | exact Logic.I].
Qed.

Lemma hoare_await : forall {A} (r : Result A) (V : A -> Prop),
  settled V r -> hoare I (await r) V.
Proof.
  intros A r V Hr w Hw. cbn. split; [exact Hw|].
  intros a ->. exact Hr.
Qed.

Lemma hoare_act : forall (f : World -> World),
  (forall w, I w -> I (f w)) -> hoare I (act f) anything.
Proof.
  intros f Hf w Hw. cbn. split; [apply Hf; exact Hw|].
  intros; exact Logic.I.
Qed.

Lemma hoare_read : forall {A} (f : World -> A) (V : A -> Prop),
  (forall w, I w -> V (f w)) -> hoare I (fun w => (Ok (f w), w)) V.
Proof.
  intros A f V Hf w Hw. cbn. split; [exact Hw|].
  intros a [= <-]. apply Hf; exact Hw.
Qed.

Lemma hoare_external : forall {A} (ev : Event) (body : M A) (V : A -> Prop),
  (forall w, I w -> I (emit ev w)) ->
  (forall fs w, I w -> I (with_faults fs w)) ->
  hoare I body V ->
  hoare I (external ev body) V.
Proof.
  intros A ev body V Hemit Hfaults Hbody w Hw. unfold external.
  destruct (faults (emit ev w)) as [|[|] fs].
  - apply Hbody, Hemit, Hw.
  - cbn. split; [apply Hfaults, Hemit, Hw | discriminate].
  - apply Hbody, Hfaults, Hemit, Hw.
Qed.

Lemma hoare_weaken : forall {A} (m : M A) (V V' : A -> Prop),
  (forall a, V a -> V' a) -> hoare I m V -> hoare I m V'.
Proof.
  intros A m V V' HV Hm w Hw. destruct (Hm w Hw) as [Hw1 Hv].
  split; [exact Hw1|]. intros a Ha. apply HV, Hv, Ha.
Qed.

Lemma hoare_promise_all2 : forall {A B} (a : M A) (b : M B) Va Vb,
  hoare I a Va -> hoare I b Vb ->
  hoare I (promise_all2 a b) (fun r => Va (fst r) /\ Vb (snd r)).
Proof.
  intros A B a b Va Vb Ha Hb. unfold promise_all2.
  eapply hoare_bind; [apply hoare_settle, Ha|]; intros ra Hra.
  eapply hoare_bind; [apply hoare_settle, Hb|]; intros rb Hrb.
  eapply hoare_bind; [apply hoare_await, Hra|]; intros x Hx.
  eapply hoare_bind; [apply hoare_await, Hrb|]; intros y Hy.
  apply hoare_ret. cbn. auto.
Qed.

Lemma hoare_promise_all3 : forall {A B C} (a : M A) (b : M B) (c : M C) Va Vb Vc,
  hoare I a Va -> hoare I b Vb -> hoare I c Vc ->
  hoare I (promise_all3 a b c)
    (fun r => Va (fst (fst r)) /\ Vb (snd (fst r)) /\ Vc (snd r)).
Proof.
  intros A B C a b c Va Vb Vc Ha Hb Hc. unfold promise_all3.
  eapply hoare_bind; [apply hoare_settle, Ha|]; intros ra Hra.
  eapply hoare_bind; [apply hoare_settle, Hb|]; intros rb Hrb.
  eapply hoare_bind; [apply hoare_settle, Hc|]; intros rc Hrc.
  eapply hoare_bind; [apply hoare_await, Hra|]; intros x Hx.
  eapply hoare_bind; [apply hoare_await, Hrb|]; intros y Hy.
  eapply hoare_bind; [apply hoare_await, Hrc|]; intros z Hz.
  apply hoare_ret. cbn. auto.
Qed.

(** What an invariant must tolerate for every handler built from the
    store's reads, [save_settings] and [setSettings] to keep it. [G] is
    what is known of any settings record that travels through them. *)
Variable G : Settings -> Prop.

Hypothesis I_faults : forall fs w, I w -> I (with_faults fs w).
Hypothesis I_stats : forall v w, I w -> I (with_app (put_stats v) w).
Hypothesis I_entries : forall v w, I w -> I (with_app (put_entries v) w).
Hypothesis I_emit : forall e w, is_add_water e = false -> I w -> I (emit e w).
Hypothesis I_save : forall s w, G s -> I w -> I (with_env (put_db_settings s) w).
Hypothesis I_setSettings : forall s w, G s -> I w -> I (setSettings s w).
Hypothesis I_theme : forall t w, I w -> I (with_rt (put_data_theme t) w).
Hypothesis I_persisted : forall w, I w -> G (db_settings (env w)).
Hypothesis G_patch : forall b s, G s -> G (set_start_with_system b s).

Lemma hoare_console_error : forall msg, hoare I (console_error msg) anything.
Proof. intros msg. apply hoare_act. intros w; apply I_emit; reflexivity. Qed.

Lemma hoare_save_settings : forall s, G s -> hoare I (invoke_save_settings s) anything.
Proof.
  intros s Hs. apply hoare_external; [intros w; apply I_emit; reflexivity | exact I_faults |].
  apply hoare_act. intros w; apply I_save; exact Hs.
Qed.

Lemma hoare_playSound : forall t b, hoare I (act (playSound t b)) anything.
Proof.
  intros t b. apply hoare_act. intros w Hw. destruct b; cbn; [|exact Hw].
  apply I_emit; [reflexivity | exact Hw].
Qed.

Lemma hoare_loadData : hoare I loadData anything.
Proof.
  unfold loadData.
  apply hoare_try_catch; [|intros e; apply hoare_console_error].
  eapply hoare_bind.
  { apply (hoare_promise_all3 _ _ _ anything anything G).
    - apply hoare_external; [intros w; apply I_emit; reflexivity | exact I_faults |].
      apply hoare_read. intros; exact Logic.I.
    - apply hoare_external; [intros w; apply I_emit; reflexivity | exact I_faults |].
      apply hoare_read. intros; exact Logic.I.
    - apply hoare_external; [intros w; apply I_emit; reflexivity | exact I_faults |].
      apply hoare_read. exact I_persisted. }
  intros [[todayStats todayEntries] savedSettings] (_ & _ & Hsaved); cbn in Hsaved.
  eapply hoare_bind; [apply hoare_act; intros w; apply I_stats|]; intros _ _.
  eapply hoare_bind; [apply hoare_act; intros w; apply I_entries|]; intros _ _.
  eapply hoare_bind.
  { apply hoare_settle.
    apply (hoare_external (EvOs isAutostartEnabled) _ anything);
      [intros w; apply I_emit; reflexivity | exact I_faults |].
    apply hoare_read. intros; exact Logic.I. }
  intros probe _.
  eapply (hoare_bind _ _ G).
  { destruct probe as [autostartEnabled|e].
    - destruct (negb (Bool.eqb (start_with_system savedSettings) autostartEnabled)).
      + eapply hoare_bind.
        * apply hoare_try_catch; [|intros e; apply hoare_console_error].
          apply hoare_save_settings, G_patch, Hsaved.
        * intros _ _. apply hoare_ret, G_patch, Hsaved.
      + apply hoare_ret, Hsaved.
    - eapply hoare_bind; [apply hoare_console_error|].
      intros _ _. apply hoare_ret, Hsaved. }
  intros s Hs.
  eapply hoare_bind; [apply hoare_act; intros w; apply I_setSettings, Hs|]; intros _ _.
  apply hoare_act. intros w; apply I_theme.
Qed.

(** What the remaining handlers ask of an invariant on top of that. *)
Hypothesis I_app : forall f w, I w -> I (with_app f w).
Hypothesis I_emit_add : forall amount w,
  0 < amount -> I w -> I (emit (EvInvoke (add_water amount)) w).
Hypothesis I_store_entry : forall amount w,
  0 < amount -> I w -> I (store_entry amount w).
Hypothesis I_delete_entry : forall entry w, I w -> I (delete_entry entry w).
Hypothesis I_autostart : forall b w, I w -> I (with_env (put_os_autostart b) w).
Hypothesis I_setTimeout : forall ms w, I w -> I (setTimeout_ CbHideToast ms w).
Hypothesis I_achievement : forall w, I w -> I (start_achievement_timeout w).

Lemma hoare_showToast : forall msg, hoare I (showToast msg) anything.
Proof.
  intros msg. unfold showToast.
  eapply hoare_bind; [apply hoare_act; intros w; apply I_app|]; intros _ _.
  apply hoare_act. intros w; apply I_setTimeout.
Qed.

Lemma hoare_today : hoare I (promise_all2 invoke_get_today_stats invoke_get_today_entries) anything.
Proof.
  eapply hoare_weaken; [|apply (hoare_promise_all2 _ _ anything anything)].
  - intros; exact Logic.I.
  - apply hoare_external; [intros w; apply I_emit; reflexivity | exact I_faults |].
    apply hoare_read. intros; exact Logic.I.
  - apply hoare_external; [intros w; apply I_emit; reflexivity | exact I_faults |].
    apply hoare_read. intros; exact Logic.I.
Qed.

Lemma hoare_handleAddWater : forall r amount,
  hoare I (handleAddWater r amount) anything.
Proof.
  intros r amount. unfold handleAddWater.
  destruct (amount <=? 0) eqn:Hamount; [apply hoare_playSound|].
  apply Z.leb_gt in Hamount.
  apply hoare_try_catch.
  - eapply hoare_bind; [apply hoare_playSound|]; intros _ _.
    eapply hoare_bind.
    { unfold invoke_add_water.
      apply (hoare_external _ _ anything);
        [intros w; apply I_emit_add, Hamount | exact I_faults |].
      intros w Hw. destruct (amount <=? 0); cbn.
      - split; [exact Hw | discriminate].
      - split; [apply I_store_entry; assumption | intros; exact Logic.I]. }
    intros _ _.
    eapply hoare_bind; [apply hoare_today|]; intros updated _.
    eapply hoare_bind.
    { instantiate (1 := anything).
      destruct (negb (show (r_achievement r))
                && Qle_bool 100 (percentage (fst updated))
                && below_100 (r_stats r)).
      - eapply hoare_bind; [apply hoare_act; intros w; apply I_app|]; intros _ _.
        eapply hoare_bind; [apply hoare_playSound|]; intros _ _.
        apply hoare_act, I_achievement.
      - apply hoare_ret; exact Logic.I. }
    intros _ _.
    eapply hoare_bind; [apply hoare_loadData|]; intros _ _.
    eapply hoare_bind; [apply hoare_showToast|]; intros _ _.
    apply hoare_act. intros w; apply I_app.
  - intros e.
    eapply hoare_bind; [apply hoare_console_error|]; intros _ _.
    apply hoare_playSound.
Qed.

Lemma hoare_handleRemoveEntry : forall r entry,
  hoare I (handleRemoveEntry r entry) anything.
Proof.
  intros r entry. unfold handleRemoveEntry.
  apply hoare_try_catch.
  - eapply hoare_bind; [apply hoare_playSound|]; intros _ _.
    eapply hoare_bind.
    { apply (hoare_external _ _ anything);
        [intros w; apply I_emit; reflexivity | exact I_faults |].
      apply hoare_act, I_delete_entry. }
    intros _ _. apply hoare_loadData.
  - intros e.
    eapply hoare_bind; [apply hoare_console_error|]; intros _ _.
    apply hoare_playSound.
Qed.

Lemma hoare_handleSaveSettings : forall r p,
  G (spread (r_settings r) p) ->
  hoare I (handleSaveSettings r p) anything.
Proof.
  intros r p Hupdated. unfold handleSaveSettings.
  eapply hoare_bind; [apply hoare_act; intros w; apply I_setSettings, Hupdated|];
    intros _ _.
  eapply hoare_bind.
  { instantiate (1 := anything).
    destruct (p_theme p) as [t|]; [|apply hoare_ret; exact Logic.I].
    destruct (nonempty t); [|apply hoare_ret; exact Logic.I].
    apply hoare_act. intros w; apply I_theme. }
  intros _ _.
  eapply hoare_bind.
  { instantiate (1 := anything).
    destruct (p_start_with_system p) as [b|]; [|apply hoare_ret; exact Logic.I].
    apply hoare_try_catch.
    - destruct b.
      + apply (hoare_external _ _ anything);
          [intros w; apply I_emit; reflexivity | exact I_faults |].
        apply hoare_act. intros w; apply I_autostart.
      + apply (hoare_external _ _ anything);
          [intros w; apply I_emit; reflexivity | exact I_faults |].
        apply hoare_act. intros w; apply I_autostart.
    - intros e.
      eapply hoare_bind; [apply hoare_console_error|]; intros _ _.
      apply hoare_showToast. }
  intros _ _.
  apply hoare_try_catch; [|intros e; apply hoare_console_error].
  eapply hoare_bind; [apply hoare_save_settings, Hupdated|]; intros _ _.
  apply hoare_loadData.
Qed.

End HoareRules.

(** ** Adding water *)

Lemma positive_store_emit : forall e w,
  is_add_water e = false -> positive_store w -> positive_store (emit e w).
Proof.
  intros e w He [Hdb Htr]. split; [exact Hdb|].
  intros a Ha. rewrite trace_emit in Ha. apply in_app_or in Ha as [Ha|[Ha|[]]].
  - apply Htr, Ha.
  - subst e. discriminate He.
Qed.

Lemma positive_store_setSettings : forall s w,
  positive_store w -> positive_store (setSettings s w).
Proof.
  intros s w [Hdb Htr]. unfold positive_store.
  rewrite setSettings_env. split; [exact Hdb|].
  intros a Ha.
  destruct (setSettings_trace s w) as [Ht|Ht]; rewrite Ht in Ha.
  - apply Htr, Ha.
  - apply in_app_or in Ha as [Ha|[Ha|[]]]; [apply Htr, Ha | discriminate Ha].
Qed.

Lemma positive_store_start_achievement : forall w,
  positive_store w -> positive_store (start_achievement_timeout w).
Proof.
  intros w H. unfold start_achievement_timeout.
  destruct (truthy (achievementTimeout (rt w))); exact H.
Qed.

Lemma handleAddWater_keeps_positive : forall r amount,
  hoare positive_store (handleAddWater r amount) anything.
Proof.
  intros r amount.
  apply (hoare_handleAddWater positive_store (fun _ => True)); auto.
  - intros e w He Hw. apply positive_store_emit; assumption.
  - intros s w _. apply positive_store_setSettings.
  - intros a w Ha [Hdb Htr]. split; [exact Hdb|].
    intros a' Hin. rewrite trace_emit in Hin.
    apply in_app_or in Hin as [Hin|[[= <-]|[]]]; [apply Htr, Hin | exact Ha].
  - intros a w Ha [Hdb Htr]. split; [|exact Htr].
    intros e Hin. cbn in Hin. apply in_app_or in Hin as [Hin|[<-|[]]].
    + apply Hdb, Hin.
    + exact Ha.
  - intros w. apply positive_store_start_achievement.
Qed.

(** C6. A request for a non-positive amount returns at once: the only
    thing that happens is the error sound (when sounds are on); no store
    call is issued, no fault bit is consumed, and component state, runtime
    and store are exactly as before. For any amount, every amount sent to
    [add_water] and every entry in the store stays positive. *)
Theorem handleAddWater_rejects_nonpositive :
  forall (r : Render) (amount : Z) (fs : list bool) (w : World),
  let w' := exec (handleAddWater r amount) fs w in
  (amount <= 0 ->
     fst (handleAddWater r amount (with_faults fs w)) = Ok tt /\
     app w' = app w /\ rt w' = rt w /\ env w' = env w /\ faults w' = fs /\
     trace w' =
       trace w ++ (if sound_enabled (r_settings r)
                   then [EvAudio "/sounds/Back.wav"] else []) /\
     count_event is_add_water w' = count_event is_add_water w) /\
  (positive_store w -> positive_store w').
Proof.
  intros r amount fs w. cbv zeta. split.
  - intros Hle. apply Z.leb_le in Hle.
    unfold exec, handleAddWater, count_event. rewrite Hle.
    destruct (sound_enabled (r_settings r)); cbn.
    + rewrite filter_app, app_nil_r. repeat split; reflexivity.
    + rewrite app_nil_r. repeat split; reflexivity.
  - intros Hpos. unfold exec.
    apply (handleAddWater_keeps_positive r amount (with_faults fs w)).
    exact Hpos.
Qed.

Lemma handleAddWater_rejects_nonpositive_witness :
  0 <= 0 /\ positive_store Sample.armed /\
  env (exec (handleAddWater (current_render Sample.armed) 0) [] Sample.armed)
    = env Sample.armed /\
  positive_store (exec (handleAddWater (current_render Sample.armed) 750) [] Sample.armed).
Proof.
  assert (Hpos : positive_store Sample.armed).
  { split.
    - intros e [<-|[]]. reflexivity.
    - intros a Hin. vm_compute in Hin.
      repeat (destruct Hin as [Hin|Hin]; [discriminate Hin|]). destruct Hin. }
  split; [lia|]. split; [exact Hpos|]. split.
  - apply (handleAddWater_rejects_nonpositive (current_render Sample.armed) 0 [] Sample.armed).
    lia.
  - apply (handleAddWater_rejects_nonpositive (current_render Sample.armed) 750 [] Sample.armed).
    exact Hpos.
Defined.

(** ** Saving settings *)

Lemma with_faults_self : forall w, with_faults (faults w) w = w.
Proof. intros []; reflexivity. Qed.

Lemma loadData_returns : forall w, fst (loadData w) = Ok tt.
Proof.
  intros w. unfold loadData, try_catch.
  match goal with |- context [match ?m w with _ => _ end] => destruct (m w) as [[[]|e] w1] end;
    reflexivity.
Qed.

(** A load never touches the OS registration, whatever is rejected. *)
Lemma loadData_os_autostart : forall w,
  os_autostart (env (snd (loadData w))) = os_autostart (env w).
Proof.
  intros w.
  apply (hoare_loadData (fun w' => os_autostart (env w') = os_autostart (env w))
           (fun _ => True)); auto.
  - intros s w' _ Hw'. rewrite setSettings_env. exact Hw'.
Qed.

Lemma loadData_toast : forall w,
  toast (app (snd (loadData w))) = toast (app w).
Proof.
  intros w.
  apply (hoare_loadData (fun w' => toast (app w') = toast (app w))
           (fun _ => True)); auto.
  - intros s w' _ Hw'. rewrite setSettings_app. exact Hw'.
Qed.

Lemma loadData_trace_extends : forall w,
  exists post, trace (snd (loadData w)) = trace w ++ post /\
               filter is_add_water post = [].
Proof.
  intros w.
  apply (hoare_loadData
           (fun w' => exists post, trace w' = trace w ++ post /\
                                   filter is_add_water post = [])
           (fun _ => True)); auto.
  - intros e w' He [post [Hp Hf]]. exists (post ++ [e]).
    rewrite trace_emit, Hp, app_assoc, filter_app, Hf. cbn. rewrite He. auto.
  - intros s w' _ [post [Hp Hf]].
    destruct (setSettings_trace s w') as [Ht|Ht]; rewrite Ht.
    + exists post. auto.
    + exists (post ++ [EvOs isPermissionGranted]).
      rewrite Hp, app_assoc, filter_app, Hf. auto.
  - exists []. rewrite app_nil_r. auto.
Qed.

(** After a load whose five calls all succeed, the persisted and the
    in-memory flag both equal the OS registration. *)
Lemma loadData_reconciled : forall w,
  forallb negb (firstn 4 (faults w)) = true ->
  nth 4 (faults w) false = false ->
  start_with_system (db_settings (env (snd (loadData w)))) = os_autostart (env w) /\
  start_with_system (settings (app (snd (loadData w)))) = os_autostart (env w).
Proof.
  intros w H F. rewrite <- (with_faults_self w) at 1 3.
  destruct (Bool.eqb (start_with_system (db_settings (env w)))
                     (os_autostart (env w))) eqn:E.
  - rewrite (loadData_agree _ w H E); cbn [snd].
    autorewrite with world. apply eqb_prop in E. cbn. auto.
  - rewrite (loadData_patch_saved _ w H F E); cbn [snd].
    autorewrite with world. cbn. auto.
Qed.

Lemma bind_act : forall {B} (f : World -> World) (k : unit -> M B) w,
  bind (act f) k w = k tt (f w).
Proof. reflexivity. Qed.

Lemma apply_theme_faults : forall p w, faults (apply_theme p w) = faults w.
Proof. intros p w. unfold apply_theme. repeat break_match; reflexivity. Qed.

Lemma apply_theme_env : forall p w, env (apply_theme p w) = env w.
Proof. intros p w. unfold apply_theme. repeat break_match; reflexivity. Qed.

Lemma apply_theme_trace : forall p w, trace (apply_theme p w) = trace w.
Proof. intros p w. unfold apply_theme. repeat break_match; reflexivity. Qed.

Lemma handleSaveSettings_theme : forall r p w,
  handleSaveSettings r p w =
  bind (match p_start_with_system p with
        | Some b =>
            try_catch (if b then os_enableAutostart else os_disableAutostart)
              (fun _ =>
                 console_error "Failed to update autostart:" ;;
                 showToast "Failed to update autostart setting")
        | None => ret tt
        end)
    (fun _ => try_catch (invoke_save_settings (spread (r_settings r) p) ;; loadData)
                (fun _ => console_error "Failed to save settings:"))
    (apply_theme p (setSettings (spread (r_settings r) p) w)).
Proof.
  intros r p w. unfold handleSaveSettings, apply_theme.
  rewrite bind_act.
  destruct (p_theme p) as [t|]; [destruct (nonempty t)|]; reflexivity.
Qed.

Ltac unfold_calls :=
  unfold showToast, console_error,
    invoke_save_settings, os_enableAutostart, os_disableAutostart,
    external, try_catch, bind, settle, await, act, ret.

(** The whole of [handleSaveSettings] in one equation: after the three
    steps, the reload runs exactly when the save was accepted. *)
Lemma handleSaveSettings_run : forall r p w,
  let updated := spread (r_settings r) p in
  let w2 := toggle_step (p_start_with_system p) (apply_theme p (setSettings updated w)) in
  handleSaveSettings r p w =
    if hd false (faults w2) then (Ok tt, save_step updated w2)
    else loadData (save_step updated w2).
Proof.
  intros r p w. cbv zeta.
  rewrite handleSaveSettings_theme.
  generalize (apply_theme p (setSettings (spread (r_settings r) p) w)).
  intros [a rt0 e t f].
  destruct (p_start_with_system p) as [[|]|];
    destruct f as [|[|] [|[|] f]];
    unfold toggle_step, save_step; unfold_calls; cbn; try reflexivity.
  all: match goal with
       | |- ?L = loadData ?R =>
           match L with
           | context [loadData ?W] =>
               change R with W;
               pose proof (loadData_returns W) as HL;
               destruct (loadData W) as [[[]|err] w1]
           end
       end.
  all: cbn in HL; try reflexivity; discriminate HL.
Qed.

Lemma toggle_step_faults : forall b w,
  faults (toggle_step (Some b) w) = tl (faults w).
Proof. intros b w. unfold toggle_step. destruct (hd false (faults w)); reflexivity. Qed.

Lemma toggle_step_env : forall b w,
  env (toggle_step (Some b) w) =
    if hd false (faults w) then env w else put_os_autostart b (env w).
Proof. intros b w. unfold toggle_step. destruct (hd false (faults w)); reflexivity. Qed.

Lemma toggle_step_trace : forall b w,
  trace (toggle_step (Some b) w) =
    trace w ++ EvOs (toggle_call b)
            :: (if hd false (faults w)
                then [EvConsoleError "Failed to update autostart:"] else []).
Proof.
  intros b w. unfold toggle_step. destruct (hd false (faults w)); cbn;
    rewrite <- ?app_assoc; reflexivity.
Qed.

Lemma toggle_step_toast : forall b w,
  hd false (faults w) = true ->
  toast (app (toggle_step (Some b) w)) =
    mkBanner "Failed to update autostart setting" true.
Proof. intros b w H. unfold toggle_step. rewrite H. reflexivity. Qed.

Lemma save_step_faults : forall s w, faults (save_step s w) = tl (faults w).
Proof. intros s w. unfold save_step. destruct (hd false (faults w)); reflexivity. Qed.

Lemma save_step_app : forall s w, app (save_step s w) = app w.
Proof. intros s w. unfold save_step. destruct (hd false (faults w)); reflexivity. Qed.

Lemma save_step_env : forall s w,
  env (save_step s w) =
    if hd false (faults w) then env w else put_db_settings s (env w).
Proof. intros s w. unfold save_step. destruct (hd false (faults w)); reflexivity. Qed.

Lemma save_step_trace : forall s w,
  trace (save_step s w) =
    trace w ++ EvInvoke (save_settings s)
            :: (if hd false (faults w)
                then [EvConsoleError "Failed to save settings:"] else []).
Proof.
  intros s w. unfold save_step. destruct (hd false (faults w)); cbn;
    rewrite <- ?app_assoc; reflexivity.
Qed.

Lemma six_calls_pass : forall l : list bool,
  forallb negb (firstn 6 l) = true ->
  hd false l = false /\
  forallb negb (firstn 4 (tl l)) = true /\
  nth 4 (tl l) false = false.
Proof.
  intros l.
  destruct l as [|[|] [|[|] [|[|] [|[|] [|[|] [|[|] l]]]]]]; cbn;
    intros H; try discriminate H; auto.
Qed.

(** C1 (as amended). When start-with-system is changed, the OS switch is
    called before [save_settings], and [save_settings] is called with the
    updated record whatever the switch answered. If the switch is
    rejected, the OS registration is unchanged and the failure toast is
    shown; once the save and the reload that follows go through, the
    reload's reconciliation leaves the persisted and in-memory flag equal
    to the actual OS registration. If the switch is accepted, the OS
    registration is the requested value, and so are the persisted and
    in-memory flag once the save and reload go through. *)
Theorem handleSaveSettings_autostart_toggle :
  forall (r : Render) (p : PartialSettings) (b : bool) (fs : list bool) (w : World),
  p_start_with_system p = Some b ->
  let updated := spread (r_settings r) p in
  let w' := exec (handleSaveSettings r p) fs w in
  (exists pre mid post,
     trace w' = trace w ++ pre ++ EvOs (toggle_call b) :: mid
                        ++ EvInvoke (save_settings updated) :: post /\
     filter is_save_settings pre = [] /\
     mid = if hd false fs
           then [EvConsoleError "Failed to update autostart:"] else []) /\
  (hd false fs = true ->
     os_autostart (env w') = os_autostart (env w) /\
     toast (app w') = mkBanner "Failed to update autostart setting" true /\
     (forallb negb (firstn 6 (tl fs)) = true ->
        start_with_system (db_settings (env w')) = os_autostart (env w) /\
        start_with_system (settings (app w')) = os_autostart (env w))) /\
  (hd false fs = false ->
     os_autostart (env w') = b /\
     (forallb negb (firstn 6 (tl fs)) = true ->
        start_with_system (db_settings (env w')) = b /\
        start_with_system (settings (app w')) = b)).
Proof.
  intros r p b fs w Hp. cbv zeta. unfold exec.
  rewrite handleSaveSettings_run. cbv zeta. rewrite Hp.
  set (updated := spread (r_settings r) p).
  set (W1 := apply_theme p (setSettings updated (with_faults fs w))).
  assert (F1 : faults W1 = fs).
  { unfold W1. rewrite apply_theme_faults, setSettings_faults. reflexivity. }
  assert (E1 : env W1 = env w).
  { unfold W1. rewrite apply_theme_env, setSettings_env. reflexivity. }
  assert (T1 : exists pre, trace W1 = trace w ++ pre /\ filter is_save_settings pre = []).
  { unfold W1. rewrite apply_theme_trace.
    destruct (setSettings_trace updated (with_faults fs w)) as [Ht|Ht]; rewrite Ht.
    - exists []. rewrite app_nil_r. auto.
    - exists [EvOs isPermissionGranted]. auto. }
  clearbody W1.
  set (W2 := toggle_step (Some b) W1).
  assert (F2 : faults W2 = tl fs) by (unfold W2; rewrite toggle_step_faults, F1; reflexivity).
  assert (E2 : env W2 = if hd false fs then env w else put_os_autostart b (env w)).
  { unfold W2. rewrite toggle_step_env, F1, E1. reflexivity. }
  assert (T2 : exists pre, trace W2 = trace w ++ pre ++ EvOs (toggle_call b)
              :: (if hd false fs then [EvConsoleError "Failed to update autostart:"] else [])
              /\ filter is_save_settings pre = []).
  { destruct T1 as [pre [Hpre Hf]]. exists pre. unfold W2.
    rewrite toggle_step_trace, F1, Hpre, <- app_assoc. auto. }
  assert (B2 : hd false fs = true -> toast (app W2) = mkBanner "Failed to update autostart setting" true).
  { intros H. unfold W2. apply toggle_step_toast. rewrite F1. exact H. }
  clearbody W2. clear W1 F1 E1 T1.
  set (W3 := save_step updated W2).
  assert (F3 : faults W3 = tl (tl fs)) by (unfold W3; rewrite save_step_faults, F2; reflexivity).
  assert (E3 : env W3 = if hd false (tl fs) then env W2 else put_db_settings updated (env W2)).
  { unfold W3. rewrite save_step_env, F2. reflexivity. }
  assert (A3 : app W3 = app W2) by apply save_step_app.
  assert (T3 : exists pre post, trace W3 = trace w ++ pre ++ EvOs (toggle_call b)
              :: (if hd false fs then [EvConsoleError "Failed to update autostart:"] else [])
              ++ EvInvoke (save_settings updated) :: post
              /\ filter is_save_settings pre = []).
  { destruct T2 as [pre [Hpre Hf]]. exists pre. eexists. unfold W3.
    rewrite save_step_trace, F2, Hpre. split; [|exact Hf].
    rewrite <- !app_assoc. cbn [List.app]. rewrite <- ?app_assoc. reflexivity. }
  rewrite F2.
  assert (O3 : os_autostart (env W3) = if hd false fs then os_autostart (env w) else b).
  { rewrite E3, E2. destruct (hd false (tl fs)), (hd false fs); reflexivity. }
  assert (B3 : hd false fs = true -> toast (app W3) = mkBanner "Failed to update autostart setting" true).
  { rewrite A3. exact B2. }
  clearbody W3. clear W2 F2 E2 T2 B2 E3 A3.
  set (W4 := snd (if hd false (tl fs) then (Ok tt, W3) else loadData W3)).
  assert (O4 : os_autostart (env W4) = os_autostart (env W3)).
  { unfold W4. destruct (hd false (tl fs)); [reflexivity | apply loadData_os_autostart]. }
  assert (B4 : toast (app W4) = toast (app W3)).
  { unfold W4. destruct (hd false (tl fs)); [reflexivity | apply loadData_toast]. }
  assert (T4 : exists post, trace W4 = trace W3 ++ post).
  { unfold W4. destruct (hd false (tl fs)).
    - exists []. rewrite app_nil_r. reflexivity.
    - destruct (loadData_trace_extends W3) as [post [Hpost _]]. exists post. exact Hpost. }
  assert (R4 : forallb negb (firstn 6 (tl fs)) = true ->
               start_with_system (db_settings (env W4)) = os_autostart (env W3) /\
               start_with_system (settings (app W4)) = os_autostart (env W3)).
  { intros H6. destruct (six_calls_pass _ H6) as (H0 & H4 & H5).
    unfold W4. rewrite H0. apply loadData_reconciled; rewrite F3; assumption. }
  clearbody W4.
  rewrite O4, B4, O3.
  split; [|split].
  - destruct T3 as (pre & post & Ht & Hf). destruct T4 as (post' & Ht').
    exists pre. eexists. exists (post ++ post'). split; [|split; [exact Hf | reflexivity]].
    rewrite Ht', Ht. rewrite <- !app_assoc. cbn [List.app]. rewrite <- ?app_assoc.
    reflexivity.
  - intros H. rewrite H in *. split; [reflexivity|]. split; [apply B3; reflexivity|].
    intros H6. rewrite <- O3. apply R4, H6.
  - intros H. rewrite H in *. split; [reflexivity|].
    intros H6. rewrite <- O3. apply R4, H6.
Qed.

Lemma handleSaveSettings_autostart_toggle_witness :
  p_start_with_system Sample.toggle_on = Some true /\
  start_with_system (db_settings (env Sample.refused_toggle)) =
    os_autostart (env Sample.armed).
Proof.
  split; [reflexivity|].
  pose proof (handleSaveSettings_autostart_toggle
                (current_render Sample.armed) Sample.toggle_on true [true]
                Sample.armed eq_refl) as H.
  cbv zeta in H. destruct H as (_ & H & _).
  destruct (H eq_refl) as (_ & _ & H'). apply H'. reflexivity.
Defined.

(** C1 (as stated) fails. With the persisted flag and the OS registration
    both off, the user switches the flag on and the OS call is rejected:
    [save_settings] is still called, first with the flag on; and when the
    reload is then cut short, the store is left holding the flag on
    against an OS registration that is off. *)
Lemma autostart_failure_is_still_persisted :
  reachable Sample.armed /\
  start_with_system (db_settings (env Sample.armed)) = false /\
  os_autostart (env Sample.armed) = false /\
  filter is_save_settings
    (skipn (List.length (trace Sample.armed)) (trace Sample.refused_toggle)) =
    [EvInvoke (save_settings (set_start_with_system true (settings (app Sample.armed))));
     EvInvoke (save_settings (settings (app Sample.armed)))] /\
  os_autostart (env Sample.refused_toggle_failed_reload) = false /\
  start_with_system (db_settings (env Sample.refused_toggle_failed_reload)) = true.
Proof.
  split.
  - exists Sample.store, (mkSel 2024 5), Sample.armed_script. vm_compute. reflexivity.
  - vm_compute. repeat split; reflexivity.
Qed.

(** ** The reminder scheduler *)

Transparent setSettings StatsEngine.get_daily_stats StatsEngine.entries_on.

Lemma filter_none : forall {A} (f : A -> bool) (l : list A),
  (forall a, In a l -> f a = true -> False) -> filter f l = [].
Proof.
  induction l as [|a l IH]; intros H; cbn; [reflexivity|].
  destruct (f a) eqn:Fa.
  - exfalso. apply (H a); [left; reflexivity | exact Fa].
  - apply IH. intros b Hb. apply H. right; exact Hb.
Qed.

Lemma filter_filter_length : forall {A} (f g : A -> bool) (l : list A),
  (List.length (filter f (filter g l)) <= List.length (filter f l))%nat.
Proof.
  induction l as [|a l IH]; cbn; [lia|].
  destruct (g a); cbn; destruct (f a); cbn; lia.
Qed.

Lemma truthy_some : forall o h, truthy o = Some h -> o = Some h /\ (0 < h)%nat.
Proof.
  intros [[|n]|] h H; cbn in H; try discriminate H.
  injection H as <-. split; [reflexivity | lia].
Qed.

Lemma truthy_none : forall o h, truthy o = None -> o = Some h -> h = 0%nat.
Proof.
  intros [[|n]|] h H Ho; cbn in H; try discriminate H; congruence.
Qed.

Lemma timers_ok_clearTimer : forall h r, timers_ok r -> timers_ok (clearTimer h r).
Proof.
  intros h r (H1 & H2 & H3 & H4 & H5). unfold timers_ok, clearTimer, live_recurring.
  cbn. repeat split.
  - apply (H1 t); [apply filter_In in H as [H _]; exact H | exact H0].
  - apply (H1 t); [apply filter_In in H as [H _]; exact H | exact H0].
  - apply (H1 t); [apply filter_In in H as [H _]; exact H | exact H0].
  - etransitivity; [apply filter_filter_length | exact H2].
  - exact H3.
  - exact H4.
  - exact H5.
Qed.

(** Clearing through the ref removes every recurring timer. *)
Lemma clear_reminder_ref_ok : forall w,
  world_ok w ->
  world_ok (clear_reminder_ref w) /\ live_recurring (rt (clear_reminder_ref w)) = [].
Proof.
  intros w Hok. pose proof Hok as (H1 & H2 & H3 & H4 & H5).
  unfold clear_reminder_ref.
  destruct (truthy (reminderInterval (rt w))) as [h|] eqn:T.
  - apply truthy_some in T as [Href Hpos].
    assert (Hnone : forall t, In t (timers (clearTimer h (rt w))) ->
                              t_repeat t = true -> False).
    { intros t Hin Hrep. cbn in Hin. apply filter_In in Hin as [Hin Hne].
      destruct (H1 t Hin Hrep) as (Hid & _). rewrite Href in Hid.
      injection Hid as ->. rewrite Nat.eqb_refl in Hne. discriminate Hne. }
    assert (Hlive : live_recurring (put_reminderInterval None (clearTimer h (rt w))) = []).
    { apply filter_none. exact Hnone. }
    split; [|exact Hlive].
    unfold world_ok. rewrite rt_with_rt. unfold timers_ok. rewrite Hlive.
    split; [|split; [|split; [|split]]].
    + intros t Hin Hrep. exfalso. exact (Hnone t Hin Hrep).
    + cbn. lia.
    + discriminate.
    + exact H4.
    + exact H5.
  - split; [exact Hok|].
    apply filter_none. intros t Hin Hrep.
    destruct (H1 t Hin Hrep) as (Hid & _ & Hpos).
    pose proof (truthy_none _ _ T Hid). lia.
Qed.

Lemma timers_ok_one_shot : forall cb ms r,
  timers_ok r -> timers_ok (snd (setTimer false cb ms r)).
Proof.
  intros cb ms r (H1 & H2 & H3 & H4 & H5).
  unfold timers_ok, setTimer, live_recurring. cbn. repeat split.
  - apply in_app_or in H as [H|[<-|[]]]; [apply (H1 t H H0) | discriminate H0].
  - apply in_app_or in H as [H|[<-|[]]]; [apply (H1 t H H0) | discriminate H0].
  - apply in_app_or in H as [H|[<-|[]]]; [apply (H1 t H H0) | discriminate H0].
  - rewrite filter_app. cbn. rewrite app_nil_r. exact H2.
  - intros h Hh. specialize (H3 h Hh). lia.
  - intros h Hh. specialize (H4 h Hh). lia.
  - lia.
Qed.

Lemma world_ok_setTimeout : forall cb ms w, world_ok w -> world_ok (setTimeout_ cb ms w).
Proof. intros cb ms w H. apply timers_ok_one_shot. exact H. Qed.

Lemma clear_reminder_ref_next : forall w,
  next_timer (rt (clear_reminder_ref w)) = next_timer (rt w).
Proof. intros w. unfold clear_reminder_ref. break_match; reflexivity. Qed.

Lemma setTimeout_live : forall cb ms w,
  live_recurring (rt (setTimeout_ cb ms w)) = live_recurring (rt w).
Proof.
  intros cb ms w. unfold live_recurring. cbn.
  rewrite filter_app. cbn. apply app_nil_r.
Qed.

(** [setInterval] into the ref, when no recurring timer is live. *)
Lemma set_interval_ok : forall cb ms r,
  timers_ok r -> live_recurring r = [] ->
  let r' := put_reminderInterval (Some (next_timer r)) (snd (setTimer true cb ms r)) in
  timers_ok r' /\ live_recurring r' = [mkTimer (next_timer r) true ms cb].
Proof.
  intros cb ms r (H1 & H2 & H3 & H4 & H5) Hnone. cbv zeta.
  assert (Hlive : live_recurring
            (put_reminderInterval (Some (next_timer r)) (snd (setTimer true cb ms r)))
          = [mkTimer (next_timer r) true ms cb]).
  { unfold live_recurring in *. cbn. rewrite filter_app, Hnone. reflexivity. }
  split; [|exact Hlive].
  unfold timers_ok. rewrite Hlive.
  split; [|split; [|split; [|split]]].
  - intros t Hin Hrep. cbn in Hin. apply in_app_or in Hin as [Hin|[<-|[]]].
    + exfalso. assert (Hin' : In t (live_recurring r)).
      { apply filter_In. split; assumption. }
      rewrite Hnone in Hin'. exact Hin'.
    + cbn. split; [reflexivity|]. split; [|exact H5].
      intros Hach. specialize (H4 _ Hach). lia.
  - cbn. lia.
  - cbn. intros h [= <-]. lia.
  - cbn. intros h Hh. specialize (H4 h Hh). lia.
  - cbn. lia.
Qed.

Lemma arm_ok : forall s w,
  world_ok w ->
  world_ok (arm s w) /\
  live_recurring (rt (arm s w)) =
    [mkTimer (S (next_timer (rt w))) true
       (reminder_interval_minutes s * 60 * 1000) (CbReminder (sound_enabled s))].
Proof.
  intros s w Hok.
  destruct (clear_reminder_ref_ok w Hok) as [Hok1 Hnone1].
  pose proof (clear_reminder_ref_next w) as Hnext.
  set (w1 := clear_reminder_ref w) in *.
  set (w2 := setTimeout_
               (CbTestNotification (reminder_interval_minutes s) (sound_enabled s))
               2000 w1).
  assert (Hok2 : timers_ok (rt w2)) by (apply world_ok_setTimeout; exact Hok1).
  assert (Hnone2 : live_recurring (rt w2) = [])
    by (unfold w2; rewrite setTimeout_live; exact Hnone1).
  assert (Hnext2 : next_timer (rt w2) = S (next_timer (rt w)))
    by (unfold w2; cbn; rewrite Hnext; reflexivity).
  destruct (set_interval_ok (CbReminder (sound_enabled s))
              (reminder_interval_minutes s * 60 * 1000) (rt w2) Hok2 Hnone2)
    as [Hok3 Hlive3].
  rewrite Hnext2 in Hlive3.
  split; [exact Hok3 | exact Hlive3].
Qed.

Lemma cleanup_ok : forall w, world_ok w -> world_ok (cleanup w).
Proof.
  intros w Hok. unfold cleanup.
  assert (Hok1 : world_ok
            match truthy (reminderInterval (rt w)) with
            | Some h => with_rt (clearTimer h) w
            | None => w
            end).
  { destruct (truthy (reminderInterval (rt w))); [|exact Hok].
    apply timers_ok_clearTimer. exact Hok. }
  revert Hok1.
  generalize (match truthy (reminderInterval (rt w)) with
              | Some h => with_rt (clearTimer h) w
              | None => w
              end).
  intros w1 Hok1.
  destruct (truthy (achievementTimeout (rt w1))); [|exact Hok1].
  apply timers_ok_clearTimer. exact Hok1.
Qed.

(** After the cleanup of a well-formed world no recurring timer is live. *)
Lemma cleanup_clears_recurring : forall w,
  world_ok w -> live_recurring (rt (cleanup w)) = [].
Proof.
  intros w Hok. pose proof Hok as (H1 & _).
  apply filter_none. intros t Hin Hrep.
  assert (Hin0 : In t (timers (rt w))).
  { unfold cleanup in Hin.
    destruct (truthy (reminderInterval (rt w)));
      [destruct (truthy (achievementTimeout (rt (with_rt (clearTimer n) w))))
      |destruct (truthy (achievementTimeout (rt w)))];
      cbn in Hin; repeat (apply filter_In in Hin as [Hin _]); exact Hin. }
  destruct (H1 t Hin0 Hrep) as (Hid & _ & Hpos).
  unfold cleanup in Hin. rewrite Hid in Hin.
  destruct (t_id t) as [|n] eqn:Ht; [lia|]. cbn [truthy] in Hin.
  assert (Hgone : ~ In t (timers (rt (with_rt (clearTimer (S n)) w)))).
  { cbn. intros Hc. apply filter_In in Hc as [_ Hc].
    rewrite Ht, Nat.eqb_refl in Hc. discriminate Hc. }
  apply Hgone.
  destruct (truthy (achievementTimeout (rt (with_rt (clearTimer (S n)) w))));
    [|exact Hin].
  cbn in Hin. apply filter_In in Hin as [Hin _]. exact Hin.
Qed.

Lemma report_denied_ok : forall w, world_ok w -> world_ok (report_denied w).
Proof. intros w Hok. unfold report_denied. apply world_ok_setTimeout. exact Hok. Qed.

Lemma setupReminder_ok : forall s w, world_ok w -> world_ok (setupReminder s w).
Proof.
  intros s w Hok. unfold setupReminder.
  destruct (negb (reminder_enabled s)); [apply clear_reminder_ref_ok, Hok | exact Hok].
Qed.

Lemma run_effect_ok : forall w, world_ok w -> world_ok (run_effect w).
Proof. intros w Hok. unfold run_effect. apply setupReminder_ok. exact Hok. Qed.

Lemma commit_ok : forall w, world_ok w -> world_ok (commit w).
Proof.
  intros w Hok. unfold commit.
  destruct (effect_deps (rt w)); [|exact Hok].
  destruct (deps_eqb _ _); [exact Hok|].
  apply run_effect_ok, cleanup_ok, Hok.
Qed.

Lemma setSettings_ok : forall s w, world_ok w -> world_ok (setSettings s w).
Proof. intros s w Hok. unfold setSettings. apply commit_ok. exact Hok. Qed.

Lemma mount_ok : forall w, world_ok w -> world_ok (mount w).
Proof.
  intros w Hok. unfold mount.
  destruct (effect_deps (rt w)); [exact Hok | apply run_effect_ok, Hok].
Qed.

Lemma unmount_ok : forall w, world_ok w -> world_ok (unmount w).
Proof.
  intros w Hok. unfold unmount.
  destruct (effect_deps (rt w)); [|exact Hok].
  apply (cleanup_ok w Hok).
Qed.

Lemma resume_ok : forall k a w w',
  world_ok w -> resume k a w = Some w' -> world_ok w'.
Proof.
  intros k a w w' Hok H. unfold resume in H.
  destruct (k_at k), a as [[|]|[| |]|]; try discriminate H; injection H as <-;
    try exact Hok; try (apply arm_ok, Hok); apply report_denied_ok, Hok.
Qed.

Lemma resume_nth_ok : forall i a w w',
  world_ok w -> resume_nth i a w = Some w' -> world_ok w'.
Proof.
  intros i a w w' Hok H. unfold resume_nth in H.
  destruct (nth_error (pending (rt w)) i) as [k|]; [|discriminate H].
  eapply resume_ok; [|exact H]. exact Hok.
Qed.

Lemma run_callback_rt : forall cb d w, rt (run_callback cb d w) = rt w.
Proof.
  intros cb d w. destruct cb; cbn; try reflexivity;
    unfold notify; destruct d; cbn; rewrite ?playSound_rt; reflexivity.
Qed.

Lemma fire_ok : forall h d w w',
  world_ok w -> fire h d w = Some w' -> world_ok w'.
Proof.
  intros h d w w' Hok H. unfold fire in H.
  destruct (find _ (timers (rt w))) as [t|]; [|discriminate H].
  injection H as <-. unfold world_ok. rewrite run_callback_rt.
  destruct (t_repeat t); [exact Hok|].
  apply timers_ok_clearTimer. exact Hok.
Qed.

Lemma start_achievement_ok : forall w,
  world_ok w -> world_ok (start_achievement_timeout w).
Proof.
  intros w Hok. unfold start_achievement_timeout.
  assert (Hok1 : world_ok
            match truthy (achievementTimeout (rt w)) with
            | Some h => with_rt (clearTimer h) w
            | None => w
            end).
  { destruct (truthy (achievementTimeout (rt w))); [|exact Hok].
    apply timers_ok_clearTimer. exact Hok. }
  revert Hok1.
  generalize (match truthy (achievementTimeout (rt w)) with
              | Some h => with_rt (clearTimer h) w
              | None => w
              end).
  intros w1 (H1 & H2 & H3 & H4 & H5).
  unfold world_ok, timers_ok, live_recurring. cbn.
  split; [|split; [|split; [|split]]].
  - intros t Hin Hrep. apply in_app_or in Hin as [Hin|[<-|[]]]; [|discriminate Hrep].
    destruct (H1 t Hin Hrep) as (Hid & _ & Hpos).
    split; [exact Hid|]. split; [|exact Hpos].
    intros [= Heq]. specialize (H3 _ Hid). lia.
  - rewrite filter_app. cbn. rewrite app_nil_r. exact H2.
  - intros h Hh. specialize (H3 h Hh). lia.
  - intros h [= <-]. lia.
  - lia.
Qed.

Ltac frame_world_ok :=
  match goal with
  | H : world_ok ?w |- world_ok _ => exact H
  end.

Lemma loadData_ok : hoare world_ok loadData anything.
Proof.
  apply (hoare_loadData world_ok (fun _ => True)); auto; intros; try frame_world_ok.
  apply setSettings_ok; assumption.
Qed.

Lemma handleAddWater_ok : forall r amount,
  hoare world_ok (handleAddWater r amount) anything.
Proof.
  intros r amount.
  apply (hoare_handleAddWater world_ok (fun _ => True)); auto; intros;
    try frame_world_ok.
  - apply setSettings_ok; assumption.
  - apply world_ok_setTimeout; assumption.
  - apply start_achievement_ok; assumption.
Qed.

Lemma handleRemoveEntry_ok : forall r entry,
  hoare world_ok (handleRemoveEntry r entry) anything.
Proof.
  intros r entry.
  apply (hoare_handleRemoveEntry world_ok (fun _ => True)); auto; intros;
    try frame_world_ok.
  apply setSettings_ok; assumption.
Qed.

Lemma handleSaveSettings_ok : forall r p,
  hoare world_ok (handleSaveSettings r p) anything.
Proof.
  intros r p.
  apply (hoare_handleSaveSettings world_ok (fun _ => True)); auto; intros;
    try frame_world_ok.
  - apply setSettings_ok; assumption.
  - apply world_ok_setTimeout; assumption.
Qed.

Lemma exec_ok : forall {A} (m : M A) fs w,
  hoare world_ok m anything -> world_ok w -> world_ok (exec m fs w).
Proof. intros A m fs w Hm Hok. unfold exec. apply Hm. exact Hok. Qed.

Lemma step_ok : forall a w w', world_ok w -> step a w = Some w' -> world_ok w'.
Proof.
  intros a w w' Hok H. destruct a; cbn [step] in H.
  - injection H as <-. apply mount_ok, Hok.
  - injection H as <-. apply unmount_ok, Hok.
  - injection H as <-. apply exec_ok; [apply loadData_ok | exact Hok].
  - injection H as <-. apply exec_ok; [apply handleAddWater_ok | exact Hok].
  - injection H as <-. apply exec_ok; [apply handleRemoveEntry_ok | exact Hok].
  - injection H as <-. apply exec_ok; [apply handleSaveSettings_ok | exact Hok].
  - injection H as <-. unfold world_ok.
    rewrite rt_with_app, playSound_rt. exact Hok.
  - eapply resume_nth_ok; [exact Hok | exact H].
  - eapply fire_ok; [exact Hok | exact H].
Qed.

Lemma run_ok : forall acts w w', world_ok w -> run acts w = Some w' -> world_ok w'.
Proof.
  induction acts as [|a acts IH]; intros w w' Hok H; cbn in H.
  - injection H as <-. exact Hok.
  - destruct (step a w) as [w1|] eqn:Hs; [|discriminate H].
    apply (IH w1 w'); [eapply step_ok; eassumption | exact H].
Qed.

Lemma initial_ok : forall b sel, world_ok (initial b sel).
Proof.
  intros b sel. unfold world_ok, timers_ok. cbn.
  repeat split; try discriminate; try lia; contradiction.
Qed.

Lemma reachable_ok : forall w, reachable w -> world_ok w.
Proof.
  intros w (b & sel & acts & Hrun).
  eapply run_ok; [apply initial_ok | exact Hrun].
Qed.

(** When a reminder dependency changed, the commit of the new settings
    cancels the recurring timer before anything is armed again. *)
Lemma setSettings_rearms : forall s d w,
  world_ok w ->
  effect_deps (rt w) = Some d -> deps_eqb d (deps_of s) = false ->
  live_recurring (rt (setSettings s w)) = [].
Proof.
  intros s d w Hok Hd Hne. unfold setSettings, commit.
  rewrite rt_with_app, Hd. cbn [app with_app settings put_settings]. rewrite Hne.
  assert (Hok' : world_ok (with_app (put_settings s) w)) by exact Hok.
  pose proof (cleanup_clears_recurring _ Hok') as Hnone.
  pose proof (cleanup_ok _ Hok') as Hokc.
  revert Hnone Hokc. generalize (cleanup (with_app (put_settings s) w)).
  intros wc Hnone Hokc. unfold run_effect, setupReminder.
  destruct (negb (reminder_enabled (settings (app wc)))).
  - apply clear_reminder_ref_ok. exact Hokc.
  - exact Hnone.
Qed.

(** C3. In every state the component can reach, at most one recurring
    reminder timer is live. Wherever arming starts from such a state, its
    first step leaves no recurring timer live, and it ends with exactly
    one: the new timer, with the interval of the settings it arms for.
    And when the interval (or the enabled flag) changes, the commit of the
    new settings leaves no recurring timer live before the next arming. *)
Theorem single_recurring_timer : forall w : World,
  reachable w ->
  (List.length (live_recurring (rt w)) <= 1)%nat /\
  (forall s : Settings,
     live_recurring (rt (clear_reminder_ref w)) = [] /\
     live_recurring (rt (arm s w)) =
       [mkTimer (S (next_timer (rt w))) true
          (reminder_interval_minutes s * 60 * 1000)
          (CbReminder (sound_enabled s))]) /\
  (forall (s : Settings) (d : bool * Z),
     effect_deps (rt w) = Some d -> deps_eqb d (deps_of s) = false ->
     live_recurring (rt (setSettings s w)) = []).
Proof.
  intros w Hreach. pose proof (reachable_ok w Hreach) as Hok.
  split; [|split].
  - apply Hok.
  - intros s. split.
    + apply clear_reminder_ref_ok, Hok.
    + apply arm_ok, Hok.
  - intros s d Hd Hne. apply setSettings_rearms with (d := d); assumption.
Qed.

Lemma single_recurring_timer_witness :
  reachable Sample.armed /\
  (List.length (live_recurring (rt Sample.armed)) <= 1)%nat.
Proof.
  assert (H : reachable Sample.armed).
  { exists Sample.store, (mkSel 2024 5), Sample.armed_script. vm_compute. reflexivity. }
  split; [exact H|].
  destruct (single_recurring_timer _ H) as (Hl & _). exact Hl.
Defined.

Example armed_has_one_timer :
  live_recurring (rt Sample.armed) = [mkTimer 4 true 1800000 (CbReminder true)].
Proof. vm_compute. reflexivity. Qed.

(** ** Settings that are not the reminder's *)

Lemma deps_eqb_refl : forall d, deps_eqb d d = true.
Proof. intros [b z]. unfold deps_eqb. cbn. rewrite eqb_reflx, Z.eqb_refl. reflexivity. Qed.

(** A commit of settings with the dependencies the effect last ran with
    leaves the runtime alone. *)
Lemma setSettings_quiet : forall s w,
  match effect_deps (rt w) with Some d => d = deps_of s | None => True end ->
  rt (setSettings s w) = rt w.
Proof.
  intros s w H. unfold setSettings, commit. rewrite rt_with_app.
  destruct (effect_deps (rt w)) as [d|]; [|reflexivity].
  subst d. cbn [app with_app settings put_settings].
  rewrite deps_eqb_refl. reflexivity.
Qed.

Lemma scheduler_view_rt : forall w w', rt w' = rt w -> scheduler_view w' = scheduler_view w.
Proof. intros w w' H. unfold scheduler_view. rewrite H. reflexivity. Qed.

Lemma scheduler_view_toggle_step : forall o w,
  scheduler_view (toggle_step o w) = scheduler_view w.
Proof.
  intros [b|] w; [|reflexivity]. unfold toggle_step.
  destruct (hd false (faults w)); [|reflexivity].
  unfold scheduler_view. cbn. rewrite filter_app. cbn. rewrite app_nil_r. reflexivity.
Qed.

Lemma scheduler_view_apply_theme : forall p w,
  scheduler_view (apply_theme p w) = scheduler_view w.
Proof. intros p w. unfold apply_theme. repeat break_match; reflexivity. Qed.

Lemma scheduler_view_save_step : forall s w,
  scheduler_view (save_step s w) = scheduler_view w.
Proof. intros s w. unfold save_step. destruct (hd false (faults w)); reflexivity. Qed.

Lemma spread_deps : forall s p,
  p_reminder_enabled p = None -> p_reminder_interval_minutes p = None ->
  deps_of (spread s p) = deps_of s.
Proof. intros s p H1 H2. unfold deps_of, spread. cbn. rewrite H1, H2. reflexivity. Qed.

(** A load from a store whose reminder fields are the ones the effect last
    ran with leaves the scheduler alone, whatever is rejected. *)
Lemma loadData_scheduler_view : forall w,
  match effect_deps (rt w) with
  | Some d => d = deps_of (db_settings (env w))
  | None => True
  end ->
  scheduler_view (snd (loadData w)) = scheduler_view w.
Proof.
  intros w Hsync.
  set (I := fun w' => scheduler_view w' = scheduler_view w /\
                      deps_of (db_settings (env w')) = deps_of (db_settings (env w))).
  assert (H : hoare I loadData anything).
  { apply (hoare_loadData I
             (fun s => deps_of s = deps_of (db_settings (env w))));
      unfold I; try (intros; match goal with H : _ /\ _ |- _ => exact H end).
    - intros s w' Hs [Hv Hd]. split; [exact Hv|]. exact Hs.
    - intros s w' Hs [Hv Hd]. rewrite setSettings_env. split; [|exact Hd].
      rewrite <- Hv. apply scheduler_view_rt. apply setSettings_quiet.
      assert (He : effect_deps (rt w') = effect_deps (rt w)).
      { unfold scheduler_view in Hv. congruence. }
      rewrite He, Hs. exact Hsync.
    - intros w' [_ Hd]. exact Hd.
    - intros b s Hs. exact Hs. }
  apply H. split; reflexivity.
Qed.

(** C10. A settings change that carries neither [reminder_enabled] nor
    [reminder_interval_minutes], made from the current render while the
    effect is in sync, leaves the scheduler exactly as it was: the same
    tracked handle, the same reminder and confirmation timers, the same
    suspended arming attempts, the same effect dependencies. This holds
    whichever external calls are rejected. *)
Theorem handleSaveSettings_leaves_scheduler :
  forall (r : Render) (p : PartialSettings) (fs : list bool) (w : World),
  p_reminder_enabled p = None ->
  p_reminder_interval_minutes p = None ->
  r_settings r = settings (app w) ->
  effect_in_sync w ->
  scheduler_view (exec (handleSaveSettings r p) fs w) = scheduler_view w.
Proof.
  intros r p fs w He Hi Hr Hsync. unfold exec.
  rewrite handleSaveSettings_run. cbv zeta.
  set (updated := spread (r_settings r) p).
  assert (Hdeps : deps_of updated = deps_of (settings (app w))).
  { unfold updated. rewrite spread_deps by assumption. rewrite Hr. reflexivity. }
  assert (Hquiet : match effect_deps (rt (with_faults fs w)) with
                   | Some d => d = deps_of updated
                   | None => True
                   end).
  { rewrite rt_with_faults, Hdeps. exact Hsync. }
  pose proof (setSettings_quiet updated (with_faults fs w) Hquiet) as Hrt.
  rewrite rt_with_faults in Hrt.
  set (W0 := setSettings updated (with_faults fs w)) in *.
  set (W3 := save_step updated (toggle_step (p_start_with_system p) (apply_theme p W0))).
  assert (V3 : scheduler_view W3 = scheduler_view w).
  { unfold W3. rewrite scheduler_view_save_step, scheduler_view_toggle_step,
      scheduler_view_apply_theme. apply scheduler_view_rt. exact Hrt. }
  destruct (hd false (faults (toggle_step (p_start_with_system p) (apply_theme p W0))))
    eqn:Hsave.
  - exact V3.
  - rewrite <- V3. apply loadData_scheduler_view.
    assert (E3 : db_settings (env W3) = updated).
    { unfold W3. rewrite save_step_env, Hsave. reflexivity. }
    rewrite E3, Hdeps.
    assert (D3 : effect_deps (rt W3) = effect_deps (rt w)).
    { unfold scheduler_view in V3. congruence. }
    rewrite D3. exact Hsync.
Qed.

Lemma handleSaveSettings_leaves_scheduler_witness :
  effect_in_sync Sample.armed /\
  scheduler_view
    (exec (handleSaveSettings (current_render Sample.armed) Sample.louder)
          [false; true] Sample.armed)
  = scheduler_view Sample.armed.
Proof.
  assert (H : effect_in_sync Sample.armed) by (vm_compute; reflexivity).
  split; [exact H|].
  apply (handleSaveSettings_leaves_scheduler
           (current_render Sample.armed) Sample.louder [false; true] Sample.armed);
    [reflexivity | reflexivity | reflexivity | exact H].
Defined.

(** ** Arming *)



Lemma cleanup_pending : forall w, pending (rt (cleanup w)) = pending (rt w).
Proof. intros w. unfold cleanup. repeat break_match; reflexivity. Qed.


Lemma cleanup_app : forall w, app (cleanup w) = app w.
Proof. intros w. unfold cleanup. repeat break_match; reflexivity. Qed.

Lemma cleanup_refs : forall w,
  reminderInterval (rt (cleanup w)) = reminderInterval (rt w) /\
  achievementTimeout (rt (cleanup w)) = achievementTimeout (rt w) /\
  next_timer (rt (cleanup w)) = next_timer (rt w).
Proof. intros w. unfold cleanup. repeat break_match; auto. Qed.


(** ** Disarming *)

Lemma clearTimer_keeps : forall h r t,
  In t (timers r) -> t_id t <> h -> In t (timers (clearTimer h r)).
Proof.
  intros h r t Hin Hne. cbn. apply filter_In. split; [exact Hin|].
  apply Nat.eqb_neq in Hne. rewrite Hne. reflexivity.
Qed.

Lemma cleanup_keeps : forall w t,
  In t (timers (rt w)) ->
  reminderInterval (rt w) <> Some (t_id t) ->
  achievementTimeout (rt w) <> Some (t_id t) ->
  In t (timers (rt (cleanup w))).
Proof.
  intros w t Hin Hr Ha. unfold cleanup.
  destruct (truthy (reminderInterval (rt w))) as [h|] eqn:Tr.
  - apply truthy_some in Tr as [Tr _].
    assert (Hin1 : In t (timers (rt (with_rt (clearTimer h) w)))).
    { apply clearTimer_keeps; [exact Hin | congruence]. }
    change (achievementTimeout (rt (with_rt (clearTimer h) w)))
      with (achievementTimeout (rt w)).
    destruct (truthy (achievementTimeout (rt w))) as [h'|] eqn:Ta; [|exact Hin1].
    apply truthy_some in Ta as [Ta _].
    apply clearTimer_keeps; [exact Hin1 | congruence].
  - destruct (truthy (achievementTimeout (rt w))) as [h'|] eqn:Ta; [|exact Hin].
    apply truthy_some in Ta as [Ta _].
    apply clearTimer_keeps; [exact Hin | congruence].
Qed.

Lemma clear_reminder_ref_keeps : forall w t,
  In t (timers (rt w)) ->
  reminderInterval (rt w) <> Some (t_id t) ->
  In t (timers (rt (clear_reminder_ref w))).
Proof.
  intros w t Hin Hr. unfold clear_reminder_ref.
  destruct (truthy (reminderInterval (rt w))) as [h|] eqn:Tr; [|exact Hin].
  apply truthy_some in Tr as [Tr _].
  apply (clearTimer_keeps h (rt w) t); [exact Hin | congruence].
Qed.

Lemma clear_reminder_ref_pending : forall w,
  pending (rt (clear_reminder_ref w)) = pending (rt w).
Proof. intros w. unfold clear_reminder_ref. break_match; reflexivity. Qed.

Lemma setSettings_keeps : forall s w t,
  In t (timers (rt w)) ->
  reminderInterval (rt w) <> Some (t_id t) ->
  achievementTimeout (rt w) <> Some (t_id t) ->
  In t (timers (rt (setSettings s w))).
Proof.
  intros s w t Hin Hr Ha. unfold setSettings, commit. rewrite rt_with_app.
  destruct (effect_deps (rt w)); [|exact Hin].
  destruct (deps_eqb _ _); [exact Hin|].
  set (w0 := with_app (put_settings s) w).
  pose proof (cleanup_keeps w0 t Hin Hr Ha) as Hin1.
  destruct (cleanup_refs w0) as (Href & _ & _).
  unfold run_effect, setupReminder.
  destruct (negb (reminder_enabled (settings (app (cleanup w0))))); [|exact Hin1].
  apply clear_reminder_ref_keeps; [exact Hin1|].
  cbn [rt with_rt reminderInterval put_effect_deps]. rewrite Href. exact Hr.
Qed.

Lemma setSettings_disabled_pending : forall s w,
  reminder_enabled s = false ->
  pending (rt (setSettings s w)) = pending (rt w).
Proof.
  intros s w Hs. unfold setSettings, commit. rewrite rt_with_app.
  destruct (effect_deps (rt w)); [|reflexivity].
  destruct (deps_eqb _ _); [reflexivity|].
  unfold run_effect, setupReminder. rewrite cleanup_app.
  cbn [app with_app settings put_settings]. rewrite Hs. cbn [negb].
  rewrite clear_reminder_ref_pending. cbn [rt with_rt pending put_effect_deps].
  rewrite cleanup_pending. reflexivity.
Qed.

Lemma cleanup_drops_achievement : forall w h t,
  truthy (achievementTimeout (rt w)) = Some h ->
  In t (timers (rt (cleanup w))) -> t_id t <> h.
Proof.
  intros w h t Ta Hin Heq. unfold cleanup in Hin.
  destruct (truthy (reminderInterval (rt w))) as [h0|].
  - change (achievementTimeout (rt (with_rt (clearTimer h0) w)))
      with (achievementTimeout (rt w)) in Hin.
    rewrite Ta in Hin. cbn in Hin. apply filter_In in Hin as [_ Hin].
    rewrite Heq, Nat.eqb_refl in Hin. discriminate Hin.
  - rewrite Ta in Hin. cbn in Hin. apply filter_In in Hin as [_ Hin].
    rewrite Heq, Nat.eqb_refl in Hin. discriminate Hin.
Qed.

(** C4 (as amended). From any reachable state: when settings with
    reminders off are committed while the effect had last run with them
    on, no recurring timer is live afterwards and no arming attempt is
    added; when the component is torn down, no recurring timer is live
    afterwards and the timer behind [achievementTimeout] is gone. Nothing
    else is cancelled: every timer that neither ref points at, a pending
    confirmation one-shot among them, is still in the table after either. *)
Theorem disarm_cancels_recurring_timer : forall w : World,
  reachable w ->
  (forall (s : Settings) (m : Z),
     effect_deps (rt w) = Some (true, m) -> reminder_enabled s = false ->
     live_recurring (rt (setSettings s w)) = [] /\
     pending (rt (setSettings s w)) = pending (rt w)) /\
  (effect_deps (rt w) <> None ->
     live_recurring (rt (unmount w)) = [] /\
     effect_deps (rt (unmount w)) = None /\
     (forall h t, truthy (achievementTimeout (rt w)) = Some h ->
                  In t (timers (rt (unmount w))) -> t_id t <> h)) /\
  (forall t, In t (timers (rt w)) ->
     reminderInterval (rt w) <> Some (t_id t) ->
     achievementTimeout (rt w) <> Some (t_id t) ->
     In t (timers (rt (unmount w))) /\
     forall s, In t (timers (rt (setSettings s w)))).
Proof.
  intros w Hreach. pose proof (reachable_ok w Hreach) as Hok.
  split; [|split].
  - intros s m Hd Hs. split.
    + apply setSettings_rearms with (d := (true, m)); [exact Hok | exact Hd |].
      unfold deps_eqb, deps_of. cbn. rewrite Hs. reflexivity.
    + apply setSettings_disabled_pending. exact Hs.
  - intros Hm. unfold unmount.
    destruct (effect_deps (rt w)) as [d|]; [|contradiction].
    split; [|split].
    + apply (cleanup_clears_recurring w Hok).
    + reflexivity.
    + intros h t Ta Hin. apply (cleanup_drops_achievement w h t Ta). exact Hin.
  - intros t Hin Hr Ha. split.
    + unfold unmount. destruct (effect_deps (rt w)); [|exact Hin].
      apply (cleanup_keeps w t Hin Hr Ha).
    + intros s. apply setSettings_keeps; assumption.
Qed.

Lemma disarm_cancels_recurring_timer_witness :
  reachable Sample.rearmed /\
  effect_deps (rt Sample.rearmed) <> None /\
  live_recurring (rt (unmount Sample.rearmed)) = [].
Proof.
  assert (H : reachable Sample.rearmed).
  { exists Sample.store, (mkSel 2024 5), Sample.rearm_script. vm_compute. reflexivity. }
  assert (Hm : effect_deps (rt Sample.rearmed) <> None).
  { intros Hc. vm_compute in Hc. discriminate Hc. }
  split; [exact H|]. split; [exact Hm|].
  destruct (disarm_cancels_recurring_timer _ H) as (_ & Hu & _).
  destruct (Hu Hm) as (Hl & _). exact Hl.
Defined.

(** An attempt that is still waiting for the permission answer when
    reminders are switched off arms once the answer arrives. *)
Example suspended_attempt_arms_after_disarm :
  reachable Sample.late_answer /\
  reminder_enabled (settings (app Sample.late_answer)) = false /\
  live_recurring (rt Sample.late_answer) = [mkTimer 6 true 2700000 (CbReminder true)].
Proof.
  split.
  - exists Sample.store, (mkSel 2024 5), Sample.late_answer_script.
    vm_compute. reflexivity.
  - vm_compute. split; reflexivity.
Qed.

(** C4 (as stated) fails. Reminders are re-armed for 45 minutes and, before
    the confirmation is due, switched off (respectively, the component is
    torn down). The recurring timer is gone, but the confirmation one-shot
    is still in the table, and when it fires the confirmation is sent. *)
Lemma confirmation_fires_after_disarm :
  reachable Sample.disarmed /\
  reachable Sample.torn_down /\
  reminder_enabled (settings (app Sample.disarmed)) = false /\
  timers (rt Sample.disarmed) = [mkTimer 5 false 2000 (CbTestNotification 45 true)] /\
  Sample.firing 5 Sample.disarmed =
    Some [EvOs (sendNotification notification_title
                  "Reminder system active! You will be notified every 45 minutes.");
          EvAudio "/sounds/Select.wav"] /\
  effect_deps (rt Sample.torn_down) = None /\
  timers (rt Sample.torn_down) = [mkTimer 5 false 2000 (CbTestNotification 45 true)] /\
  Sample.firing 5 Sample.torn_down =
    Some [EvOs (sendNotification notification_title
                  "Reminder system active! You will be notified every 45 minutes.");
          EvAudio "/sounds/Select.wav"].
Proof.
  split; [|split].
  - exists Sample.store, (mkSel 2024 5), Sample.disarm_script. vm_compute. reflexivity.
  - exists Sample.store, (mkSel 2024 5), (Sample.rearm_script ++ [ActUnmount]).
    vm_compute. reflexivity.
  - vm_compute. repeat split; reflexivity.
Qed.

(** * Further properties *)

(** ** The health badge and the progress ring *)

Lemma Qle_bool_false : forall a b : Q, Qle_bool a b = false -> (b < a)%Q.
Proof.
  intros a b H. apply Qnot_le_lt. intros Hle.
  apply Qle_bool_iff in Hle. congruence.
Qed.

(** X1. The health status never gets worse as the percentage grows; it is
    fine exactly from 75 up and danger exactly below 40; and without stats
    the badge shows danger. *)
Theorem getHealthStatus_monotone : forall p q : Q,
  ((p <= q)%Q ->
     (wellness (getHealthStatus p) <= wellness (getHealthStatus q))%nat) /\
  (getHealthStatus p = fine <-> (75 <= p)%Q) /\
  (getHealthStatus p = danger <-> (p < 40)%Q) /\
  healthStatus None = danger.
Proof.
  intros p q. unfold getHealthStatus.
  split; [|split; [|split; [|reflexivity]]].
  - intros Hpq.
    destruct (Qle_bool 75 p) eqn:P75.
    + apply Qle_bool_iff in P75.
      assert (Hq : Qle_bool 75 q = true)
        by (apply Qle_bool_iff; eapply Qle_trans; eassumption).
      rewrite Hq. cbn. lia.
    + destruct (Qle_bool 40 p) eqn:P40.
      * apply Qle_bool_iff in P40.
        assert (Hq : Qle_bool 40 q = true)
          by (apply Qle_bool_iff; eapply Qle_trans; eassumption).
        rewrite Hq. destruct (Qle_bool 75 q); cbn; lia.
      * cbn. lia.
  - destruct (Qle_bool 75 p) eqn:P75.
    + apply Qle_bool_iff in P75. split; auto.
    + split; [destruct (Qle_bool 40 p); discriminate|].
      intros H. apply Qle_bool_iff in H. congruence.
  - destruct (Qle_bool 75 p) eqn:P75.
    + apply Qle_bool_iff in P75. split; [discriminate|].
      intros H. exfalso. apply (Qlt_irrefl 40).
      eapply Qle_lt_trans; [|exact H]. eapply Qle_trans; [|exact P75].
      discriminate.
    + destruct (Qle_bool 40 p) eqn:P40.
      * apply Qle_bool_iff in P40. split; [discriminate|].
        intros H. exfalso. apply (Qlt_irrefl 40). eapply Qle_lt_trans; eassumption.
      * split; [intros _; apply Qle_bool_false, P40 | reflexivity].
Qed.

Lemma getHealthStatus_monotone_witness :
  (40 <= 90)%Q /\
  (wellness (getHealthStatus 40) <= wellness (getHealthStatus 90))%nat.
Proof.
  split; [discriminate|].
  apply (getHealthStatus_monotone 40 90). discriminate.
Defined.

Lemma getHealthStatus_fine : forall p : Q, getHealthStatus p = fine -> (75 <= p)%Q.
Proof.
  intros p H. unfold getHealthStatus in H.
  destruct (Qle_bool 75 p) eqn:P75; [apply Qle_bool_iff, P75|].
  destruct (Qle_bool 40 p); discriminate H.
Qed.

Lemma progress_cases : forall s : DailyStats,
  ((percentage s < 100)%Q /\ (progress (Some s) == percentage s / 100)%Q) \/
  ((100 <= percentage s)%Q /\ (progress (Some s) == 1)%Q).
Proof.
  intros s. unfold progress.
  destruct (Q.min_spec (percentage s / 100) 1) as [[H E]|[H E]];
    change (percentage s / 100)%Q with (percentage s * (1 # 100))%Q in *.
  - left. split; [|exact E]. lra.
  - right. split; [|exact E]. lra.
Qed.

(** X2. The ring's progress never exceeds 1 and is 1 exactly from 100
    percent up; it is not clamped from below, so it is non-negative only
    when the percentage is. For a non-negative percentage the dash offset
    lies between 0 and the circumference, and it is 0 from 100 percent up.
    A fine status means the ring is at least three quarters full. *)
Theorem progress_bounds : forall s : DailyStats,
  (progress (Some s) <= 1)%Q /\
  ((0 <= percentage s)%Q -> (0 <= progress (Some s))%Q) /\
  ((percentage s < 0)%Q -> (progress (Some s) < 0)%Q) /\
  ((100 <= percentage s)%Q <-> (progress (Some s) == 1)%Q) /\
  (forall c : Q, (0 <= c)%Q -> (0 <= percentage s)%Q ->
     (0 <= strokeDashoffset c (Some s) <= c)%Q) /\
  (forall c : Q, (100 <= percentage s)%Q -> (strokeDashoffset c (Some s) == 0)%Q) /\
  (healthStatus (Some s) = fine -> (3 # 4 <= progress (Some s))%Q).
Proof.
  intros s. unfold strokeDashoffset, healthStatus.
  destruct (progress_cases s) as [[H E]|[H E]]; rewrite E;
    change (percentage s / 100)%Q with (percentage s * (1 # 100))%Q in *.
  - repeat split; intros; try lra; try nra.
    match goal with Hf : getHealthStatus _ = fine |- _ =>
      apply getHealthStatus_fine in Hf; lra end.
  - repeat split; intros; try lra; try nra.
Qed.

Lemma progress_bounds_witness :
  (0 <= percentage More.over_goal)%Q /\
  (100 <= percentage More.over_goal)%Q /\
  (0 <= progress (Some More.over_goal))%Q /\
  (strokeDashoffset (553 # 1) (Some More.over_goal) == 0)%Q.
Proof.
  assert (H0 : (0 <= percentage More.over_goal)%Q) by discriminate.
  assert (H1 : (100 <= percentage More.over_goal)%Q) by discriminate.
  destruct (progress_bounds More.over_goal) as (_ & P0 & _ & _ & _ & P1 & _).
  split; [exact H0|]. split; [exact H1|]. split; [apply P0, H0 | apply P1, H1].
Defined.

(** ** Month navigation, repeated *)

Lemma navigateMonth_forward : forall y m,
  navigateMonth 1 (mkSel y m) =
    if 12 <=? m then mkSel (y + 1) 1
    else if m <? 0 then mkSel (y - 1) 12 else mkSel y (m + 1).
Proof.
  intros. unfold navigateMonth. cbn [month year].
  destruct (Z.ltb_spec 12 (m + 1)), (Z.leb_spec 12 m); try lia; try reflexivity.
  destruct (Z.ltb_spec (m + 1) 1), (Z.ltb_spec m 0); try lia; reflexivity.
Qed.

Lemma navigateMonth_backward : forall y m,
  navigateMonth (-1) (mkSel y m) =
    if 13 <? m then mkSel (y + 1) 1
    else if m <=? 1 then mkSel (y - 1) 12 else mkSel y (m - 1).
Proof.
  intros. unfold navigateMonth. cbn [month year].
  replace (m + -1) with (m - 1) by lia.
  destruct (Z.ltb_spec 12 (m - 1)), (Z.ltb_spec 13 m); try lia; try reflexivity.
  destruct (Z.ltb_spec (m - 1) 1), (Z.leb_spec m 1); try lia; reflexivity.
Qed.

Lemma iterate_forward : forall n y m, 1 <= m <= 12 ->
  iterate n (navigateMonth 1) (mkSel y m) =
    mkSel (y + (m - 1 + Z.of_nat n) / 12) ((m - 1 + Z.of_nat n) mod 12 + 1).
Proof.
  induction n as [|n IH]; intros y m Hm.
  - cbn [iterate]. change (Z.of_nat 0) with 0.
    f_equal; Z.to_euclidean_division_equations; lia.
  - cbn [iterate]. rewrite navigateMonth_forward.
    destruct (Z.leb_spec 12 m).
    + rewrite IH by lia. f_equal; Z.to_euclidean_division_equations; lia.
    + destruct (Z.ltb_spec m 0); [lia|].
      rewrite IH by lia. f_equal; Z.to_euclidean_division_equations; lia.
Qed.

Lemma iterate_backward : forall n y m, 1 <= m <= 12 ->
  iterate n (navigateMonth (-1)) (mkSel y m) =
    mkSel (y + (m - 1 - Z.of_nat n) / 12) ((m - 1 - Z.of_nat n) mod 12 + 1).
Proof.
  induction n as [|n IH]; intros y m Hm.
  - cbn [iterate]. change (Z.of_nat 0) with 0.
    f_equal; Z.to_euclidean_division_equations; lia.
  - cbn [iterate]. rewrite navigateMonth_backward.
    destruct (Z.ltb_spec 13 m); [lia|].
    destruct (Z.leb_spec m 1).
    + rewrite IH by lia. f_equal; Z.to_euclidean_division_equations; lia.
    + rewrite IH by lia. f_equal; Z.to_euclidean_division_equations; lia.
Qed.

(** X3. From a month in 1..12, [n] presses of the forward arrow land on
    month [(m - 1 + n) mod 12 + 1] of year [y + (m - 1 + n) / 12], and [n]
    presses of the back arrow on month [(m - 1 - n) mod 12 + 1] of year
    [y + (m - 1 - n) / 12] (floor division): the month never leaves 1..12,
    twelve presses change the year by one and keep the month, and a press
    back followed by a press forward is the identity. *)
Theorem navigateMonth_iterated : forall (n : nat) (prev : SelectedMonth),
  1 <= month prev <= 12 ->
  let k := Z.of_nat n in
  iterate n (navigateMonth 1) prev =
    mkSel (year prev + (month prev - 1 + k) / 12) ((month prev - 1 + k) mod 12 + 1) /\
  iterate n (navigateMonth (-1)) prev =
    mkSel (year prev + (month prev - 1 - k) / 12) ((month prev - 1 - k) mod 12 + 1) /\
  1 <= month (iterate n (navigateMonth 1) prev) <= 12 /\
  1 <= month (iterate n (navigateMonth (-1)) prev) <= 12 /\
  iterate 12 (navigateMonth 1) prev = mkSel (year prev + 1) (month prev) /\
  iterate 12 (navigateMonth (-1)) prev = mkSel (year prev - 1) (month prev) /\
  navigateMonth 1 (navigateMonth (-1) prev) = prev.
Proof.
  intros n [y m] Hm k; cbn [month year] in *.
  rewrite !iterate_forward, !iterate_backward by lia. cbn [month].
  change (Z.of_nat 12) with 12. fold k.
  split; [reflexivity|]. split; [reflexivity|].
  split; [Z.to_euclidean_division_equations; lia|].
  split; [Z.to_euclidean_division_equations; lia|].
  split; [f_equal; Z.to_euclidean_division_equations; lia|].
  split; [f_equal; Z.to_euclidean_division_equations; lia|].
  rewrite navigateMonth_backward.
  destruct (Z.ltb_spec 13 m); [lia|].
  destruct (Z.leb_spec m 1); rewrite navigateMonth_forward.
  - cbn. f_equal; lia.
  - destruct (Z.leb_spec 12 (m - 1)); [lia|].
    destruct (Z.ltb_spec (m - 1) 0); [lia|]. f_equal; lia.
Qed.

Lemma navigateMonth_iterated_witness :
  1 <= month More.january <= 12 /\
  iterate 14 (navigateMonth (-1)) More.january = mkSel 2023 11.
Proof.
  split; [cbn; lia|].
  destruct (navigateMonth_iterated 14 More.january) as (_ & H & _); [cbn; lia|].
  exact H.
Defined.

(** ** Handlers swallow every failure *)

Lemma never_throws_ret : forall {A} (a : A), never_throws (ret a).
Proof. intros A a w. exists a. reflexivity. Qed.

Lemma never_throws_act : forall f, never_throws (act f).
Proof. intros f w. exists tt. reflexivity. Qed.

Lemma never_throws_bind : forall {A B} (m : M A) (k : A -> M B),
  never_throws m -> (forall a, never_throws (k a)) -> never_throws (bind m k).
Proof.
  intros A B m k Hm Hk w. unfold bind.
  destruct (Hm w) as [a Ha]. destruct (m w) as [[a'|e] w1]; cbn in Ha.
  - apply Hk.
  - discriminate Ha.
Qed.

Lemma never_throws_try_catch : forall {A} (m : M A) (h : string -> M A),
  (forall e, never_throws (h e)) -> never_throws (try_catch m h).
Proof.
  intros A m h Hh w. unfold try_catch.
  destruct (m w) as [[a|e] w1].
  - exists a. reflexivity.
  - apply Hh.
Qed.

Lemma never_throws_showToast : forall msg, never_throws (showToast msg).
Proof.
  intros msg. unfold showToast.
  apply never_throws_bind; [apply never_throws_act|]. intros _. apply never_throws_act.
Qed.

Lemma never_throws_report : forall msg snd,
  never_throws (console_error msg ;; act (playSound SndError snd)).
Proof.
  intros msg snd.
  apply never_throws_bind; [apply never_throws_act|]. intros _. apply never_throws_act.
Qed.

(** X4. No handler lets an exception out: whatever external call is
    rejected, [loadData], [handleAddWater], [handleRemoveEntry] and
    [handleSaveSettings] all return normally. *)
Theorem handlers_never_throw :
  never_throws loadData /\
  (forall r amount, never_throws (handleAddWater r amount)) /\
  (forall r entry, never_throws (handleRemoveEntry r entry)) /\
  (forall r p, never_throws (handleSaveSettings r p)).
Proof.
  split; [|split; [|split]].
  - unfold loadData. apply never_throws_try_catch.
    intros e. apply never_throws_act.
  - intros r amount. unfold handleAddWater.
    destruct (amount <=? 0); [apply never_throws_act|].
    apply never_throws_try_catch. intros e. apply never_throws_report.
  - intros r entry. unfold handleRemoveEntry.
    apply never_throws_try_catch. intros e. apply never_throws_report.
  - intros r p. unfold handleSaveSettings.
    apply never_throws_bind; [apply never_throws_act|]. intros _.
    apply never_throws_bind.
    { destruct (p_theme p) as [t|]; [|apply never_throws_ret].
      destruct (nonempty t); [apply never_throws_act | apply never_throws_ret]. }
    intros _. apply never_throws_bind.
    { destruct (p_start_with_system p) as [b|]; [|apply never_throws_ret].
      apply never_throws_try_catch. intros e.
      apply never_throws_bind; [apply never_throws_act|]. intros _.
      apply never_throws_showToast. }
    intros _. apply never_throws_try_catch. intros e. apply never_throws_act.
Qed.

(** ** Adding and removing, stage by stage *)

Opaque setSettings StatsEngine.get_daily_stats StatsEngine.entries_on.

Ltac unfold_store_calls :=
  unfold showToast, console_error, promise_all2,
    invoke_get_today_stats, invoke_get_today_entries,
    invoke_add_water, invoke_remove_entry,
    external, try_catch, bind, settle, await, act, ret.

Ltac settle_load :=
  match goal with
  | |- ?L = ?R =>
      match L with
      | context [loadData ?W] =>
          match R with
          | context [loadData ?W'] =>
              change W' with W;
              let HL := fresh "HL" in
              pose proof (loadData_returns W) as HL;
              destruct (loadData W) as [[[]|err] w1];
              cbn in HL; [reflexivity | discriminate HL]
          end
      end
  end.

Lemma handleRemoveEntry_run : forall r entry w,
  handleRemoveEntry r entry w =
    if hd false (faults w) then (Ok tt, remove_failed r (remove_sent r entry w))
    else loadData (delete_entry entry (remove_sent r entry w)).
Proof.
  intros r entry [a rt0 e t f].
  unfold handleRemoveEntry, remove_failed, remove_sent, delete_entry.
  destruct (sound_enabled (r_settings r));
    destruct f as [|[|] f]; unfold_store_calls; cbn; try reflexivity; settle_load.
Qed.

Lemma handleAddWater_run : forall r amount w,
  handleAddWater r amount w =
    if amount <=? 0 then (Ok tt, playSound SndError (sound_enabled (r_settings r)) w)
    else
      let w1 := add_sent r amount w in
      if hd false (faults w) then (Ok tt, add_failed r w1)
      else
        let w2 := store_entry amount w1 in
        let w3 := reads_done w2 in
        if hd false (faults w2) || nth 1 (faults w2) false
        then (Ok tt, add_failed r w3)
        else
          let w4 := if crossed_goal r (today_stats w2) then celebrate r w3 else w3 in
          (Ok tt, add_finish amount (snd (loadData w4))).
Proof.
  intros r amount [a rt0 e t f]. unfold handleAddWater.
  destruct (amount <=? 0) eqn:Hamount; [reflexivity|].
  unfold add_sent, add_failed, reads_done, add_finish, store_entry, crossed_goal,
    celebrate, today_stats.
  destruct (sound_enabled (r_settings r));
    destruct f as [|[|] [|[|] [|[|] f]]]; unfold_store_calls; cbn; rewrite ?Hamount; cbn;
    try reflexivity.
  all: match goal with
       | |- context [if ?c then _ else _] => destruct c
       end; cbn.
  all: settle_load.
Qed.

(** ** Loading, when the reads succeed *)

Lemma loadData_probe_rejected : forall fs w,
  forallb negb (firstn 3 fs) = true ->
  nth 3 fs false = true ->
  loadData (with_faults fs w) =
    (Ok tt,
     finish_load (db_settings (env w))
       (emit (EvConsoleError "Failed to check autostart status:")
          (with_faults (skipn 4 fs) (probed w)))).
Proof.
  intros fs w H F.
  destruct fs as [|[|] [|[|] [|[|] [|[|] fs]]]]; cbn in H, F;
    try discriminate H; try discriminate F; clear H F.
  unfold_handler; cbn; reflexivity.
Qed.

Lemma four_calls_pass : forall fs : list bool,
  forallb negb (firstn 3 fs) = true -> nth 3 fs false = false ->
  forallb negb (firstn 4 fs) = true.
Proof.
  intros fs. destruct fs as [|[|] [|[|] [|[|] [|[|] fs]]]]; cbn; intros; congruence.
Qed.

Lemma probed_app : forall w,
  app (probed w) = put_entries (today_entries w) (put_stats (Some (today_stats w)) (app w)).
Proof. reflexivity. Qed.

Lemma probed_rt : forall w, rt (probed w) = rt w.
Proof. reflexivity. Qed.

Lemma finish_load_data_theme : forall s w,
  data_theme (rt (finish_load s w)) = Some (theme s).
Proof. reflexivity. Qed.

(** The outcome of a load whose three reads succeed, in one statement: the
    record handed to [setSettings] is the persisted one, patched to the OS
    state exactly when the query was answered. *)
Lemma loadData_reads_pass : forall fs w,
  forallb negb (firstn 3 fs) = true ->
  exists s W,
    loadData (with_faults fs w) = (Ok tt, finish_load s W) /\
    app W = app (probed w) /\ rt W = rt w /\
    s = (if nth 3 fs false then db_settings (env w) else reconciled w) /\
    env W = (if nth 3 fs false then env w
             else if Bool.eqb (start_with_system (db_settings (env w)))
                              (os_autostart (env w)) then env w
             else if nth 4 fs false then env w
             else put_db_settings (reconciled w) (env w)).
Proof.
  intros fs w H.
  destruct (nth 3 fs false) eqn:F3.
  - eexists. eexists. split; [apply loadData_probe_rejected; assumption|].
    repeat split.
  - pose proof (four_calls_pass fs H F3) as H4.
    destruct (Bool.eqb (start_with_system (db_settings (env w)))
                       (os_autostart (env w))) eqn:E.
    + eexists. eexists. split; [apply loadData_agree; assumption|].
      repeat split. unfold reconciled. apply eqb_prop in E. rewrite <- E.
      symmetry. apply set_start_with_system_same.
    + destruct (nth 4 fs false) eqn:F4.
      * eexists. eexists. split; [apply loadData_patch_rejected; assumption|].
        repeat split.
      * eexists. eexists. split; [apply loadData_patch_saved; assumption|].
        repeat split.
Qed.

Lemma loadData_view_under : forall fs w,
  forallb negb (firstn 3 fs) = true ->
  let w' := snd (loadData (with_faults fs w)) in
  stats (app w') = Some (today_stats w) /\
  entries (app w') = today_entries w /\
  data_theme (rt w') = Some (theme (db_settings (env w))) /\
  (forall b, set_start_with_system b (settings (app w'))
             = set_start_with_system b (db_settings (env w))) /\
  db_entries (env w') = db_entries (env w) /\
  toast (app w') = toast (app w) /\
  customAmount (app w') = customAmount (app w) /\
  achievement (app w') = achievement (app w) /\
  selectedMonth (app w') = selectedMonth (app w).
Proof.
  intros fs w H. cbv zeta.
  destruct (loadData_reads_pass fs w H) as (s & W & Hrun & Happ & _ & Hs & Henv).
  rewrite Hrun. cbn [snd].
  rewrite finish_load_data_theme, finish_load_app, finish_load_env, Happ, probed_app, Henv.
  assert (Htheme : theme s = theme (db_settings (env w)))
    by (subst s; destruct (nth 3 fs false); reflexivity).
  assert (Hfields : forall b, set_start_with_system b s
                              = set_start_with_system b (db_settings (env w)))
    by (intros b; subst s; destruct (nth 3 fs false); reflexivity).
  rewrite Htheme. cbn [stats entries settings toast customAmount achievement selectedMonth
                       put_settings put_entries put_stats].
  repeat split; try reflexivity; try exact Hfields.
  destruct (nth 3 fs false); [reflexivity|].
  destruct (Bool.eqb _ _); [reflexivity|].
  destruct (nth 4 fs false); reflexivity.
Qed.

Lemma loadData_view : forall w,
  forallb negb (firstn 3 (faults w)) = true ->
  let w' := snd (loadData w) in
  stats (app w') = Some (today_stats w) /\
  entries (app w') = today_entries w /\
  data_theme (rt w') = Some (theme (db_settings (env w))) /\
  (forall b, set_start_with_system b (settings (app w'))
             = set_start_with_system b (db_settings (env w))) /\
  db_entries (env w') = db_entries (env w) /\
  toast (app w') = toast (app w) /\
  customAmount (app w') = customAmount (app w) /\
  achievement (app w') = achievement (app w) /\
  selectedMonth (app w') = selectedMonth (app w).
Proof.
  intros w H. pose proof (loadData_view_under (faults w) w H) as X.
  rewrite with_faults_self in X. exact X.
Qed.

(** X5. A load whose three reads succeed puts the store's view on display,
    whatever happens to the autostart query and the corrective save: the
    stats and entries are today's as the store has them, the theme
    attribute is the persisted theme, the settings are the persisted ones
    in every field other than start_with_system, and the toast, the custom
    amount, the achievement banner and the selected month are untouched. *)
Theorem loadData_shows_store : forall (fs : list bool) (w : World),
  forallb negb (firstn 3 fs) = true ->
  let w' := exec loadData fs w in
  stats (app w') = Some (today_stats w) /\
  entries (app w') = today_entries w /\
  data_theme (rt w') = Some (theme (db_settings (env w))) /\
  (forall b, set_start_with_system b (settings (app w'))
             = set_start_with_system b (db_settings (env w))) /\
  db_entries (env w') = db_entries (env w) /\
  toast (app w') = toast (app w) /\
  customAmount (app w') = customAmount (app w) /\
  achievement (app w') = achievement (app w) /\
  selectedMonth (app w') = selectedMonth (app w).
Proof.
  intros fs w H. unfold exec. apply loadData_view_under. exact H.
Qed.

Lemma loadData_shows_store_witness :
  forallb negb (firstn 3 [false; false; false; true]) = true /\
  entries (app (exec loadData [false; false; false; true] Sample.fresh))
    = today_entries Sample.fresh.
Proof.
  split; [reflexivity|].
  destruct (loadData_shows_store [false; false; false; true] Sample.fresh eq_refl)
    as (_ & H & _).
  exact H.
Defined.

(** X6. When the autostart query of a load is rejected (the reads having
    succeeded), the load goes on: the failure is logged, no [save_settings]
    is issued, the store is untouched and the settings put in state are
    the persisted ones, start_with_system included. *)
Theorem loadData_autostart_query_rejected : forall (fs : list bool) (w : World),
  forallb negb (firstn 3 fs) = true ->
  nth 3 fs false = true ->
  let w' := exec loadData fs w in
  settings (app w') = db_settings (env w) /\
  env w' = env w /\
  count_event is_save_settings w' = count_event is_save_settings w /\
  exists rest,
    trace w' =
      trace w ++ [EvInvoke get_today_stats; EvInvoke get_today_entries;
                  EvInvoke get_settings; EvOs isAutostartEnabled;
                  EvConsoleError "Failed to check autostart status:"] ++ rest /\
    (rest = [] \/ rest = [EvOs isPermissionGranted]).
Proof.
  intros fs w H F. cbv zeta. unfold exec, count_event.
  rewrite (loadData_probe_rejected fs w H F). cbn [snd].
  rewrite finish_load_app, finish_load_env.
  split; [reflexivity|]. split; [reflexivity|].
  match goal with
  | |- context [trace (finish_load ?s ?W)] =>
      destruct (finish_load_trace s W) as [Ht|Ht]; rewrite Ht; clear Ht
  end.
  - autorewrite with world. rewrite <- ?app_assoc. cbn [List.app].
    split.
    + rewrite filter_app. cbn. rewrite app_nil_r. reflexivity.
    + exists []. split; [reflexivity | left; reflexivity].
  - autorewrite with world. rewrite <- ?app_assoc. cbn [List.app].
    split.
    + rewrite filter_app. cbn. rewrite app_nil_r. reflexivity.
    + exists [EvOs isPermissionGranted]. split; [reflexivity | right; reflexivity].
Qed.

Lemma loadData_autostart_query_rejected_witness :
  forallb negb (firstn 3 [false; false; false; true]) = true /\
  nth 3 [false; false; false; true] false = true /\
  start_with_system
    (settings (app (exec loadData [false; false; false; true] Sample.fresh))) = true /\
  os_autostart (env (exec loadData [false; false; false; true] Sample.fresh)) = false.
Proof.
  split; [reflexivity|]. split; [reflexivity|].
  destruct (loadData_autostart_query_rejected [false; false; false; true] Sample.fresh
              eq_refl eq_refl) as (Hs & He & _).
  rewrite Hs, He. split; reflexivity.
Defined.

(** ** Removing an entry *)

Lemma playSound_trace : forall t b w,
  trace (playSound t b w) = trace w ++ audio_if b t.
Proof. intros t b w. destruct b; cbn; [reflexivity | rewrite app_nil_r; reflexivity]. Qed.

#[local] Hint Rewrite playSound_trace : world.

(** X7. When the store rejects [remove_entry], nothing else is attempted:
    the failure is logged and the error sound played, no read is issued,
    and component state, runtime and store are exactly as before. *)
Theorem handleRemoveEntry_rejected :
  forall (r : Render) (entry : Z) (fs : list bool) (w : World),
  hd false fs = true ->
  let w' := exec (handleRemoveEntry r entry) fs w in
  app w' = app w /\ rt w' = rt w /\ env w' = env w /\
  faults w' = tl fs /\
  trace w' =
    trace w ++ audio_if (sound_enabled (r_settings r)) SndDelete
            ++ [EvInvoke (remove_entry entry);
                EvConsoleError "Failed to remove entry:"]
            ++ audio_if (sound_enabled (r_settings r)) SndError.
Proof.
  intros r entry fs w H. cbv zeta. unfold exec.
  rewrite handleRemoveEntry_run. rewrite faults_with_faults, H. cbn [snd].
  unfold remove_failed, remove_sent. autorewrite with world.
  rewrite <- ?app_assoc. repeat split; reflexivity.
Qed.

Lemma handleRemoveEntry_rejected_witness :
  hd false [true] = true /\
  env (exec (handleRemoveEntry (current_render Sample.armed) 1) [true] Sample.armed)
    = env Sample.armed.
Proof.
  split; [reflexivity|].
  destruct (handleRemoveEntry_rejected (current_render Sample.armed) 1 [true]
              Sample.armed eq_refl) as (_ & _ & H & _).
  exact H.
Defined.

Lemma remove_sent_env : forall r entry w, env (remove_sent r entry w) = env w.
Proof. intros r entry w. unfold remove_sent. autorewrite with world. reflexivity. Qed.

Lemma remove_sent_faults : forall r entry w, faults (remove_sent r entry w) = tl (faults w).
Proof. intros r entry w. reflexivity. Qed.

Transparent StatsEngine.entries_on.

Lemma entries_on_filter : forall d (keep : WaterEntry -> bool) es,
  StatsEngine.entries_on d (filter keep es) = filter keep (StatsEngine.entries_on d es).
Proof.
  intros d keep es. unfold StatsEngine.entries_on.
  induction es as [|e es IH]; cbn; [reflexivity|].
  destruct (keep e) eqn:K, (date_eqb (date e) d) eqn:D; cbn; rewrite ?K, ?D, IH;
    reflexivity.
Qed.

Opaque StatsEngine.entries_on.

(** X8. When [remove_entry] is accepted and the reads of the reload
    succeed, the entries on display are today's entries of the store with
    that id filtered out, so none of them carries the removed id, and the
    stats on display are the store's for what is left. *)
Theorem handleRemoveEntry_accepted :
  forall (r : Render) (entry : Z) (fs : list bool) (w : World),
  hd false fs = false ->
  forallb negb (firstn 3 (tl fs)) = true ->
  let w' := exec (handleRemoveEntry r entry) fs w in
  db_entries (env w') = filter (fun e => negb (id e =? entry)) (db_entries (env w)) /\
  entries (app w') = filter (fun e => negb (id e =? entry)) (today_entries w) /\
  (forall e, In e (entries (app w')) -> id e <> entry) /\
  stats (app w') = Some (today_stats (delete_entry entry w)).
Proof.
  intros r entry fs w H0 H3. cbv zeta. unfold exec.
  rewrite handleRemoveEntry_run. rewrite faults_with_faults, H0.
  set (W := delete_entry entry (remove_sent r entry (with_faults fs w))).
  assert (HW : env W = env (delete_entry entry w)).
  { unfold W, delete_entry. rewrite !env_with_env, remove_sent_env, env_with_faults.
    reflexivity. }
  assert (HF : forallb negb (firstn 3 (faults W)) = true) by exact H3.
  destruct (loadData_view W HF) as (Hs & He & _ & _ & Hdb & _).
  assert (Hentries : entries (app (snd (loadData W)))
                     = filter (fun e => negb (id e =? entry)) (today_entries w)).
  { rewrite He. unfold today_entries. rewrite HW. cbn. apply entries_on_filter. }
  split; [rewrite Hdb, HW; reflexivity|].
  split; [exact Hentries|]. split.
  - intros e Hin. rewrite Hentries in Hin. apply filter_In in Hin as [_ Hin].
    intros Heq. rewrite Heq, Z.eqb_refl in Hin. discriminate Hin.
  - rewrite Hs. unfold today_stats. rewrite HW. reflexivity.
Qed.

Lemma handleRemoveEntry_accepted_witness :
  hd false [] = false /\
  forallb negb (firstn 3 (tl [])) = true /\
  entries (app (exec (handleRemoveEntry (current_render Sample.armed) 1) [] Sample.armed))
    = [].
Proof.
  split; [reflexivity|]. split; [reflexivity|].
  destruct (handleRemoveEntry_accepted (current_render Sample.armed) 1 []
              Sample.armed eq_refl eq_refl) as (_ & H & _).
  rewrite H. vm_compute. reflexivity.
Defined.

(** ** Adding water, stage by stage *)

Lemma add_sent_faults : forall r amount w, faults (add_sent r amount w) = tl (faults w).
Proof. reflexivity. Qed.

Lemma add_sent_env : forall r amount w, env (add_sent r amount w) = env w.
Proof. intros. unfold add_sent. autorewrite with world. reflexivity. Qed.

Lemma add_sent_app : forall r amount w, app (add_sent r amount w) = app w.
Proof. intros. unfold add_sent. autorewrite with world. reflexivity. Qed.

Lemma add_sent_rt : forall r amount w, rt (add_sent r amount w) = rt w.
Proof. intros. unfold add_sent. autorewrite with world. reflexivity. Qed.

Lemma add_sent_trace : forall r amount w,
  trace (add_sent r amount w) =
    trace w ++ audio_if (sound_enabled (r_settings r)) SndAdd
            ++ [EvInvoke (add_water amount)].
Proof.
  intros. unfold add_sent. autorewrite with world. rewrite <- app_assoc. reflexivity.
Qed.

Lemma add_failed_frame : forall r w,
  app (add_failed r w) = app w /\ rt (add_failed r w) = rt w /\
  env (add_failed r w) = env w /\ faults (add_failed r w) = faults w /\
  trace (add_failed r w) =
    trace w ++ [EvConsoleError "Failed to add water:"]
            ++ audio_if (sound_enabled (r_settings r)) SndError.
Proof.
  intros. unfold add_failed. autorewrite with world. rewrite <- ?app_assoc.
  repeat split; reflexivity.
Qed.

Lemma store_entry_frame : forall amount w,
  app (store_entry amount w) = app w /\ rt (store_entry amount w) = rt w /\
  faults (store_entry amount w) = faults w /\ trace (store_entry amount w) = trace w.
Proof. intros. repeat split; reflexivity. Qed.

Lemma store_entry_env : forall amount w w',
  env w = env w' -> env (store_entry amount w) = env (store_entry amount w').
Proof. intros amount w w' H. unfold store_entry. rewrite !env_with_env, H. reflexivity. Qed.

Lemma reads_done_frame : forall w,
  app (reads_done w) = app w /\ rt (reads_done w) = rt w /\ env (reads_done w) = env w /\
  faults (reads_done w) = tl (tl (faults w)).
Proof. intros. repeat split; reflexivity. Qed.

Lemma today_stats_env : forall w w', env w = env w' -> today_stats w = today_stats w'.
Proof. intros w w' H. unfold today_stats. rewrite H. reflexivity. Qed.


(** X9. When the store rejects [add_water], nothing else is attempted: the
    failure is logged and the error sound played, no read is issued, no
    toast is shown, and component state, runtime and store are exactly as
    before. *)
Theorem handleAddWater_rejected :
  forall (r : Render) (amount : Z) (fs : list bool) (w : World),
  0 < amount -> hd false fs = true ->
  let w' := exec (handleAddWater r amount) fs w in
  app w' = app w /\ rt w' = rt w /\ env w' = env w /\
  faults w' = tl fs /\
  trace w' =
    trace w ++ audio_if (sound_enabled (r_settings r)) SndAdd
            ++ [EvInvoke (add_water amount);
                EvConsoleError "Failed to add water:"]
            ++ audio_if (sound_enabled (r_settings r)) SndError.
Proof.
  intros r amount fs w Hpos H. cbv zeta. unfold exec.
  rewrite handleAddWater_run. apply Z.leb_gt in Hpos. rewrite Hpos. cbv zeta.
  rewrite faults_with_faults, H. cbn [snd].
  destruct (add_failed_frame r (add_sent r amount (with_faults fs w)))
    as (Ha & Hr & He & Hf & Ht).
  rewrite Ha, Hr, He, Hf, Ht, add_sent_app, add_sent_rt, add_sent_env, add_sent_trace.
  autorewrite with world. rewrite <- ?app_assoc. repeat split; reflexivity.
Qed.

Lemma handleAddWater_rejected_witness :
  0 < 250 /\ hd false [true] = true /\
  app (exec (handleAddWater (current_render Sample.armed) 250) [true] Sample.armed)
    = app Sample.armed.
Proof.
  split; [lia|]. split; [reflexivity|].
  destruct (handleAddWater_rejected (current_render Sample.armed) 250 [true]
              Sample.armed) as (H & _); [lia | reflexivity | exact H].
Defined.

(** X10. When [add_water] is accepted but one of the two reads that follow
    is rejected, the entry is in the store while the display is left as it
    was: no reload, no toast, the custom amount is not cleared; only the
    failure is logged and the error sound played. *)
Theorem handleAddWater_stored_but_not_shown :
  forall (r : Render) (amount : Z) (fs : list bool) (w : World),
  0 < amount -> hd false fs = false ->
  nth 1 fs false || nth 2 fs false = true ->
  let w' := exec (handleAddWater r amount) fs w in
  env w' = env (store_entry amount w) /\
  app w' = app w /\ rt w' = rt w /\
  trace w' =
    trace w ++ audio_if (sound_enabled (r_settings r)) SndAdd
            ++ [EvInvoke (add_water amount);
                EvInvoke get_today_stats; EvInvoke get_today_entries;
                EvConsoleError "Failed to add water:"]
            ++ audio_if (sound_enabled (r_settings r)) SndError.
Proof.
  intros r amount fs w Hpos H0 H12. cbv zeta. unfold exec.
  rewrite handleAddWater_run. apply Z.leb_gt in Hpos. rewrite Hpos. cbv zeta.
  rewrite faults_with_faults, H0.
  assert (HF : hd false (faults (store_entry amount (add_sent r amount (with_faults fs w))))
               || nth 1 (faults (store_entry amount (add_sent r amount (with_faults fs w)))) false
               = true).
  { cbn [faults store_entry with_env add_sent with_faults]. 
    destruct fs as [|b0 [|b1 [|b2 fs]]]; cbn in *; try discriminate; exact H12. }
  rewrite HF. cbn [snd].
  set (W2 := store_entry amount (add_sent r amount (with_faults fs w))).
  destruct (add_failed_frame r (reads_done W2)) as (Ha & Hr & He & Hf & Ht).
  rewrite Ha, Hr, He, Ht.
  split; [|split; [|split]].
  - unfold W2. cbn [reads_done env with_faults emit].
    apply store_entry_env. rewrite add_sent_env. reflexivity.
  - unfold W2. cbn [reads_done app with_faults emit store_entry with_env].
    rewrite add_sent_app. reflexivity.
  - unfold W2. cbn [reads_done rt with_faults emit store_entry with_env].
    rewrite add_sent_rt. reflexivity.
  - unfold W2. cbn [reads_done trace with_faults emit store_entry with_env].
    rewrite add_sent_trace. autorewrite with world. rewrite <- ?app_assoc.
    reflexivity.
Qed.

Lemma handleAddWater_stored_but_not_shown_witness :
  0 < 250 /\ hd false [false; true] = false /\
  nth 1 [false; true] false || nth 2 [false; true] false = true /\
  db_entries (env (exec (handleAddWater (current_render Sample.armed) 250)
                        [false; true] Sample.armed))
    = db_entries (env (store_entry 250 Sample.armed)) /\
  entries (app (exec (handleAddWater (current_render Sample.armed) 250)
                     [false; true] Sample.armed))
    = entries (app Sample.armed).
Proof.
  split; [lia|]. split; [reflexivity|]. split; [reflexivity|].
  destruct (handleAddWater_stored_but_not_shown (current_render Sample.armed) 250
              [false; true] Sample.armed) as (He & Ha & _);
    [lia | reflexivity | reflexivity |].
  rewrite He, Ha. split; reflexivity.
Defined.

Lemma celebrate_frame : forall r w,
  env (celebrate r w) = env w /\ faults (celebrate r w) = faults w /\
  app (celebrate r w) = put_achievement (mkBanner achievement_message true) (app w) /\
  achievementTimeout (rt (celebrate r w)) = Some (next_timer (rt w)).
Proof.
  intros r w. unfold celebrate, start_achievement_timeout, playSound.
  destruct (sound_enabled (r_settings r));
    destruct w as [a [ri [[|h]|] dt tm nt pd ed] e t f]; cbn; repeat split; reflexivity.
Qed.

Lemma add_finish_frame : forall amount w,
  env (add_finish amount w) = env w /\
  stats (app (add_finish amount w)) = stats (app w) /\
  entries (app (add_finish amount w)) = entries (app w) /\
  settings (app (add_finish amount w)) = settings (app w) /\
  achievement (app (add_finish amount w)) = achievement (app w) /\
  selectedMonth (app (add_finish amount w)) = selectedMonth (app w) /\
  toast (app (add_finish amount w))
    = mkBanner ("Added " ++ show_Z amount ++ "ml")%string true /\
  customAmount (app (add_finish amount w)) = ""%string /\
  achievementTimeout (rt (add_finish amount w)) = achievementTimeout (rt w) /\
  timers (rt (add_finish amount w))
    = timers (rt w) ++ [mkTimer (next_timer (rt w)) false 2000 CbHideToast].
Proof.
  intros amount [a r e t f]. destruct a, r. cbn. repeat split; reflexivity.
Qed.


Transparent StatsEngine.entries_on StatsEngine.get_daily_stats.






Opaque StatsEngine.entries_on StatsEngine.get_daily_stats.

(** The world in which [handleAddWater] calls [loadData], once the add and
    its two reads were accepted. *)
Lemma add_reload_world : forall r amount fs w,
  let w2 := store_entry amount (add_sent r amount (with_faults fs w)) in
  let w4 := if crossed_goal r (today_stats w2) then celebrate r (reads_done w2)
            else reads_done w2 in
  env w4 = env (store_entry amount w) /\ faults w4 = tl (tl (tl fs)) /\
  today_stats w2 = today_stats (store_entry amount w).
Proof.
  intros r amount fs w w2 w4.
  assert (E2 : env w2 = env (store_entry amount w)).
  { unfold w2. apply store_entry_env. rewrite add_sent_env. reflexivity. }
  assert (F2 : faults w2 = tl fs) by reflexivity.
  split; [|split].
  - unfold w4. destruct (crossed_goal r (today_stats w2)).
    + destruct (celebrate_frame r (reads_done w2)) as (He & _). rewrite He. exact E2.
    + exact E2.
  - unfold w4. destruct (crossed_goal r (today_stats w2)).
    + destruct (celebrate_frame r (reads_done w2)) as (_ & Hf & _). rewrite Hf.
      cbn [reads_done faults with_faults emit]. rewrite F2. reflexivity.
    + cbn [reads_done faults with_faults emit]. rewrite F2. reflexivity.
  - apply today_stats_env, E2.
Qed.

Lemma handleAddWater_accepted_run : forall r amount fs w,
  0 < amount -> hd false fs = false -> nth 1 fs false = false ->
  nth 2 fs false = false ->
  let w2 := store_entry amount (add_sent r amount (with_faults fs w)) in
  let w4 := if crossed_goal r (today_stats (store_entry amount w))
            then celebrate r (reads_done w2) else reads_done w2 in
  exec (handleAddWater r amount) fs w = add_finish amount (snd (loadData w4)).
Proof.
  intros r amount fs w Hpos H0 H1 H2. cbv zeta. unfold exec.
  rewrite handleAddWater_run. apply Z.leb_gt in Hpos. rewrite Hpos. cbv zeta.
  rewrite faults_with_faults, H0.
  assert (HF : hd false (faults (store_entry amount (add_sent r amount (with_faults fs w))))
               || nth 1 (faults (store_entry amount (add_sent r amount (with_faults fs w)))) false
               = false).
  { cbn [faults store_entry with_env add_sent with_faults].
    destruct fs as [|b0 [|b1 [|b2 fs]]]; cbn in *; subst; reflexivity. }
  rewrite HF.
  destruct (add_reload_world r amount fs w) as (_ & _ & Hs). cbv zeta in Hs.
  rewrite Hs. reflexivity.
Qed.



(** ** The achievement banner *)

Transparent setSettings.

Lemma setSettings_achievementTimeout : forall s w,
  achievementTimeout (rt (setSettings s w)) = achievementTimeout (rt w).
Proof.
  intros s w. unfold setSettings, commit. rewrite rt_with_app.
  destruct (effect_deps (rt w)); [|reflexivity].
  destruct (deps_eqb _ _); [reflexivity|].
  destruct (cleanup_refs (with_app (put_settings s) w)) as (_ & Ha & _).
  rewrite rt_with_app in Ha. rewrite <- Ha.
  generalize (cleanup (with_app (put_settings s) w)). intros [a r e t f].
  unfold run_effect, setupReminder, clear_reminder_ref, enqueue.
  repeat break_match; reflexivity.
Qed.

Opaque setSettings.

(** [loadData] touches neither the banner nor the ref of its timeout,
    whichever of its calls fail. *)
Lemma loadData_achievement : forall w,
  achievement (app (snd (loadData w))) = achievement (app w) /\
  achievementTimeout (rt (snd (loadData w))) = achievementTimeout (rt w).
Proof.
  intros w.
  apply (hoare_loadData
           (fun w' => achievement (app w') = achievement (app w) /\
                      achievementTimeout (rt w') = achievementTimeout (rt w))
           (fun _ => True)); auto.
  intros s w' _ [Ha Hr]. rewrite setSettings_app, setSettings_achievementTimeout.
  split; [exact Ha | exact Hr].
Qed.

Lemma crossed_goal_never : forall r,
  show (r_achievement r) = true \/ below_100 (r_stats r) = false ->
  forall s, crossed_goal r s = false.
Proof.
  intros r [H|H] s; unfold crossed_goal; rewrite H; cbn;
    [reflexivity | apply andb_false_r].
Qed.

(** X12. A call whose closure saw the banner showing, or saw no stats or
    stats already at 100%, never celebrates, whatever the new total and
    whichever calls fail: the banner and the ref of its timeout are left as
    they were.  The listener for the tray's quick-add is registered once
    with the first render's [handleAddWater], whose [stats] is null. *)
Theorem handleAddWater_no_achievement :
  forall (r : Render) (amount : Z) (fs : list bool) (w : World),
  show (r_achievement r) = true \/ below_100 (r_stats r) = false ->
  let w' := exec (handleAddWater r amount) fs w in
  achievement (app w') = achievement (app w) /\
  achievementTimeout (rt w') = achievementTimeout (rt w).
Proof.
  intros r amount fs w Hr. cbv zeta. unfold exec.
  rewrite handleAddWater_run. cbv zeta.
  rewrite (crossed_goal_never r Hr).
  destruct (amount <=? 0); [|destruct (hd false _); [|destruct (_ || _)]]; cbn [snd].
  - rewrite playSound_app, playSound_rt. split; reflexivity.
  - destruct (add_failed_frame r (add_sent r amount (with_faults fs w)))
      as (Ha & Hrt & _).
    rewrite Ha, Hrt, add_sent_app, add_sent_rt. split; reflexivity.
  - destruct (add_failed_frame r
                (reads_done (store_entry amount (add_sent r amount (with_faults fs w)))))
      as (Ha & Hrt & _).
    rewrite Ha, Hrt.
    cbn [reads_done app rt with_faults emit store_entry with_env].
    rewrite add_sent_app, add_sent_rt. split; reflexivity.
  - destruct (add_finish_frame amount
                (snd (loadData (reads_done (store_entry amount
                                  (add_sent r amount (with_faults fs w)))))))
      as (_ & _ & _ & _ & Fa & _ & _ & _ & Fr & _).
    rewrite Fa, Fr.
    destruct (loadData_achievement
                (reads_done (store_entry amount (add_sent r amount (with_faults fs w)))))
      as (La & Lr).
    rewrite La, Lr.
    cbn [reads_done app rt with_faults emit store_entry with_env].
    rewrite add_sent_app, add_sent_rt. split; reflexivity.
Qed.

Lemma handleAddWater_no_achievement_witness :
  (show (r_achievement (current_render (initial Sample.store More.january))) = true \/
   below_100 (r_stats (current_render (initial Sample.store More.january))) = false) /\
  achievement (app (exec (handleAddWater
                            (current_render (initial Sample.store More.january)) 5000)
                         [] Sample.armed))
    = achievement (app Sample.armed).
Proof.
  split; [right; reflexivity|].
  destruct (handleAddWater_no_achievement
              (current_render (initial Sample.store More.january)) 5000 []
              Sample.armed) as (H & _); [right; reflexivity | exact H].
Defined.

(** X13. When the add and the two reads after it are accepted and the
    closure's test passes (banner hidden, stats seen below 100%, new stats
    at 100% or more), the banner shows the achievement message and the ref
    holds the handle of the timeout just created, whatever the reload after
    it does. *)
Theorem handleAddWater_achievement :
  forall (r : Render) (amount : Z) (fs : list bool) (w : World),
  0 < amount ->
  hd false fs = false -> nth 1 fs false = false -> nth 2 fs false = false ->
  crossed_goal r (today_stats (store_entry amount w)) = true ->
  let w' := exec (handleAddWater r amount) fs w in
  achievement (app w') = mkBanner achievement_message true /\
  achievementTimeout (rt w') = Some (next_timer (rt w)).
Proof.
  intros r amount fs w Hpos H0 H1 H2 Hc. cbv zeta.
  rewrite (handleAddWater_accepted_run r amount fs w Hpos H0 H1 H2). rewrite Hc.
  set (W3 := reads_done (store_entry amount (add_sent r amount (with_faults fs w)))).
  destruct (add_finish_frame amount (snd (loadData (celebrate r W3))))
    as (_ & _ & _ & _ & Fa & _ & _ & _ & Fr & _).
  destruct (loadData_achievement (celebrate r W3)) as (La & Lr).
  destruct (celebrate_frame r W3) as (_ & _ & Ca & Cr).
  rewrite Fa, Fr, La, Lr, Ca, Cr. unfold W3.
  cbn [reads_done app rt with_faults emit store_entry with_env].
  rewrite add_sent_rt. split; reflexivity.
Qed.

Lemma handleAddWater_achievement_witness :
  0 < 1500 /\
  crossed_goal (current_render Sample.armed)
    (today_stats (store_entry 1500 Sample.armed)) = true /\
  achievement (app (exec (handleAddWater (current_render Sample.armed) 1500) []
                         Sample.armed))
    = mkBanner achievement_message true.
Proof.
  assert (Hc : crossed_goal (current_render Sample.armed)
                 (today_stats (store_entry 1500 Sample.armed)) = true)
    by (vm_compute; reflexivity).
  split; [lia|]. split; [exact Hc|].
  destruct (handleAddWater_achievement (current_render Sample.armed) 1500 []
              Sample.armed) as (H & _);
    [lia | reflexivity | reflexivity | reflexivity | exact Hc | exact H].
Defined.

(** ** Timers firing *)

Lemma count_event_app : forall p w evs,
  List.length (filter p (trace w ++ evs))
    = (count_event p w + List.length (filter p evs))%nat.
Proof. intros. unfold count_event. rewrite filter_app, length_app. reflexivity. Qed.

(** One firing of a recurring reminder. *)
Lemma fire_reminder : forall h delivered w t sound,
  find (fun t => Nat.eqb (t_id t) h) (timers (rt w)) = Some t ->
  t_repeat t = true -> t_cb t = CbReminder sound ->
  exists w',
    fire h delivered w = Some w' /\
    app w' = app w /\ rt w' = rt w /\ env w' = env w /\ faults w' = faults w /\
    trace w' =
      trace w
        ++ [EvOs (sendNotification notification_title
                    "Time to drink some water! Stay hydrated.")]
        ++ (if delivered then audio_if sound SndAdd
            else [EvConsoleError
                    (failure_mark ++ " Failed to send reminder notification:")%string;
                  EvConsoleError "Error details:"]).
Proof.
  intros h delivered w t sound Hf Hrep Hcb. unfold fire. rewrite Hf, Hrep, Hcb.
  eexists. split; [reflexivity|].
  destruct w as [a r e tr f]. unfold run_callback, notify, playSound, audio_if.
  destruct delivered, sound; cbn; rewrite <- ?app_assoc; repeat split; reflexivity.
Qed.

(** X14. A recurring reminder keeps firing: whatever the outcome of each
    delivery, every firing of the sequence finds the timer in place, sends
    one notification, and leaves component state, runtime (timer table
    included) and store as they were; a failed delivery is logged twice and
    plays nothing, a successful one plays the sound exactly when sound was
    enabled in the settings the timer was armed with. *)
Theorem reminder_keeps_firing :
  forall (ds : list bool) (h : nat) (w : World) (t : Timer) (sound : bool),
  find (fun t => Nat.eqb (t_id t) h) (timers (rt w)) = Some t ->
  t_repeat t = true -> t_cb t = CbReminder sound ->
  exists w',
    run (map (ActFire h) ds) w = Some w' /\
    app w' = app w /\ rt w' = rt w /\ env w' = env w /\
    count_event is_reminder_notification w'
      = (count_event is_reminder_notification w + List.length ds)%nat /\
    count_event is_console_error w'
      = (count_event is_console_error w + 2 * List.length (filter negb ds))%nat /\
    count_event is_audio w'
      = (count_event is_audio w
         + if sound then List.length (filter (fun d => d) ds) else 0)%nat.
Proof.
  induction ds as [|d ds IH]; intros h w t sound Hf Hrep Hcb.
  - exists w. cbn. repeat split; try lia. destruct sound; lia.
  - destruct (fire_reminder h d w t sound Hf Hrep Hcb)
      as (w1 & Hfire & Ha & Hr & He & _ & Ht).
    assert (Hf1 : find (fun t => Nat.eqb (t_id t) h) (timers (rt w1)) = Some t)
      by (rewrite Hr; exact Hf).
    destruct (IH h w1 t sound Hf1 Hrep Hcb) as (w' & Hrun & Ha' & Hr' & He' & Hn & Hc & Hs).
    exists w'. cbn [map run step]. rewrite Hfire.
    split; [exact Hrun|].
    split; [congruence|]. split; [congruence|]. split; [congruence|].
    rewrite Hn, Hc, Hs. unfold count_event at 1 3 5. rewrite Ht.
    rewrite !count_event_app.
    destruct d, sound; cbn; repeat split; lia.
Qed.

Lemma reminder_keeps_firing_witness :
  find (fun t => Nat.eqb (t_id t) 4) (timers (rt Sample.armed))
    = Some (mkTimer 4 true (30 * 60 * 1000) (CbReminder true)) /\
  exists w',
    run (map (ActFire 4) [true; false; true]) Sample.armed = Some w' /\
    rt w' = rt Sample.armed.
Proof.
  assert (Hf : find (fun t => Nat.eqb (t_id t) 4) (timers (rt Sample.armed))
               = Some (mkTimer 4 true (30 * 60 * 1000) (CbReminder true)))
    by (vm_compute; reflexivity).
  split; [exact Hf|].
  destruct (reminder_keeps_firing [true; false; true] 4 Sample.armed _ true Hf
              eq_refl eq_refl) as (w' & Hrun & _ & Hr & _).
  exists w'. split; [exact Hrun | exact Hr].
Defined.

Lemma find_cleared : forall h l,
  find (fun t => Nat.eqb (t_id t) h)
       (filter (fun t => negb (Nat.eqb (t_id t) h)) l) = None.
Proof.
  intros h l. induction l as [|t l IH]; cbn; [reflexivity|].
  destruct (Nat.eqb (t_id t) h) eqn:E; cbn; [exact IH|]. rewrite E. exact IH.
Qed.

(** X15. A one-shot timer fires at most once: firing it removes every
    entry with its handle from the table and leaves the rest of the table
    and the refs alone, so a second firing of the same handle finds
    nothing. *)
Theorem one_shot_fires_once :
  forall (h : nat) (d d' : bool) (w : World) (t : Timer),
  find (fun t => Nat.eqb (t_id t) h) (timers (rt w)) = Some t ->
  t_repeat t = false ->
  exists w',
    fire h d w = Some w' /\
    fire h d' w' = None /\
    timers (rt w') = filter (fun t => negb (Nat.eqb (t_id t) h)) (timers (rt w)) /\
    reminderInterval (rt w') = reminderInterval (rt w) /\
    achievementTimeout (rt w') = achievementTimeout (rt w) /\
    env w' = env w.
Proof.
  intros h d d' w t Hf Hrep. unfold fire at 1. rewrite Hf, Hrep.
  eexists. split; [reflexivity|].
  assert (Hrt : rt (run_callback (t_cb t) d (with_rt (clearTimer h) w))
                = clearTimer h (rt w))
    by (rewrite run_callback_rt; reflexivity).
  split; [|split; [|split; [|split]]].
  - unfold fire. rewrite Hrt. cbn [clearTimer timers put_timers].
    rewrite find_cleared. reflexivity.
  - rewrite Hrt. reflexivity.
  - rewrite Hrt. reflexivity.
  - rewrite Hrt. reflexivity.
  - destruct w as [a r e tr f].
    destruct (t_cb t) as [m [|]|[|]| |], d; reflexivity.
Qed.

Lemma one_shot_fires_once_witness :
  find (fun t => Nat.eqb (t_id t) 3) (timers (rt Sample.armed))
    = Some (mkTimer 3 false 2000 (CbTestNotification 30 true)) /\
  exists w',
    fire 3 true Sample.armed = Some w' /\ fire 3 true w' = None.
Proof.
  assert (Hf : find (fun t => Nat.eqb (t_id t) 3) (timers (rt Sample.armed))
               = Some (mkTimer 3 false 2000 (CbTestNotification 30 true)))
    by (vm_compute; reflexivity).
  split; [exact Hf|].
  destruct (one_shot_fires_once 3 true true Sample.armed _ Hf eq_refl)
    as (w' & H1 & H2 & _).
  exists w'. split; [exact H1 | exact H2].
Defined.

(** ** The timer table *)

Lemma table_ok_same : forall r r',
  timers r' = timers r -> next_timer r' = next_timer r ->
  achievementTimeout r' = achievementTimeout r -> table_ok r -> table_ok r'.
Proof. intros r r' Ht Hn Ha H. unfold table_ok in *. rewrite Ht, Hn, Ha. exact H. Qed.

Lemma NoDup_map_filter : forall {A B} (f : A -> B) (p : A -> bool) (l : list A),
  NoDup (map f l) -> NoDup (map f (filter p l)).
Proof.
  intros A B f p l. induction l as [|a l IH]; cbn; intros H; [constructor|].
  inversion H as [|x xs Hnotin Hnd]; subst.
  destruct (p a); cbn; [|apply IH, Hnd].
  constructor; [|apply IH, Hnd].
  intros Hin. apply Hnotin. apply in_map_iff in Hin as (x & Hx & Hin).
  apply in_map_iff. exists x. split; [exact Hx|].
  apply filter_In in Hin as [Hin _]. exact Hin.
Qed.

Lemma table_ok_clearTimer : forall h r, table_ok r -> table_ok (clearTimer h r).
Proof.
  intros h r (H1 & H2 & H3 & H4 & H5). unfold table_ok, clearTimer. cbn.
  split; [|split; [|split; [|split]]].
  - intros t Hin. apply filter_In in Hin as [Hin _]. apply H1, Hin.
  - apply NoDup_map_filter, H2.
  - intros t Hin. apply filter_In in Hin as [Hin _]. apply H3, Hin.
  - intros t Hin. apply filter_In in Hin as [Hin _]. apply H4, Hin.
  - exact H5.
Qed.

Lemma fresh_handle : forall r,
  (forall t, In t (timers r) -> (0 < t_id t < next_timer r)%nat) ->
  ~ In (next_timer r) (map t_id (timers r)).
Proof.
  intros r H Hin. apply in_map_iff in Hin as (t & Hid & Hin).
  specialize (H t Hin). lia.
Qed.

Lemma NoDup_snoc : forall {A} (l : list A) (a : A),
  NoDup l -> ~ In a l -> NoDup (l ++ [a]).
Proof.
  intros A l a Hnd Hnotin. apply NoDup_app; [exact Hnd | repeat constructor; auto |].
  intros x Hx [<-|[]]. exact (Hnotin Hx).
Qed.

(** A new timer other than an achievement timeout, recurring exactly when
    it is a reminder. *)
Lemma table_ok_setTimer : forall repeat cb ms r,
  table_ok r ->
  repeat = match cb with CbReminder _ => true | _ => false end ->
  cb <> CbHideAchievement ->
  table_ok (snd (setTimer repeat cb ms r)).
Proof.
  intros repeat cb ms r (H1 & H2 & H3 & H4 & H5) Hrep Hcb. unfold table_ok, setTimer.
  cbn. split; [|split; [|split; [|split]]].
  - intros t Hin. apply in_app_or in Hin as [Hin|[<-|[]]].
    + specialize (H1 t Hin). lia.
    + cbn. lia.
  - rewrite map_app. cbn. apply NoDup_snoc; [exact H2 | apply fresh_handle, H1].
  - intros t Hin. apply in_app_or in Hin as [Hin|[<-|[]]]; [apply H3, Hin|].
    unfold is_reminder_cb. cbn. exact Hrep.
  - intros t Hin Hh. apply in_app_or in Hin as [Hin|[<-|[]]]; [apply H4; assumption|].
    unfold is_hide_achievement in Hh. cbn in Hh. destruct cb; try discriminate Hh.
    contradiction.
  - lia.
Qed.

Lemma table_ok_setTimeout : forall cb ms w,
  world_table_ok w -> cb <> CbHideAchievement ->
  match cb with CbReminder _ => False | _ => True end ->
  world_table_ok (setTimeout_ cb ms w).
Proof.
  intros cb ms w H Hcb Hrem. unfold world_table_ok, setTimeout_. rewrite rt_with_rt.
  apply table_ok_setTimer; [exact H | | exact Hcb].
  destruct cb; try reflexivity. contradiction.
Qed.

Lemma table_ok_start_achievement : forall w,
  world_table_ok w -> world_table_ok (start_achievement_timeout w).
Proof.
  intros w Hok. unfold start_achievement_timeout.
  assert (H : world_table_ok
                match truthy (achievementTimeout (rt w)) with
                | Some h => with_rt (clearTimer h) w
                | None => w
                end /\
              forall t, In t (timers (rt match truthy (achievementTimeout (rt w)) with
                                         | Some h => with_rt (clearTimer h) w
                                         | None => w
                                         end)) -> is_hide_achievement t = false).
  { pose proof Hok as (H1 & H2 & H3 & H4 & H5).
    destruct (truthy (achievementTimeout (rt w))) as [h|] eqn:T.
    - apply truthy_some in T as [Href Hpos].
      split; [apply table_ok_clearTimer, Hok|].
      intros t Hin. cbn in Hin. apply filter_In in Hin as [Hin Hne].
      destruct (is_hide_achievement t) eqn:Hh; [|reflexivity].
      specialize (H4 t Hin Hh). rewrite Href in H4. injection H4 as ->.
      rewrite Nat.eqb_refl in Hne. discriminate Hne.
    - split; [exact Hok|].
      intros t Hin. destruct (is_hide_achievement t) eqn:Hh; [|reflexivity].
      specialize (H4 t Hin Hh). specialize (H1 t Hin).
      pose proof (truthy_none _ _ T H4). lia. }
  revert H.
  generalize (match truthy (achievementTimeout (rt w)) with
              | Some h => with_rt (clearTimer h) w
              | None => w
              end).
  intros w1 [(H1 & H2 & H3 & H4 & H5) Hnone].
  unfold world_table_ok, table_ok. cbn.
  split; [|split; [|split; [|split]]].
  - intros t Hin. apply in_app_or in Hin as [Hin|[<-|[]]].
    + specialize (H1 t Hin). lia.
    + cbn. lia.
  - rewrite map_app. cbn. apply NoDup_snoc; [exact H2 | apply fresh_handle, H1].
  - intros t Hin. apply in_app_or in Hin as [Hin|[<-|[]]]; [apply H3, Hin|].
    reflexivity.
  - intros t Hin Hh. apply in_app_or in Hin as [Hin|[<-|[]]]; [|reflexivity].
    rewrite (Hnone t Hin) in Hh. discriminate Hh.
  - lia.
Qed.

Lemma table_ok_clear_reminder_ref : forall w,
  world_table_ok w -> world_table_ok (clear_reminder_ref w).
Proof.
  intros w Hok. unfold clear_reminder_ref.
  destruct (truthy (reminderInterval (rt w))) as [h|]; [|exact Hok].
  unfold world_table_ok. rewrite rt_with_rt.
  apply (table_ok_same (clearTimer h (rt w))); try reflexivity.
  apply table_ok_clearTimer, Hok.
Qed.

Lemma table_ok_cleanup : forall w, world_table_ok w -> world_table_ok (cleanup w).
Proof.
  intros w Hok. unfold cleanup.
  assert (Hok1 : world_table_ok
            match truthy (reminderInterval (rt w)) with
            | Some h => with_rt (clearTimer h) w
            | None => w
            end).
  { destruct (truthy (reminderInterval (rt w))); [|exact Hok].
    apply table_ok_clearTimer. exact Hok. }
  revert Hok1.
  generalize (match truthy (reminderInterval (rt w)) with
              | Some h => with_rt (clearTimer h) w
              | None => w
              end).
  intros w1 Hok1.
  destruct (truthy (achievementTimeout (rt w1))); [|exact Hok1].
  apply table_ok_clearTimer. exact Hok1.
Qed.

Lemma table_ok_arm : forall s w, world_table_ok w -> world_table_ok (arm s w).
Proof.
  intros s w Hok. unfold arm.
  pose proof (table_ok_clear_reminder_ref w Hok) as Hok1.
  pose proof (table_ok_setTimeout
                (CbTestNotification (reminder_interval_minutes s) (sound_enabled s))
                2000 _ Hok1) as Hok2.
  specialize (Hok2 ltac:(discriminate) Logic.I).
  revert Hok2.
  generalize (setTimeout_
                (CbTestNotification (reminder_interval_minutes s) (sound_enabled s))
                2000 (clear_reminder_ref w)).
  intros w2 Hok2. unfold world_table_ok. rewrite rt_with_rt.
  pose proof (table_ok_setTimer true (CbReminder (sound_enabled s))
                (reminder_interval_minutes s * 60 * 1000) (rt w2) Hok2 eq_refl
                ltac:(discriminate)) as Hok3.
  revert Hok3. unfold setTimer. cbn [snd]. apply table_ok_same; reflexivity.
Qed.

Lemma table_ok_report_denied : forall w,
  world_table_ok w -> world_table_ok (report_denied w).
Proof.
  intros w Hok. unfold report_denied.
  apply table_ok_setTimeout; [exact Hok | discriminate | exact Logic.I].
Qed.

Lemma table_ok_run_effect : forall w, world_table_ok w -> world_table_ok (run_effect w).
Proof.
  intros w Hok. unfold run_effect, setupReminder.
  destruct (negb (reminder_enabled (settings (app w)))).
  - apply table_ok_clear_reminder_ref. exact Hok.
  - exact Hok.
Qed.

Transparent setSettings.

Lemma table_ok_setSettings : forall s w,
  world_table_ok w -> world_table_ok (setSettings s w).
Proof.
  intros s w Hok. unfold setSettings, commit. rewrite rt_with_app.
  destruct (effect_deps (rt w)); [|exact Hok].
  destruct (deps_eqb _ _); [exact Hok|].
  apply table_ok_run_effect, table_ok_cleanup. exact Hok.
Qed.

Opaque setSettings.

Lemma table_ok_mount : forall w, world_table_ok w -> world_table_ok (mount w).
Proof.
  intros w Hok. unfold mount.
  destruct (effect_deps (rt w)); [exact Hok | apply table_ok_run_effect, Hok].
Qed.

Lemma table_ok_unmount : forall w, world_table_ok w -> world_table_ok (unmount w).
Proof.
  intros w Hok. unfold unmount.
  destruct (effect_deps (rt w)); [|exact Hok].
  apply (table_ok_cleanup w Hok).
Qed.

Lemma table_ok_resume_nth : forall i a w w',
  world_table_ok w -> resume_nth i a w = Some w' -> world_table_ok w'.
Proof.
  intros i a w w' Hok H. unfold resume_nth in H.
  destruct (nth_error (pending (rt w)) i) as [k|]; [|discriminate H].
  revert H.
  assert (Hok' : world_table_ok
                   (with_rt (fun r => put_pending (remove_nth i (pending r)) r) w))
    by exact Hok.
  revert Hok'.
  generalize (with_rt (fun r => put_pending (remove_nth i (pending r)) r) w).
  intros w0 Hok0 H. unfold resume in H.
  destruct (k_at k), a as [[|]|[| |]|]; try discriminate H; injection H as <-;
    try exact Hok0; try (apply table_ok_arm, Hok0); apply table_ok_report_denied, Hok0.
Qed.

Lemma table_ok_fire : forall h d w w',
  world_table_ok w -> fire h d w = Some w' -> world_table_ok w'.
Proof.
  intros h d w w' Hok H. unfold fire in H.
  destruct (find _ (timers (rt w))) as [t|]; [|discriminate H].
  injection H as <-. unfold world_table_ok. rewrite run_callback_rt.
  destruct (t_repeat t); [exact Hok|].
  apply table_ok_clearTimer. exact Hok.
Qed.

Ltac frame_table_ok :=
  match goal with
  | H : world_table_ok ?w |- world_table_ok _ => exact H
  end.

Lemma table_ok_handlers :
  hoare world_table_ok loadData anything /\
  (forall r amount, hoare world_table_ok (handleAddWater r amount) anything) /\
  (forall r entry, hoare world_table_ok (handleRemoveEntry r entry) anything) /\
  (forall r p, hoare world_table_ok (handleSaveSettings r p) anything).
Proof.
  split; [|split; [|split]].
  - apply (hoare_loadData world_table_ok (fun _ => True)); auto; intros;
      try frame_table_ok.
    apply table_ok_setSettings; assumption.
  - intros r amount.
    apply (hoare_handleAddWater world_table_ok (fun _ => True)); auto; intros;
      try frame_table_ok.
    + apply table_ok_setSettings; assumption.
    + apply table_ok_setTimeout; [assumption | discriminate | exact Logic.I].
    + apply table_ok_start_achievement; assumption.
  - intros r entry.
    apply (hoare_handleRemoveEntry world_table_ok (fun _ => True)); auto; intros;
      try frame_table_ok.
    apply table_ok_setSettings; assumption.
  - intros r p.
    apply (hoare_handleSaveSettings world_table_ok (fun _ => True)); auto; intros;
      try frame_table_ok.
    + apply table_ok_setSettings; assumption.
    + apply table_ok_setTimeout; [assumption | discriminate | exact Logic.I].
Qed.

Lemma table_ok_step : forall a w w',
  world_table_ok w -> step a w = Some w' -> world_table_ok w'.
Proof.
  intros a w w' Hok H.
  destruct table_ok_handlers as (HL & HA & HR & HS).
  destruct a; cbn [step] in H.
  - injection H as <-. apply table_ok_mount, Hok.
  - injection H as <-. apply table_ok_unmount, Hok.
  - injection H as <-. unfold exec. apply HL. exact Hok.
  - injection H as <-. unfold exec. apply HA. exact Hok.
  - injection H as <-. unfold exec. apply HR. exact Hok.
  - injection H as <-. unfold exec. apply HS. exact Hok.
  - injection H as <-. unfold world_table_ok.
    rewrite rt_with_app, playSound_rt. exact Hok.
  - eapply table_ok_resume_nth; [exact Hok | exact H].
  - eapply table_ok_fire; [exact Hok | exact H].
Qed.

Lemma table_ok_run : forall acts w w',
  world_table_ok w -> run acts w = Some w' -> world_table_ok w'.
Proof.
  induction acts as [|a acts IH]; intros w w' Hok H; cbn in H.
  - injection H as <-. exact Hok.
  - destruct (step a w) as [w1|] eqn:Hs; [|discriminate H].
    apply (IH w1 w'); [eapply table_ok_step; eassumption | exact H].
Qed.

Lemma at_most_one : forall (p : Timer -> bool) (c : nat) (l : list Timer),
  NoDup (map t_id l) ->
  (forall t, In t l -> p t = true -> t_id t = c) ->
  (List.length (filter p l) <= 1)%nat.
Proof.
  intros p c l. induction l as [|t l IH]; cbn; intros Hnd Hc; [lia|].
  inversion Hnd as [|x xs Hnotin Hnd']; subst.
  assert (IH' : (List.length (filter p l) <= 1)%nat)
    by (apply IH; [exact Hnd' | intros t' Hin; apply Hc; right; exact Hin]).
  destruct (p t) eqn:Hp; [|exact IH'].
  assert (Hempty : filter p l = []).
  { apply filter_none. intros t' Hin Hp'. apply Hnotin.
    apply in_map_iff. exists t'. split; [|exact Hin].
    rewrite (Hc t' (or_intror Hin) Hp'), (Hc t (or_introl eq_refl) Hp). reflexivity. }
  rewrite Hempty. cbn. lia.
Qed.

(** X16. In every reachable state the timer table is well formed: handles
    are positive, below the next handle to be issued and pairwise distinct;
    a timer is recurring exactly when its callback is the reminder; every
    pending timeout that would hide the achievement banner is the one the
    [achievementTimeout] ref holds, so at most one is pending. *)
Theorem reachable_table_ok : forall w : World,
  reachable w ->
  world_table_ok w /\
  (List.length (filter is_hide_achievement (timers (rt w))) <= 1)%nat.
Proof.
  intros w (b & sel & acts & Hrun).
  assert (Hok : world_table_ok w).
  { eapply table_ok_run; [|exact Hrun].
    unfold world_table_ok, table_ok. cbn.
    repeat split; try contradiction; try lia. constructor. }
  split; [exact Hok|].
  destruct Hok as (H1 & H2 & H3 & H4 & H5).
  destruct (achievementTimeout (rt w)) as [c|] eqn:Ha.
  - apply (at_most_one _ c); [exact H2|].
    intros t Hin Hp. specialize (H4 t Hin Hp). congruence.
  - apply (at_most_one _ 0%nat); [exact H2|].
    intros t Hin Hp. specialize (H4 t Hin Hp). discriminate H4.
Qed.

Lemma reachable_table_ok_witness :
  reachable More.celebrating /\
  filter is_hide_achievement (timers (rt More.celebrating))
    = [mkTimer 5 false 5000 CbHideAchievement] /\
  (List.length (filter is_hide_achievement (timers (rt More.celebrating))) <= 1)%nat.
Proof.
  assert (H : reachable More.celebrating).
  { exists Sample.store, (mkSel 2024 5), More.celebrating_script.
    vm_compute. reflexivity. }
  split; [exact H|]. split; [vm_compute; reflexivity|].
  destruct (reachable_table_ok _ H) as (_ & Hl). exact Hl.
Defined.

(** ** The banner's timeout and the reminder effect's cleanup *)

Lemma cleanup_incl : forall w t,
  In t (timers (rt (cleanup w))) -> In t (timers (rt w)).
Proof.
  intros w t. unfold cleanup.
  destruct (truthy (reminderInterval (rt w))) as [h|];
    [change (achievementTimeout (rt (with_rt (clearTimer h) w)))
       with (achievementTimeout (rt w))|];
    destruct (truthy (achievementTimeout (rt w))) as [h'|]; cbn; intros Hin;
    repeat (apply filter_In in Hin as [Hin _]); exact Hin.
Qed.

Lemma clear_reminder_ref_incl : forall w t,
  In t (timers (rt (clear_reminder_ref w))) -> In t (timers (rt w)).
Proof.
  intros w t. unfold clear_reminder_ref.
  destruct (truthy (reminderInterval (rt w))) as [h|]; cbn; intros Hin;
    [apply filter_In in Hin as [Hin _]|]; exact Hin.
Qed.

Lemma run_effect_incl : forall w t,
  In t (timers (rt (run_effect w))) -> In t (timers (rt w)).
Proof.
  intros w t. unfold run_effect, setupReminder.
  destruct (negb (reminder_enabled (settings (app w)))).
  - intros Hin. apply clear_reminder_ref_incl in Hin. exact Hin.
  - intros Hin. exact Hin.
Qed.

Transparent setSettings.

(** A commit of settings never adds a timer: arming happens only when a
    permission answer arrives. *)
Lemma setSettings_incl : forall s w t,
  In t (timers (rt (setSettings s w))) -> In t (timers (rt w)).
Proof.
  intros s w t. unfold setSettings, commit. rewrite rt_with_app.
  destruct (effect_deps (rt w)); [|intros H; exact H].
  destruct (deps_eqb _ _); [intros H; exact H|].
  intros Hin. apply run_effect_incl, cleanup_incl in Hin. exact Hin.
Qed.

Lemma cleanup_hide_free : forall w, world_table_ok w -> hide_free (cleanup w).
Proof.
  intros w (H1 & H2 & H3 & H4 & H5) t Hin.
  destruct (is_hide_achievement t) eqn:Hh; [|reflexivity]. exfalso.
  pose proof (cleanup_incl w t Hin) as Hin0.
  pose proof (H4 t Hin0 Hh) as Href. specialize (H1 t Hin0).
  assert (T : truthy (achievementTimeout (rt w)) = Some (t_id t)).
  { rewrite Href. destruct (t_id t); [lia | reflexivity]. }
  exact (cleanup_drops_achievement w (t_id t) t T Hin eq_refl).
Qed.

Lemma setSettings_hide_free : forall s d w,
  world_table_ok w ->
  effect_deps (rt w) = Some d -> deps_eqb d (deps_of s) = false ->
  hide_free (setSettings s w).
Proof.
  intros s d w Hok Hd Hne t Hin. unfold setSettings, commit in Hin.
  rewrite rt_with_app, Hd in Hin. cbn [app with_app settings put_settings] in Hin.
  rewrite Hne in Hin. apply run_effect_incl in Hin.
  exact (cleanup_hide_free (with_app (put_settings s) w) Hok t Hin).
Qed.

Opaque setSettings.

Lemma hide_free_incl : forall w w',
  (forall t, In t (timers (rt w')) -> In t (timers (rt w))) ->
  hide_free w -> hide_free w'.
Proof. intros w w' Hincl H t Hin. apply H, Hincl, Hin. Qed.

Lemma hide_free_setTimeout : forall ms w,
  hide_free w -> hide_free (setTimeout_ CbHideToast ms w).
Proof.
  intros ms w H t Hin. cbn in Hin. apply in_app_or in Hin as [Hin|[<-|[]]];
    [apply H, Hin | reflexivity].
Qed.

Ltac frame_hide_free :=
  match goal with
  | H : hide_free ?w |- hide_free _ => exact H
  end.

Lemma loadData_hide_free : forall w, hide_free w -> hide_free (snd (loadData w)).
Proof.
  intros w Hw.
  apply (hoare_loadData hide_free (fun _ => True)); auto; intros;
    try frame_hide_free.
  eapply hide_free_incl; [apply setSettings_incl | eassumption].
Qed.

Lemma toggle_step_hide_free : forall o w, hide_free w -> hide_free (toggle_step o w).
Proof.
  intros o w H. unfold toggle_step. destruct o as [b|]; [|exact H].
  destruct (hd false (faults w)); [|exact H].
  apply hide_free_setTimeout. exact H.
Qed.

Lemma toggle_step_frame : forall o w,
  settings (app (toggle_step o w)) = settings (app w) /\
  stats (app (toggle_step o w)) = stats (app w) /\
  entries (app (toggle_step o w)) = entries (app w) /\
  achievement (app (toggle_step o w)) = achievement (app w) /\
  db_settings (env (toggle_step o w)) = db_settings (env w) /\
  db_entries (env (toggle_step o w)) = db_entries (env w) /\
  data_theme (rt (toggle_step o w)) = data_theme (rt w) /\
  faults (toggle_step o w) = match o with Some _ => tl (faults w) | None => faults w end.
Proof.
  intros o w. unfold toggle_step. destruct o as [b|]; [|repeat split; reflexivity].
  destruct (hd false (faults w)); repeat split; reflexivity.
Qed.

Lemma apply_theme_app : forall p w, app (apply_theme p w) = app w.
Proof. intros p w. unfold apply_theme. repeat break_match; reflexivity. Qed.

Lemma apply_theme_timers : forall p w, timers (rt (apply_theme p w)) = timers (rt w).
Proof. intros p w. unfold apply_theme. repeat break_match; reflexivity. Qed.

Lemma save_step_rt : forall s w, rt (save_step s w) = rt w.
Proof. intros s w. unfold save_step. destruct (hd false (faults w)); reflexivity. Qed.

(** X17. A save that changes a reminder dependency (the enabled flag or
    the interval) runs the reminder effect's cleanup, and that cleanup also
    clears the achievement timeout: whatever calls fail afterwards, the
    banner is left as it was and no timeout remains that would hide it. *)
Theorem handleSaveSettings_strands_banner :
  forall (r : Render) (p : PartialSettings) (fs : list bool) (w : World) (d : bool * Z),
  world_table_ok w ->
  effect_deps (rt w) = Some d ->
  deps_eqb d (deps_of (spread (r_settings r) p)) = false ->
  let w' := exec (handleSaveSettings r p) fs w in
  achievement (app w') = achievement (app w) /\ hide_free w'.
Proof.
  intros r p fs w d Hok Hd Hne. cbv zeta. unfold exec.
  rewrite handleSaveSettings_run. cbv zeta.
  set (updated := spread (r_settings r) p) in *.
  assert (H1 : hide_free (setSettings updated (with_faults fs w)))
    by (apply (setSettings_hide_free updated d); assumption).
  assert (A1 : achievement (app (setSettings updated (with_faults fs w)))
               = achievement (app w))
    by (rewrite setSettings_app; reflexivity).
  assert (H2 : hide_free (apply_theme p (setSettings updated (with_faults fs w)))).
  { intros t Hin. rewrite apply_theme_timers in Hin. apply H1, Hin. }
  assert (A2 : achievement (app (apply_theme p (setSettings updated (with_faults fs w))))
               = achievement (app w))
    by (rewrite apply_theme_app; exact A1).
  revert H2 A2.
  generalize (apply_theme p (setSettings updated (with_faults fs w))).
  intros w1 H2 A2.
  pose proof (toggle_step_hide_free (p_start_with_system p) w1 H2) as H3.
  destruct (toggle_step_frame (p_start_with_system p) w1) as (_ & _ & _ & A3 & _).
  rewrite A2 in A3. revert H3 A3.
  generalize (toggle_step (p_start_with_system p) w1). intros w2 H3 A3.
  assert (H4 : hide_free (save_step updated w2)).
  { intros t Hin. rewrite save_step_rt in Hin. apply H3, Hin. }
  assert (A4 : achievement (app (save_step updated w2)) = achievement (app w))
    by (rewrite save_step_app; exact A3).
  destruct (hd false (faults w2)); cbn [snd].
  - split; [exact A4 | exact H4].
  - destruct (loadData_achievement (save_step updated w2)) as (La & _).
    split; [rewrite La; exact A4 | apply loadData_hide_free, H4].
Qed.

Lemma handleSaveSettings_strands_banner_witness :
  world_table_ok More.celebrating /\
  show (achievement (app More.celebrating)) = true /\
  filter is_hide_achievement (timers (rt More.celebrating))
    = [mkTimer 5 false 5000 CbHideAchievement] /\
  show (achievement (app (exec (handleSaveSettings (current_render More.celebrating)
                                  Sample.faster) [] More.celebrating))) = true /\
  hide_free (exec (handleSaveSettings (current_render More.celebrating)
                     Sample.faster) [] More.celebrating).
Proof.
  assert (Hok : world_table_ok More.celebrating).
  { unfold world_table_ok, table_ok. vm_compute.
    split; [|split; [|split; [|split]]].
    - intros t [<-|[<-|[<-|[<-|[<-|[]]]]]]; cbn; lia.
    - repeat constructor; cbn; intuition lia.
    - intros t [<-|[<-|[<-|[<-|[<-|[]]]]]]; reflexivity.
    - intros t [<-|[<-|[<-|[<-|[<-|[]]]]]]; intros; try discriminate; reflexivity.
    - lia. }
  split; [exact Hok|]. split; [vm_compute; reflexivity|].
  split; [vm_compute; reflexivity|].
  destruct (handleSaveSettings_strands_banner (current_render More.celebrating)
              Sample.faster [] More.celebrating (true, 30) Hok)
    as (Ha & Hf); [vm_compute; reflexivity | vm_compute; reflexivity |].
  split; [rewrite Ha; vm_compute; reflexivity | exact Hf].
Defined.

(** ** Saving settings, when the save or the reload fails *)

Transparent setSettings.

Lemma setSettings_data_theme : forall s w,
  data_theme (rt (setSettings s w)) = data_theme (rt w).
Proof.
  intros s w. unfold setSettings, commit. rewrite rt_with_app.
  destruct (effect_deps (rt w)); [|reflexivity].
  destruct (deps_eqb _ _); [reflexivity|].
  assert (Hc : data_theme (rt (cleanup (with_app (put_settings s) w)))
               = data_theme (rt w)).
  { unfold cleanup. repeat break_match; reflexivity. }
  rewrite <- Hc.
  generalize (cleanup (with_app (put_settings s) w)). intros [a r e t f].
  unfold run_effect, setupReminder, clear_reminder_ref, enqueue.
  repeat break_match; reflexivity.
Qed.

Opaque setSettings.

(** The world in which [handleSaveSettings] issues [save_settings]. *)
Lemma save_world : forall r p fs w,
  let updated := spread (r_settings r) p in
  let w2 := toggle_step (p_start_with_system p)
              (apply_theme p (setSettings updated (with_faults fs w))) in
  settings (app w2) = updated /\
  stats (app w2) = stats (app w) /\
  entries (app w2) = entries (app w) /\
  db_settings (env w2) = db_settings (env w) /\
  db_entries (env w2) = db_entries (env w) /\
  data_theme (rt w2) = data_theme (rt (apply_theme p (with_faults fs w))) /\
  faults w2 = match p_start_with_system p with Some _ => tl fs | None => fs end.
Proof.
  intros r p fs w updated w2.
  destruct (toggle_step_frame (p_start_with_system p)
              (apply_theme p (setSettings updated (with_faults fs w))))
    as (Hs & Hst & Hen & _ & Hdb & Hde & Hth & Hf).
  unfold w2. rewrite Hs, Hst, Hen, Hdb, Hde, Hth, Hf.
  rewrite !apply_theme_app, !apply_theme_env, apply_theme_faults.
  rewrite setSettings_app, setSettings_env, setSettings_faults.
  repeat split.
  unfold apply_theme. destruct (p_theme p) as [t|]; [destruct (nonempty t)|];
    cbn; rewrite ?setSettings_data_theme; reflexivity.
Qed.

(** X18. The update of the settings in memory is optimistic and is never
    rolled back: when [save_settings] is rejected (the first call when the
    autostart flag is not part of the change, the second when it is), the
    settings on display are the updated ones while the store keeps the old
    ones, no reload happens, and stats and entries are as before. *)
Theorem handleSaveSettings_save_rejected :
  forall (r : Render) (p : PartialSettings) (fs : list bool) (w : World),
  nth (match p_start_with_system p with Some _ => 1 | None => 0 end) fs false = true ->
  let w' := exec (handleSaveSettings r p) fs w in
  settings (app w') = spread (r_settings r) p /\
  db_settings (env w') = db_settings (env w) /\
  db_entries (env w') = db_entries (env w) /\
  stats (app w') = stats (app w) /\
  entries (app w') = entries (app w).
Proof.
  intros r p fs w Hrej. cbv zeta. unfold exec.
  rewrite handleSaveSettings_run. cbv zeta.
  destruct (save_world r p fs w) as (Hs & Hst & Hen & Hdb & Hde & _ & Hf).
  cbv zeta in *.
  set (w2 := toggle_step (p_start_with_system p)
               (apply_theme p (setSettings (spread (r_settings r) p) (with_faults fs w))))
    in *.
  assert (Hhd : hd false (faults w2) = true).
  { rewrite Hf. destruct (p_start_with_system p); destruct fs as [|b0 [|b1 fs]];
      cbn in *; try discriminate; exact Hrej. }
  rewrite Hhd. cbn [snd].
  rewrite save_step_app, save_step_env, Hhd.
  repeat split; assumption.
Qed.

Lemma handleSaveSettings_save_rejected_witness :
  nth (match p_start_with_system Sample.faster with Some _ => 1 | None => 0 end)
      [true] false = true /\
  reminder_interval_minutes
    (settings (app (exec (handleSaveSettings (current_render Sample.armed)
                            Sample.faster) [true] Sample.armed))) = 45 /\
  reminder_interval_minutes
    (db_settings (env (exec (handleSaveSettings (current_render Sample.armed)
                               Sample.faster) [true] Sample.armed))) = 30.
Proof.
  split; [reflexivity|].
  destruct (handleSaveSettings_save_rejected (current_render Sample.armed)
              Sample.faster [true] Sample.armed) as (Hs & Hdb & _); [reflexivity|].
  rewrite Hs, Hdb. split; vm_compute; reflexivity.
Defined.

Lemma loadData_cut_short : forall fs w,
  forallb negb (firstn 3 fs) = false ->
  rt (snd (loadData (with_faults fs w))) = rt w.
Proof.
  intros fs w H.
  destruct fs as [|[|] [|[|] [|[|] fs]]]; cbn in H; try discriminate H;
    unfold_handler; cbn; reflexivity.
Qed.

(** X19. A save that carries a (non-empty) theme leaves the document
    showing that theme whichever calls fail: the attribute is set before
    anything is awaited, and the reload, when it happens and gets through,
    reads back the theme just saved. *)
Theorem handleSaveSettings_theme_shown :
  forall (r : Render) (p : PartialSettings) (fs : list bool) (w : World) (t : string),
  p_theme p = Some t -> nonempty t = true ->
  data_theme (rt (exec (handleSaveSettings r p) fs w)) = Some t.
Proof.
  intros r p fs w t Hp Ht. unfold exec.
  rewrite handleSaveSettings_run. cbv zeta.
  destruct (save_world r p fs w) as (_ & _ & _ & _ & _ & Hth & Hf).
  cbv zeta in *.
  set (updated := spread (r_settings r) p) in *.
  set (w2 := toggle_step (p_start_with_system p)
               (apply_theme p (setSettings updated (with_faults fs w)))) in *.
  assert (Hth2 : data_theme (rt w2) = Some t).
  { rewrite Hth. unfold apply_theme. rewrite Hp, Ht. reflexivity. }
  destruct (hd false (faults w2)) eqn:Hhd; cbn [snd].
  - rewrite save_step_rt. exact Hth2.
  - rewrite <- (with_faults_self (save_step updated w2)).
    destruct (forallb negb (firstn 3 (faults (save_step updated w2)))) eqn:Hreads.
    + pose proof (loadData_view_under _ (save_step updated w2) Hreads) as L.
      cbv zeta in L. destruct L as (_ & _ & Ld & _).
      rewrite Ld, save_step_env, Hhd. cbn.
      unfold updated, spread. cbn. rewrite Hp. reflexivity.
    + rewrite loadData_cut_short by exact Hreads.
      rewrite save_step_rt. exact Hth2.
Qed.

Lemma handleSaveSettings_theme_shown_witness :
  p_theme More.dark = Some "dark"%string /\ nonempty "dark" = true /\
  data_theme (rt Sample.armed) = Some "light"%string /\
  data_theme (rt (exec (handleSaveSettings (current_render Sample.armed) More.dark)
                       [true] Sample.armed)) = Some "dark"%string.
Proof.
  split; [reflexivity|]. split; [reflexivity|]. split; [vm_compute; reflexivity|].
  exact (handleSaveSettings_theme_shown (current_render Sample.armed) More.dark
           [true] Sample.armed "dark" eq_refl eq_refl).
Defined.

(** ** Tearing the component down *)

Lemma arm_effect_deps : forall s w, effect_deps (rt (arm s w)) = effect_deps (rt w).
Proof.
  intros s w. unfold arm, clear_reminder_ref.
  destruct (truthy (reminderInterval (rt w))); reflexivity.
Qed.

(** X20. Unmounting cancels the timers but not the arming attempts that
    are waiting for a permission answer: when the answer arrives after the
    teardown and is yes, the attempt still creates its timers, and the
    unmounted component is left with a live recurring reminder, tracked by
    the ref, that no effect will clean up. *)
Theorem attempt_outlives_unmount :
  forall (w : World) (i : nat) (k : Task) (d : bool * Z),
  world_ok w -> effect_deps (rt w) = Some d ->
  nth_error (pending (rt w)) i = Some k -> k_at k = AwaitIsGranted ->
  exists w' h,
    run [ActUnmount; ActResume i (IsGranted true)] w = Some w' /\
    effect_deps (rt w') = None /\
    reminderInterval (rt w') = Some h /\
    live_recurring (rt w') =
      [mkTimer h true (reminder_interval_minutes (k_settings k) * 60 * 1000)
         (CbReminder (sound_enabled (k_settings k)))].
Proof.
  intros w i k d Hok Hd Hk Hat.
  cbn [run step]. unfold unmount. rewrite Hd.
  unfold resume_nth. rewrite rt_with_rt.
  cbn [pending put_effect_deps]. rewrite cleanup_pending, Hk.
  unfold resume. rewrite Hat.
  set (W := with_rt (fun r => put_pending (remove_nth i (pending r)) r)
              (with_rt (put_effect_deps None) (cleanup w))).
  assert (HokW : world_ok W) by (apply (cleanup_ok w Hok)).
  destruct (arm_ok (k_settings k) W HokW) as (Hok' & Hlive).
  exists (arm (k_settings k) W), (S (next_timer (rt W))).
  split; [reflexivity|]. split; [rewrite arm_effect_deps; reflexivity|].
  split; [|exact Hlive].
  destruct Hok' as (H1 & _).
  destruct (H1 (mkTimer (S (next_timer (rt W))) true
                  (reminder_interval_minutes (k_settings k) * 60 * 1000)
                  (CbReminder (sound_enabled (k_settings k))))) as (Href & _);
    [|reflexivity|exact Href].
  assert (Hin : In (mkTimer (S (next_timer (rt W))) true
                      (reminder_interval_minutes (k_settings k) * 60 * 1000)
                      (CbReminder (sound_enabled (k_settings k))))
                   (live_recurring (rt (arm (k_settings k) W))))
    by (rewrite Hlive; left; reflexivity).
  apply filter_In in Hin as [Hin _]. exact Hin.
Qed.

Lemma attempt_outlives_unmount_witness :
  world_ok (mount Sample.fresh) /\
  nth_error (pending (rt (mount Sample.fresh))) 0
    = Some (mkTask AwaitIsGranted defaultSettings) /\
  exists w' h,
    run [ActUnmount; ActResume 0 (IsGranted true)] (mount Sample.fresh) = Some w' /\
    effect_deps (rt w') = None /\
    reminderInterval (rt w') = Some h.
Proof.
  assert (Hok : world_ok (mount Sample.fresh)) by (apply mount_ok, initial_ok).
  assert (Hk : nth_error (pending (rt (mount Sample.fresh))) 0
               = Some (mkTask AwaitIsGranted defaultSettings))
    by (vm_compute; reflexivity).
  split; [exact Hok|]. split; [exact Hk|].
  destruct (attempt_outlives_unmount (mount Sample.fresh) 0
              (mkTask AwaitIsGranted defaultSettings) (deps_of defaultSettings) Hok)
    as (w' & h & Hrun & Hd & Hr & _);
    [vm_compute; reflexivity | exact Hk | reflexivity |].
  exists w', h. split; [exact Hrun|]. split; [exact Hd | exact Hr].
Defined.

(** ** Toasts *)

Lemma find_fresh : forall h (l : list Timer) t rest,
  (forall t', In t' l -> t_id t' <> h) -> t_id t = h ->
  find (fun t => Nat.eqb (t_id t) h) (l ++ t :: rest) = Some t.
Proof.
  intros h l t rest Hl Ht. induction l as [|a l IH]; cbn.
  - rewrite Ht, Nat.eqb_refl. reflexivity.
  - destruct (Nat.eqb (t_id a) h) eqn:E.
    + apply Nat.eqb_eq in E. exfalso. exact (Hl a (or_introl eq_refl) E).
    + apply IH. intros t' Hin. apply Hl. right. exact Hin.
Qed.

(** X21. A toast is hidden by whichever hide timer fires next, not by its
    own: when a second toast is shown while the first one's timer is still
    pending, that first timer clears the second toast (whose own timer is
    left pending and later clears whatever is showing then). *)
Theorem toast_hidden_by_earlier_timer :
  forall (msg1 msg2 : string) (w : World),
  world_table_ok w ->
  let w2 := snd (showToast msg2 (snd (showToast msg1 w))) in
  toast (app w2) = mkBanner msg2 true /\
  exists w3,
    fire (next_timer (rt w)) true w2 = Some w3 /\
    toast (app w3) = mkBanner "" false /\
    timers (rt w3)
      = timers (rt w) ++ [mkTimer (S (next_timer (rt w))) false 2000 CbHideToast].
Proof.
  intros msg1 msg2 w (H1 & _) w2.
  assert (E : w2 =
    setTimeout_ CbHideToast 2000
      (with_app (put_toast (mkBanner msg2 true))
         (setTimeout_ CbHideToast 2000
            (with_app (put_toast (mkBanner msg1 true)) w)))) by reflexivity.
  split; [rewrite E; reflexivity|].
  assert (Hfresh : forall t', In t' (timers (rt w)) -> t_id t' <> next_timer (rt w)).
  { intros t' Hin. specialize (H1 t' Hin). lia. }
  assert (Ht : timers (rt w2) =
            timers (rt w) ++ mkTimer (next_timer (rt w)) false 2000 CbHideToast
                          :: [mkTimer (S (next_timer (rt w))) false 2000 CbHideToast]).
  { rewrite E. cbn. rewrite <- app_assoc. reflexivity. }
  unfold fire. rewrite Ht.
  rewrite (find_fresh (next_timer (rt w)) (timers (rt w))
             (mkTimer (next_timer (rt w)) false 2000 CbHideToast) _ Hfresh eq_refl).
  eexists. split; [reflexivity|]. split; [reflexivity|].
  cbn [t_repeat t_cb run_callback]. rewrite rt_with_app, rt_with_rt.
  cbn [clearTimer timers put_timers]. rewrite Ht, filter_app.
  assert (Hne : Nat.eqb (S (next_timer (rt w))) (next_timer (rt w)) = false)
    by (apply Nat.eqb_neq; lia).
  cbn [filter t_id]. rewrite Nat.eqb_refl, Hne. cbn [negb]. f_equal.
  apply forallb_filter_id. apply forallb_forall. intros t' Hin.
  apply negb_true_iff, Nat.eqb_neq, Hfresh, Hin.
Qed.

Lemma toast_hidden_by_earlier_timer_witness :
  world_table_ok Sample.fresh /\
  exists w3,
    fire 1 true (snd (showToast "Added 500ml" (snd (showToast "Added 250ml" Sample.fresh))))
      = Some w3 /\
    toast (app w3) = mkBanner "" false.
Proof.
  assert (Hok : world_table_ok Sample.fresh).
  { unfold world_table_ok, table_ok. cbn.
    repeat split; try contradiction; try lia. constructor. }
  split; [exact Hok|].
  destruct (toast_hidden_by_earlier_timer "Added 250ml" "Added 500ml" Sample.fresh Hok)
    as (_ & w3 & Hf & Ht & _).
  exists w3. split; [exact Hf | exact Ht].
Defined.

(** * Permission and arming *)

(** ** How a run of [setupReminder] starts *)


(** ** A suspended run, when its answer arrives *)





(** ** Nothing else arms *)











